(** * magic_afm.data_readers: the ARDF container reader, embedded in Rocq

    The Python module reads Asylum Research ARDF files through a read-only
    memory map.  The embedding keeps the structure of the source:

    - the memory map is a [list byte]; every class that stores a reference
      to it ([data: mmap]) receives it here as the explicit argument [mm],
      since the mapping is shared and never written;
    - Python integers are [Z]; the fields decoded by [struct] are unsigned
      little-endian numbers;
    - [bytes] values (chunk tags, C strings) are [string]s of 8-bit
      characters;
    - a raised exception is a value of [exn], a call is a [res];
    - [while True] loops and generators take a fuel argument and answer
      [OutOfFuel] when it is exhausted;
    - the [_seen_vsets] dictionary of the force-map reader is a [gmap]
      threaded through the calls that mutate it. *)

From Stdlib Require Import ZArith Lia List Bool Strings.Byte Strings.String Strings.Ascii.
From stdpp Require Import gmap strings list.

Local Open Scope Z_scope.

(** ** Chunk headers and Python exceptions *)

(** [ARDFHeader] (attrs.frozen): the [data] field is the shared map [mm]. *)
Record ARDFHeader : Type := mkARDFHeader {
  h_offset : Z;
  h_crc : Z;
  h_size : Z;
  h_name : string;
  h_flags : Z
}.

Inductive exn : Type :=
| struct_error
    (* struct.error: unpack_from requires a buffer of at least n bytes *)
| ValueError_section (expected got : Z) (h : ARDFHeader)
    (* ValueError(f"Invalid section. Expected {crc:X}, got {crc:X}.", self) *)
| ValueError_header (msg : string) (h : ARDFHeader)
    (* ValueError(msg, header) *)
| ValueError_index (shape rc : Z * Z)
    (* ValueError("Invalid index:", (lines, points), (r, c)) *)
| ValueError_msg (msg : string)
| AssertionError
| KeyError_curve (k : Z * Z * Z)
| KeyError_name (k : string)
| IndexError
| UnboundLocalError (var : string)
| TypeError_buffer_too_small
| RuntimeError (msg : string)
| UnicodeDecodeError.

Inductive res (A : Type) : Type :=
| Ok (a : A)
| Raise (e : exn)
| OutOfFuel.
Arguments Ok {A} a.
Arguments Raise {A} e.
Arguments OutOfFuel {A}.

Definition bind {A B} (m : res A) (k : A -> res B) : res B :=
  match m with
  | Ok a => k a
  | Raise e => Raise e
  | OutOfFuel => OutOfFuel
  end.

Notation "'let*' x ':=' m 'in' k" := (bind m (fun x => k))
  (at level 10, x pattern, m at level 100, k at level 200).

(** [assert cond] with assertions enabled (the interpreter's default). *)
Definition assert (c : bool) : res unit :=
  if c then Ok tt else Raise AssertionError.

(** ** Bytes, slices and [struct.unpack_from] *)

Definition byte_to_Z (b : byte) : Z := Z.of_N (Byte.to_N b).

(** Little-endian unsigned integer ([L] is 4 bytes, [Q] is 8). *)
Fixpoint le_uint (bs : list byte) : Z :=
  match bs with
  | [] => 0
  | b :: bs' => byte_to_Z b + 256 * le_uint bs'
  end.

(** Python's [l[start:stop]] for integer bounds (step 1). *)
Definition clamp_index (n i : Z) : Z :=
  if i <? 0 then Z.max (i + n) 0 else Z.min i n.

Definition slice {A} (l : list A) (start stop : Z) : list A :=
  let n := Z.of_nat (length l) in
  let a := clamp_index n start in
  let b := clamp_index n stop in
  take (Z.to_nat (b - a)) (drop (Z.to_nat a) l).

(** The [n] bytes that [struct.unpack_from(fmt, data, offset)] decodes, where
    [n = struct.calcsize(fmt)].  Every offset of this module is a sum of
    unsigned fields, so the negative-offset convention of [struct] is not
    modelled: a negative offset is answered like a short buffer. *)
Definition unpack_from (n : Z) (mm : list byte) (offset : Z) : res (list byte) :=
  if (0 <=? offset) && (offset + n <=? Z.of_nat (length mm))
  then Ok (take (Z.to_nat n) (drop (Z.to_nat offset) mm))
  else Raise struct_error.

(** Fields of an unpacked record, by byte position in the record. *)
Definition field (bs : list byte) (pos len : nat) : list byte :=
  take len (drop pos bs).
Definition uint_at (bs : list byte) (pos len : nat) : Z := le_uint (field bs pos len).
Definition bytes_at (bs : list byte) (pos len : nat) : string :=
  string_of_list_byte (field bs pos len).

(** ** zlib.crc32 *)

(** The CRC-32 of zlib, bit by bit: the register is shifted right and the
    reflected polynomial 0xEDB88320 is added when a one falls out. *)
Definition crc32_shift (c : Z) : Z :=
  if Z.odd c then Z.lxor (Z.shiftr c 1) 0xEDB88320 else Z.shiftr c 1.

Definition crc32_byte (c : Z) (b : byte) : Z :=
  Nat.iter 8 crc32_shift (Z.lxor c (byte_to_Z b)).

Definition zlib_crc32 (bs : list byte) : Z :=
  Z.lxor (fold_left crc32_byte bs 0xFFFFFFFF) 0xFFFFFFFF.

(** The same checksum in the words of the format description: polynomial
    0x04C11DB7, most significant bit first, every input byte and the final
    register reflected, initial value and final XOR 0xFFFFFFFF. *)
Definition reflect (w : nat) (x : Z) : Z :=
  fold_right
    (fun i acc =>
       if Z.testbit x (Z.of_nat i)
       then Z.lor acc (Z.shiftl 1 (Z.of_nat (w - 1 - i)))
       else acc)
    0 (seq 0 w).

Definition crc32_msb_shift (c : Z) : Z :=
  if Z.testbit c 31
  then Z.land (Z.lxor (Z.shiftl c 1) 0x04C11DB7) 0xFFFFFFFF
  else Z.land (Z.shiftl c 1) 0xFFFFFFFF.

Definition crc32_msb_byte (c : Z) (b : byte) : Z :=
  Nat.iter 8 crc32_msb_shift (Z.lxor c (Z.shiftl (reflect 8 (byte_to_Z b)) 24)).

Definition crc32_reflected_04C11DB7 (bs : list byte) : Z :=
  Z.lxor (reflect 32 (fold_left crc32_msb_byte bs 0xFFFFFFFF)) 0xFFFFFFFF.

(** ** ARDFHeader *)

(** [ARDFHeader.unpack]: [struct.unpack_from("<LL4sL", data, offset)]. *)
Definition ARDFHeader_unpack (mm : list byte) (offset : Z) : res ARDFHeader :=
  let* bs := unpack_from 16 mm offset in
  Ok (mkARDFHeader offset (uint_at bs 0 4) (uint_at bs 4 4) (bytes_at bs 8 4)
        (uint_at bs 12 4)).

(** [ARDFHeader.validate] *)
Definition ARDFHeader_validate (mm : list byte) (h : ARDFHeader) : res bool :=
  let crc := zlib_crc32 (slice mm (h_offset h + 4) (h_offset h + h_size h)) in
  if negb (h_crc h =? crc)
  then Raise (ValueError_section (h_crc h) crc h)
  else Ok true.

(** ** Table-of-contents family *)

(** [range(start, stop, step)] for a positive step. *)
Definition py_range (start stop step : Z) : list Z :=
  map (fun k => start + step * Z.of_nat k)
      (seq 0 (Z.to_nat ((stop - start + step - 1) / step))).

(** The pre-body [struct.unpack_from("<QLL", data, offset + 16)] shared by the
    three tables: [(size, nentries, stride)]. *)
Definition toc_prebody (mm : list byte) (offset : Z) : res (Z * Z * Z) :=
  let* bs := unpack_from 16 mm (offset + 16) in
  Ok (uint_at bs 0 8, uint_at bs 8 4, uint_at bs 12 4).

Record ARDFTableOfContents : Type := mkARDFTableOfContents {
  toc_offset : Z;
  toc_size : Z;
  toc_entries : list (ARDFHeader * Z)
}.

Definition toc_entry_names : list string := ["IMAG"; "VOLM"; "NEXT"; "THMB"; "NSET"]%string.

(** The entry loop of [ARDFTableOfContents.unpack]. *)
Fixpoint ARDFTableOfContents_entries (mm : list byte) (offsets : list Z)
    (entries : list (ARDFHeader * Z)) : res (list (ARDFHeader * Z)) :=
  match offsets with
  | [] => Ok entries
  | toc_off :: rest =>
      let* bs := unpack_from 24 mm toc_off in
      let pointer := uint_at bs 16 8 in
      if pointer =? 0 then Ok entries (* rest is null padding *)
      else
        let entry_header :=
          mkARDFHeader toc_off (uint_at bs 0 4) (uint_at bs 4 4) (bytes_at bs 8 4)
            (uint_at bs 12 4) in
        if negb (existsb (String.eqb (h_name entry_header)) toc_entry_names)
        then Raise (ValueError_header "Malformed table of contents." entry_header)
        else
          let* _ := ARDFHeader_validate mm entry_header in
          ARDFTableOfContents_entries mm rest (entries ++ [(entry_header, pointer)])
  end.

(** [ARDFTableOfContents.unpack] *)
Definition ARDFTableOfContents_unpack (mm : list byte) (header : ARDFHeader)
    : res ARDFTableOfContents :=
  if negb (h_size header =? 32)
  then Raise (ValueError_header "Malformed table of contents" header)
  else
    let* _ := ARDFHeader_validate mm header in
    let offset := h_offset header in
    let* (size, nentries, stride) := toc_prebody mm offset in
    let* _ := assert (stride =? 24) in
    let* _ := assert (size - 32 =? nentries * stride) in
    let* entries :=
      ARDFTableOfContents_entries mm (py_range (offset + 32) (offset + size) stride) [] in
    Ok (mkARDFTableOfContents offset size entries).

Record ARDFTextTableOfContents : Type := mkARDFTextTableOfContents {
  ttoc_offset : Z;
  ttoc_size : Z;
  ttoc_entries : list (ARDFHeader * Z)
}.

(** The entry loop of [ARDFTextTableOfContents.unpack]
    ([struct.unpack_from("<LL4sLQQ", data, toc_off)]). *)
Fixpoint ARDFTextTableOfContents_entries (mm : list byte) (offsets : list Z)
    (entries : list (ARDFHeader * Z)) : res (list (ARDFHeader * Z)) :=
  match offsets with
  | [] => Ok entries
  | toc_off :: rest =>
      let* bs := unpack_from 32 mm toc_off in
      let pointer := uint_at bs 24 8 in
      if pointer =? 0 then Ok entries (* rest is null padding *)
      else
        let entry_header :=
          mkARDFHeader toc_off (uint_at bs 0 4) (uint_at bs 4 4) (bytes_at bs 8 4)
            (uint_at bs 12 4) in
        if negb (h_name entry_header =? "TOFF")%string
        then Raise (ValueError_header "Malformed text table entry." entry_header)
        else
          let* _ := ARDFHeader_validate mm entry_header in
          ARDFTextTableOfContents_entries mm rest (entries ++ [(entry_header, pointer)])
  end.

(** [ARDFTextTableOfContents.unpack] *)
Definition ARDFTextTableOfContents_unpack (mm : list byte) (header : ARDFHeader)
    : res ARDFTextTableOfContents :=
  if negb (h_size header =? 32) || negb (h_name header =? "TTOC")%string
  then Raise (ValueError_header "Malformed text table of contents." header)
  else
    let* _ := ARDFHeader_validate mm header in
    let offset := h_offset header in
    let* (size, nentries, stride) := toc_prebody mm offset in
    let* _ := assert (stride =? 32) in
    let* _ := assert (size - 32 =? nentries * stride) in
    let* entries :=
      ARDFTextTableOfContents_entries mm (py_range (offset + 32) (offset + size) stride) [] in
    Ok (mkARDFTextTableOfContents offset size entries).

Record ARDFVolumeTableOfContents : Type := mkARDFVolumeTableOfContents {
  vtoc_offset : Z;
  vtoc_size : Z;
  vtoc_lines : list Z;
  vtoc_points : list Z;
  vtoc_pointers : list Z
}.

(** The entry loop of [ARDFVolumeTableOfContents.unpack].  [vtoc_arr] is the
    list of the rows [(force_index, line, point, pointer)] written so far:
    the loop fills the zeroed array front to back, and either fills all of
    it or truncates it to the rows written ([vtoc_arr[:i].copy()]). *)
Fixpoint ARDFVolumeTableOfContents_entries (mm : list byte) (offsets : list Z)
    (vtoc_arr : list (Z * Z * Z * Z)) : res (list (Z * Z * Z * Z)) :=
  match offsets with
  | [] => Ok vtoc_arr
  | toc_off :: rest =>
      let* entry_header := ARDFHeader_unpack mm toc_off in
      if h_crc entry_header =? 0
      then Ok vtoc_arr (* scan was interrupted, and vtoc is zero-filled *)
      else if negb (h_name entry_header =? "VOFF")%string
      then Raise (ValueError_header "Malformed volume table entry." entry_header)
      else
        let* _ := ARDFHeader_validate mm entry_header in
        let* bs := unpack_from 24 mm (toc_off + 16) in
        ARDFVolumeTableOfContents_entries mm rest
          (vtoc_arr ++ [(uint_at bs 0 4, uint_at bs 4 4, uint_at bs 8 8, uint_at bs 16 8)])
  end.

(** [ARDFVolumeTableOfContents.unpack] *)
Definition ARDFVolumeTableOfContents_unpack (mm : list byte) (header : ARDFHeader)
    : res ARDFVolumeTableOfContents :=
  let offset := h_offset header in
  if negb (h_size header =? 32) || negb (h_name header =? "VTOC")%string
  then Raise (ValueError_header "Malformed volume table of contents." header)
  else
    let* (size, nentries, stride) := toc_prebody mm offset in
    let* _ := assert (stride =? 40) in
    let* _ := assert (size - 32 =? nentries * stride) in
    let* vtoc_arr :=
      ARDFVolumeTableOfContents_entries mm
        (py_range (h_offset header + 32) (h_offset header + size) stride) [] in
    Ok (mkARDFVolumeTableOfContents offset size
          (map (fun '(_, line, _, _) => line) vtoc_arr)
          (map (fun '(_, _, point, _) => point) vtoc_arr)
          (map (fun '(_, _, _, pointer) => pointer) vtoc_arr)).

(** ** Strings of the container *)

(** [bytes.rstrip(b"\0")] *)
Fixpoint rstrip_nul (bs : list byte) : list byte :=
  match bs with
  | [] => []
  | b :: bs' =>
      match rstrip_nul bs' with
      | [] => if Byte.eqb b x00 then [] else [b]
      | r => b :: r
      end
  end.

(** [bytes.decode("windows-1252")]: the codec has no character for five byte
    values; every other byte is one character, written here as that byte. *)
Definition cp1252_undefined (b : byte) : bool :=
  existsb (Z.eqb (byte_to_Z b)) [0x81; 0x8D; 0x8F; 0x90; 0x9D].

Definition decode_windows_1252 (bs : list byte) : res string :=
  if existsb cp1252_undefined bs then Raise UnicodeDecodeError
  else Ok (string_of_list_byte bs).

(** [decode_cstring] *)
Definition decode_cstring (cstring : list byte) : res string :=
  decode_windows_1252 (rstrip_nul cstring).

(** [str.split(sep)] for a one-character separator. *)
Fixpoint str_split (sep : ascii) (s : string) : list string :=
  match s with
  | EmptyString => [EmptyString]
  | String c s' =>
      if Ascii.eqb c sep then EmptyString :: str_split sep s'
      else
        match str_split sep s' with
        | [] => [String c EmptyString]
        | w :: ws => String c w :: ws
        end
  end.

(** ** Channel and experiment definitions *)

Record ARDFVchan : Type := mkARDFVchan {
  vc_name : string;
  vc_unit : string
}.

(** [ARDFVchan.unpack] *)
Definition ARDFVchan_unpack (mm : list byte) (header : ARDFHeader) : res ARDFVchan :=
  if negb (h_size header =? 80) || negb (h_name header =? "VCHN")%string
  then Raise (ValueError_header "Malformed channel definition." header)
  else
    let* _ := ARDFHeader_validate mm header in
    let* bs := unpack_from 64 mm (h_offset header + 16) in
    let* name := decode_cstring (field bs 0 32) in
    let* unit := decode_cstring (field bs 32 32) in
    Ok (mkARDFVchan name unit).

Record ARDFXdef : Type := mkARDFXdef {
  xd_offset : Z;
  xd_size : Z;
  xd_xdef : list string
}.

(** [ARDFXdef.unpack].  [data.seek(offset + 24); data.read(nchars)] is the
    slice of the map from [offset + 24], cut at the end of the map; the seek
    cannot fail after the 8 bytes before that position were unpacked. *)
Definition ARDFXdef_unpack (mm : list byte) (header : ARDFHeader) : res ARDFXdef :=
  if negb (h_size header =? 96) || negb (h_name header =? "XDEF")%string
  then Raise (ValueError_header "Malformed experiment definition." header)
  else
    let* _ := ARDFHeader_validate mm header in
    let* bs := unpack_from 8 mm (h_offset header + 16) in
    let nchars := uint_at bs 4 4 in
    let* _ := assert (uint_at bs 0 4 =? 0) in
    if h_size header <? nchars
    then Raise (ValueError_header "Experiment definition too long." header)
    else
      let* text :=
        decode_windows_1252
          (slice mm (h_offset header + 24) (h_offset header + 24 + nchars)) in
      Ok (mkARDFXdef (h_offset header) (h_size header)
            (removelast (str_split ";" text))).

(** ** Volume sets and volume data *)

Record ARDFVset : Type := mkARDFVset {
  vs_offset : Z;
  vs_size : Z;
  vs_force_index : Z;
  vs_line : Z;
  vs_point : Z;
  vs_vtype : Z;
  vs_prev_vset_offset : Z;
  vs_next_vset_offset : Z
}.

(** [ARDFVset.unpack] ([vset_format = "<LLLLQQ"]) *)
Definition ARDFVset_unpack (mm : list byte) (vset_header : ARDFHeader) : res ARDFVset :=
  if negb (h_name vset_header =? "VSET")%string
  then Raise (ValueError_header "malformed VSET header" vset_header)
  else
    let* _ := ARDFHeader_validate mm vset_header in
    let offset := h_offset vset_header in
    let size := 48 in
    let* bs := unpack_from 32 mm (offset + 16) in
    Ok (mkARDFVset offset size (uint_at bs 0 4) (uint_at bs 4 4) (uint_at bs 8 4)
          (uint_at bs 12 4) (uint_at bs 16 8) (uint_at bs 24 8)).

Record ARDFVdata : Type := mkARDFVdata {
  vd_offset : Z;
  vd_size : Z;
  vd_force_index : Z;
  vd_line : Z;
  vd_point : Z;
  vd_nfloats : Z;
  vd_channel : Z;
  vd_seg_offsets : list Z
}.

(** [ARDFVdata.unpack] ([vdat_format = "<10L"]) *)
Definition ARDFVdata_unpack (mm : list byte) (header : ARDFHeader) : res ARDFVdata :=
  let offset := h_offset header in
  let size := 56 in
  let* bs := unpack_from 40 mm (offset + 16) in
  Ok (mkARDFVdata offset size (uint_at bs 0 4) (uint_at bs 4 4) (uint_at bs 8 4)
        (uint_at bs 12 4) (uint_at bs 16 4)
        [uint_at bs 20 4; uint_at bs 24 4; uint_at bs 28 4; uint_at bs 32 4;
         uint_at bs 36 4]).

Definition ARDFVdata_array_offset (v : ARDFVdata) : Z := vd_offset v + vd_size v.
Definition ARDFVdata_next_offset (v : ARDFVdata) : Z :=
  ARDFVdata_array_offset v + vd_nfloats v * 4.

(** A float32 sample is kept as its 32 bits. *)
Fixpoint float32_words (bs : list byte) (n : nat) : list Z :=
  match n with
  | O => []
  | S n' => le_uint (take 4 bs) :: float32_words (drop 4 bs) n'
  end.

(** [np.ndarray(shape=n, dtype=np.float32, buffer=data, offset=offset)] *)
Definition np_ndarray_float32 (mm : list byte) (n offset : Z) : res (list Z) :=
  if (0 <=? offset) && (offset + 4 * n <=? Z.of_nat (length mm))
  then Ok (float32_words (drop (Z.to_nat offset) mm) (Z.to_nat n))
  else Raise TypeError_buffer_too_small.

(** The bits of [np.float32(np.nan)]. *)
Definition float32_nan : Z := 0x7FC00000.

(** ** numpy helpers of the force-map reader *)

(** [a.searchsorted(v)] (side "left"): numpy's binary search.  On a sorted
    array it is the number of elements below [v]. *)
Fixpoint bisect_left (fuel : nat) (a : list Z) (v : Z) (lo hi : nat) : nat :=
  match fuel with
  | O => lo
  | S fuel' =>
      if (lo <? hi)%nat then
        let mid := (lo + (hi - lo) / 2)%nat in
        if nth mid a 0 <? v then bisect_left fuel' a v (S mid) hi
        else bisect_left fuel' a v lo mid
      else lo
  end.

Definition searchsorted (a : list Z) (v : Z) : nat :=
  bisect_left (length a) a v 0 (length a).

(** What [get_curve] and [iter_curves] return for one pixel: the tuple
    [(zxr, dxr)] of (extend, retract) pairs, or a float32 ndarray. *)
Inductive ZDArrays : Type :=
| zd_tuple (zxr dxr : list Z * list Z)
| zd_ndarray (a : list (list (list Z))).

(** [np.full(shape=(2, 2, 100), fill_value=np.nan, dtype=np.float32)] *)
Definition nan_placeholder : ZDArrays :=
  zd_ndarray (repeat (repeat (repeat float32_nan 100) 2) 2).

(** A dict whose iteration order matters: insertion order, a repeated key
    keeps its place and takes the new value. *)
Fixpoint dict_set {K V} `{EqDecision K} (k : K) (v : V) (d : list (K * V))
    : list (K * V) :=
  match d with
  | [] => [(k, v)]
  | (k', v') :: d' =>
      if decide (k = k') then (k, v) :: d' else (k', v') :: dict_set k v d'
  end.

Record ARDFForceMapReader : Type := mkARDFForceMapReader {
  r_vtoc : ARDFVolumeTableOfContents;
  r_lines : Z;
  r_points : Z;
  r_vtype : Z;
  r_channels : gmap string (Z * ARDFVchan)
}.

(** [self.channels[name][0]] *)
Definition channel_index (channels : gmap string (Z * ARDFVchan)) (name : string)
    : res Z :=
  match channels !! name with
  | Some (i, _) => Ok i
  | None => Raise (KeyError_name name)
  end.

(** [ARDFForceMapReader.zname] *)
Definition zname (rd : ARDFForceMapReader) : string :=
  match r_channels rd !! "Raw"%string with
  | Some _ => "Raw"%string
  | None => "ZSnsr"%string
  end.

(** [traverse_vsets], one turn of its loop up to the [yield]: [Ok None] when
    the generator returns, [Ok (Some vset)] when it yields [vset]; it resumes
    at [vset.next_vset_offset].  The second component is [_seen_vsets]. *)
Definition traverse_vsets_next (mm : list byte) (seen : gmap (Z * Z * Z) ARDFVset)
    (pointer : Z) : res (option ARDFVset) * gmap (Z * Z * Z) ARDFVset :=
  match ARDFHeader_unpack mm pointer with
  | Ok header =>
      if negb (h_name header =? "VSET")%string then (Ok None, seen)
      else
        match ARDFVset_unpack mm header with
        | Ok vset =>
            let index := (vs_line vset, vs_point vset, vs_vtype vset) in
            (Ok (Some vset),
             match seen !! index with
             | Some _ => seen
             | None => <[index := vset]> seen
             end)
        | Raise e => (Raise e, seen)
        | OutOfFuel => (OutOfFuel, seen)
        end
  | Raise e => (Raise e, seen)
  | OutOfFuel => (OutOfFuel, seen)
  end.

(** [traverse_vdats] up to its loop: the pointer behind the VNAM chunk. *)
Definition traverse_vdats_start (mm : list byte) (pointer : Z) : res Z :=
  let* vnam_header := ARDFHeader_unpack mm pointer in
  if negb (h_name vnam_header =? "VNAM")%string
  then Raise (ValueError_header "Malformed volume name" vnam_header)
  else
    let* _ := ARDFHeader_validate mm vnam_header in
    Ok (h_offset vnam_header + h_size vnam_header).

(** [traverse_vdats], one turn of its loop: the yielded [ARDFVdata] and the
    pointer at which the generator resumes. *)
Definition traverse_vdats_next (mm : list byte) (pointer : Z)
    : res (option (ARDFVdata * Z)) :=
  let* vdat_header := ARDFHeader_unpack mm pointer in
  if negb (h_name vdat_header =? "VDAT")%string then Ok None
  else
    let* _ := ARDFHeader_validate mm vdat_header in
    let* vdat := ARDFVdata_unpack mm vdat_header in
    Ok (Some (vdat, h_offset vdat_header + h_size vdat_header)).

Section ForceMapReader.

(** Multiplication of a float32 by [NANOMETER_UNIT_CONVERSION = 1e9], on the
    bits of the sample.  Floating-point arithmetic is left abstract. *)
Variable to_nanometers : Z -> Z.

(** [ARDFVdata.get_ndarray] *)
Definition ARDFVdata_get_ndarray (mm : list byte) (v : ARDFVdata) : res (list Z) :=
  let* a := np_ndarray_float32 mm (vd_nfloats v) (ARDFVdata_array_offset v) in
  Ok (map to_nanometers a).

(** The body of the [for vdat in self.traverse_vdats(...)] loops of
    [get_curve] and [iter_curves]; [zxr] and [dxr] are [None] while the
    Python variables are unbound. *)
Definition curve_vdat_body (mm : list byte) (rd : ARDFForceMapReader) (vdat : ARDFVdata)
    (zxr dxr : option (list Z * list Z))
    : res (option (list Z * list Z) * option (list Z * list Z)) :=
  let s := vd_seg_offsets vdat in
  let* zi := channel_index (r_channels rd) (zname rd) in
  if vd_channel vdat =? zi then
    let* z := ARDFVdata_get_ndarray mm vdat in
    Ok (Some (slice z 0 (nth 1 s 0), slice z (nth 1 s 0) (nth 2 s 0)), dxr)
  else
    let* di := channel_index (r_channels rd) "Defl" in
    if vd_channel vdat =? di then
      let* d := ARDFVdata_get_ndarray mm vdat in
      Ok (zxr, Some (slice d 0 (nth 1 s 0), slice d (nth 1 s 0) (nth 2 s 0)))
    else Ok (zxr, dxr).

Fixpoint curve_vdats_loop (fuel : nat) (mm : list byte) (rd : ARDFForceMapReader)
    (pointer : Z) (zxr dxr : option (list Z * list Z))
    : res (option (list Z * list Z) * option (list Z * list Z)) :=
  match fuel with
  | O => OutOfFuel
  | S fuel' =>
      let* y := traverse_vdats_next mm pointer in
      match y with
      | None => Ok (zxr, dxr)
      | Some (vdat, pointer') =>
          let* (zxr', dxr') := curve_vdat_body mm rd vdat zxr dxr in
          curve_vdats_loop fuel' mm rd pointer' zxr' dxr'
      end
  end.

(** [for vdat in self.traverse_vdats(vset.offset + vset.size): ...] *)
Definition curve_vdats (fuel : nat) (mm : list byte) (rd : ARDFForceMapReader)
    (vset : ARDFVset) (zxr dxr : option (list Z * list Z))
    : res (option (list Z * list Z) * option (list Z * list Z)) :=
  let* pointer := traverse_vdats_start mm (vs_offset vset + vs_size vset) in
  curve_vdats_loop fuel mm rd pointer zxr dxr.

(** [return zxr, dxr] / [yield ..., (zxr, dxr)] *)
Definition zxr_dxr (zd : option (list Z * list Z) * option (list Z * list Z))
    : res ZDArrays :=
  match zd with
  | (None, _) => Raise (UnboundLocalError "zxr")
  | (Some _, None) => Raise (UnboundLocalError "dxr")
  | (Some zxr, Some dxr) => Ok (zd_tuple zxr dxr)
  end.

(** [a[sl]] for [sl = np.s_[::-1]] (reversed) or [sl = np.s_[:]]. *)
Definition np_s_ {A} (reversed : bool) (a : list A) : list A :=
  if reversed then rev a else a.

(** The row pointer of [get_curve] (the bisection): [Ok None] stands for the
    early return of the NaN array, [Ok (Some p)] for the pointer handed to
    [traverse_vsets]. *)
Definition get_curve_row_pointer (vtoc : ARDFVolumeTableOfContents) (r : Z)
    : res (option Z) :=
  match vtoc_lines vtoc with
  | [] => Raise IndexError
  | first :: _ =>
      let reversed := List.last (vtoc_lines vtoc) 0 <? first in
      let i := searchsorted (np_s_ reversed (vtoc_lines vtoc)) r in
      if (length (vtoc_lines vtoc) <=? i)%nat
         || negb (r =? nth i (np_s_ reversed (vtoc_lines vtoc)) 0)
      then Ok None
      else
        match np_s_ reversed (vtoc_pointers vtoc) !! i with
        | Some p => Ok (Some p)
        | None => Raise IndexError
        end
  end.

(** [for vset in self.traverse_vsets(pointer): if vset.line != r: break] *)
Fixpoint get_curve_read_line (fuel : nat) (mm : list byte) (r : Z) (pointer : Z)
    (seen : gmap (Z * Z * Z) ARDFVset) : res unit * gmap (Z * Z * Z) ARDFVset :=
  match fuel with
  | O => (OutOfFuel, seen)
  | S fuel' =>
      match traverse_vsets_next mm seen pointer with
      | (Ok (Some vset), seen') =>
          if negb (vs_line vset =? r) then (Ok tt, seen')
          else get_curve_read_line fuel' mm r (vs_next_vset_offset vset) seen'
      | (Ok None, seen') => (Ok tt, seen')
      | (Raise e, seen') => (Raise e, seen')
      | (OutOfFuel, seen') => (OutOfFuel, seen')
      end
  end.

(** [ARDFForceMapReader.get_curve]; the result comes with [_seen_vsets]
    as the call leaves it. *)
Definition get_curve (fuel : nat) (mm : list byte) (rd : ARDFForceMapReader)
    (seen : gmap (Z * Z * Z) ARDFVset) (r c : Z)
    : res ZDArrays * gmap (Z * Z * Z) ARDFVset :=
  if negb ((0 <=? r) && (r <? r_lines rd) && ((0 <=? c) && (c <? r_points rd)))
  then (Raise (ValueError_index (r_lines rd, r_points rd) (r, c)), seen)
  else
    let curve := (r, c, r_vtype rd) in
    let filled : res (option ZDArrays) * gmap (Z * Z * Z) ARDFVset :=
      match seen !! curve with
      | Some _ => (Ok None, seen)
      | None =>
          match get_curve_row_pointer (r_vtoc rd) r with
          | Ok None => (Ok (Some nan_placeholder), seen)
          | Ok (Some pointer) =>
              match get_curve_read_line fuel mm r pointer seen with
              | (Ok _, seen') => (Ok None, seen')
              | (Raise e, seen') => (Raise e, seen')
              | (OutOfFuel, seen') => (OutOfFuel, seen')
              end
          | Raise e => (Raise e, seen)
          | OutOfFuel => (OutOfFuel, seen)
          end
      end in
    match filled with
    | (Ok (Some early), seen') => (Ok early, seen')
    | (Ok None, seen') =>
        match seen' !! curve with
        | None => (Raise (KeyError_curve curve), seen')
        | Some vset =>
            (let* zd := curve_vdats fuel mm rd vset None None in zxr_dxr zd, seen')
        end
    | (Raise e, seen') => (Raise e, seen')
    | (OutOfFuel, seen') => (OutOfFuel, seen')
    end.

(** [ARDFForceMapReader.iter_curves] from a chain pointer: the items yielded,
    how the generator ended ([Ok tt] is its normal return) and
    [_seen_vsets].  [n] is the fuel of the inner loop. *)
Fixpoint iter_curves_from (n fuel : nat) (mm : list byte) (rd : ARDFForceMapReader)
    (pointer : Z) (seen : gmap (Z * Z * Z) ARDFVset)
    (zxr dxr : option (list Z * list Z))
    : list ((Z * Z) * ZDArrays) * res unit * gmap (Z * Z * Z) ARDFVset :=
  match fuel with
  | O => ([], OutOfFuel, seen)
  | S fuel' =>
      match traverse_vsets_next mm seen pointer with
      | (Ok (Some vset), seen') =>
          if negb (vs_vtype vset =? r_vtype rd)
          then iter_curves_from n fuel' mm rd (vs_next_vset_offset vset) seen' zxr dxr
          else
            match curve_vdats n mm rd vset zxr dxr with
            | Ok (zxr', dxr') =>
                match zxr_dxr (zxr', dxr') with
                | Ok zd =>
                    let '(items, st, seen'') :=
                      iter_curves_from n fuel' mm rd (vs_next_vset_offset vset) seen'
                        zxr' dxr' in
                    (((vs_line vset, vs_point vset), zd) :: items, st, seen'')
                | Raise e => ([], Raise e, seen')
                | OutOfFuel => ([], OutOfFuel, seen')
                end
            | Raise e => ([], Raise e, seen')
            | OutOfFuel => ([], OutOfFuel, seen')
            end
      | (Ok None, seen') => ([], Ok tt, seen')
      | (Raise e, seen') => ([], Raise e, seen')
      | (OutOfFuel, seen') => ([], OutOfFuel, seen')
      end
  end.

(** [ARDFForceMapReader.iter_curves] *)
Definition iter_curves (fuel : nat) (mm : list byte) (rd : ARDFForceMapReader)
    (seen : gmap (Z * Z * Z) ARDFVset)
    : list ((Z * Z) * ZDArrays) * res unit * gmap (Z * Z * Z) ARDFVset :=
  match vtoc_pointers (r_vtoc rd) with
  | [] => ([], Raise IndexError, seen)
  | pointer :: _ => iter_curves_from fuel fuel mm rd pointer seen None None
  end.

(** *** [get_all_curves] *)

(** The local variables of [get_all_curves] that outlive a turn of its first
    loop ([None]: not bound yet). *)
Record get_all_curves_locals : Type := mk_get_all_curves_locals {
  gac_minext : Z;
  gac_vdats : list ((Z * Z) * (ARDFVdata * ARDFVdata));
  gac_vset : option ARDFVset;
  gac_vdat : option ARDFVdata;
  gac_zvdat : option ARDFVdata;
  gac_dvdat : option ARDFVdata
}.

(** The inner loop [for vdat in self.traverse_vdats(...)] of
    [get_all_curves]; the loop variable [vdat] stays bound after it. *)
Fixpoint get_all_curves_vdats_loop (fuel : nat) (mm : list byte)
    (rd : ARDFForceMapReader) (pointer : Z) (vdat zvdat dvdat : option ARDFVdata)
    : res (option ARDFVdata * option ARDFVdata * option ARDFVdata) :=
  match fuel with
  | O => OutOfFuel
  | S fuel' =>
      let* y := traverse_vdats_next mm pointer in
      match y with
      | None => Ok (vdat, zvdat, dvdat)
      | Some (v, pointer') =>
          let* zi := channel_index (r_channels rd) "ZSnsr" in
          if vd_channel v =? zi
          then get_all_curves_vdats_loop fuel' mm rd pointer' (Some v) (Some v) dvdat
          else
            let* di := channel_index (r_channels rd) "Defl" in
            if vd_channel v =? di
            then get_all_curves_vdats_loop fuel' mm rd pointer' (Some v) zvdat (Some v)
            else get_all_curves_vdats_loop fuel' mm rd pointer' (Some v) zvdat dvdat
      end
  end.

(** Reading a local variable. *)
Definition local {A} (name : string) (v : option A) : res A :=
  match v with
  | Some a => Ok a
  | None => Raise (UnboundLocalError name)
  end.

(** The first loop of [get_all_curves]. *)
Fixpoint get_all_curves_collect (n fuel : nat) (mm : list byte)
    (rd : ARDFForceMapReader) (pointer : Z) (seen : gmap (Z * Z * Z) ARDFVset)
    (l : get_all_curves_locals)
    : res get_all_curves_locals * gmap (Z * Z * Z) ARDFVset :=
  match fuel with
  | O => (OutOfFuel, seen)
  | S fuel' =>
      match traverse_vsets_next mm seen pointer with
      | (Ok (Some vset), seen') =>
          if negb (vs_vtype vset =? r_vtype rd)
          then
            get_all_curves_collect n fuel' mm rd (vs_next_vset_offset vset) seen'
              (mk_get_all_curves_locals (gac_minext l) (gac_vdats l) (Some vset)
                 (gac_vdat l) (gac_zvdat l) (gac_dvdat l))
          else
            match
              (let* p := traverse_vdats_start mm (vs_offset vset + vs_size vset) in
               let* (vdat, zvdat, dvdat) :=
                 get_all_curves_vdats_loop n mm rd p (gac_vdat l) (gac_zvdat l)
                   (gac_dvdat l) in
               let* zv := local "zvdat" zvdat in
               let* dv := local "dvdat" dvdat in
               let* v := local "vdat" vdat in
               Ok (mk_get_all_curves_locals
                     (Z.min (gac_minext l) (nth 1 (vd_seg_offsets v) 0))
                     (dict_set (vs_line vset, vs_point vset) (zv, dv) (gac_vdats l))
                     (Some vset) vdat zvdat dvdat))
            with
            | Ok l' =>
                get_all_curves_collect n fuel' mm rd (vs_next_vset_offset vset) seen' l'
            | Raise e => (Raise e, seen')
            | OutOfFuel => (OutOfFuel, seen')
            end
      | (Ok None, seen') => (Ok l, seen')
      | (Raise e, seen') => (Raise e, seen')
      | (OutOfFuel, seen') => (OutOfFuel, seen')
      end
  end.

(** An index into an axis of length [n]: negative indices count from the
    end. *)
Definition np_index (n i : Z) : res Z :=
  if (- n <=? i) && (i <? n) then Ok (if i <? 0 then i + n else i)
  else Raise IndexError.

(** [x[r, c, :, :] = zs, ds] into a float32 array of shape
    [(lines, points, 2, minfloats)]: both rows need one length, which is
    [minfloats], or 1 and is then broadcast. *)
Definition np_setitem_rows (lines points minfloats : Z)
    (x : gmap (Z * Z) (list Z * list Z)) (r c : Z) (zs ds : list Z)
    : res (gmap (Z * Z) (list Z * list Z)) :=
  let* r' := np_index lines r in
  let* c' := np_index points c in
  if negb (length zs =? length ds)%nat
  then Raise (ValueError_msg "inhomogeneous shape")
  else if Z.of_nat (length zs) =? minfloats
  then Ok (<[(r', c') := (zs, ds)]> x)
  else if (length zs =? 1)%nat
  then Ok (<[(r', c') := (repeat (nth 0 zs 0) (Z.to_nat minfloats),
                           repeat (nth 0 ds 0) (Z.to_nat minfloats))]> x)
  else Raise (ValueError_msg "could not broadcast").

(** The second loop of [get_all_curves]. *)
Fixpoint get_all_curves_fill (mm : list byte) (lines points minfloats : Z)
    (items : list ((Z * Z) * (ARDFVdata * ARDFVdata)))
    (x : gmap (Z * Z) (list Z * list Z)) : res (gmap (Z * Z) (list Z * list Z)) :=
  match items with
  | [] => Ok x
  | ((r, c), (zvdat, dvdat)) :: items' =>
      let floats := nth 1 (vd_seg_offsets zvdat) 0 * 2 in
      let halfextra := (floats - minfloats) / 2 in
      let* z := ARDFVdata_get_ndarray mm zvdat in
      let* d := ARDFVdata_get_ndarray mm dvdat in
      let* x' :=
        np_setitem_rows lines points minfloats x r c
          (slice z halfextra (minfloats + halfextra))
          (slice d halfextra (minfloats + halfextra)) in
      get_all_curves_fill mm lines points minfloats items' x'
  end.

(** The float32 array that [get_all_curves] returns, of shape
    [(lines, points, 2, 2, minext)]: [cells !! (r, c)] holds
    [((x[r,c,0,0], x[r,c,0,1]), (x[r,c,1,0], x[r,c,1,1]))]; a pixel without
    an entry was never written after [np.empty]. *)
Record curves_ndarray : Type := mk_curves_ndarray {
  ca_shape : Z * Z * Z * Z * Z;
  ca_cells : gmap (Z * Z) ((list Z * list Z) * (list Z * list Z))
}.

(** [ARDFForceMapReader.get_all_curves] *)
Definition get_all_curves (fuel : nat) (mm : list byte) (rd : ARDFForceMapReader)
    (seen : gmap (Z * Z * Z) ARDFVset)
    : res curves_ndarray * gmap (Z * Z * Z) ARDFVset :=
  let minext := 0xFFFFFFFF in
  match vtoc_pointers (r_vtoc rd) with
  | [] => (Raise IndexError, seen)
  | pointer :: _ =>
      match
        get_all_curves_collect fuel fuel mm rd pointer seen
          (mk_get_all_curves_locals minext [] None None None None)
      with
      | (Ok l, seen') =>
          (let* _ := local "vset" (gac_vset l) in
           let* _ := local "vdat" (gac_vdat l) in
           let minfloats := 2 * gac_minext l in
           let* _ :=
             if (r_lines rd <? 0) || (r_points rd <? 0)
             then Raise (ValueError_msg "negative dimensions are not allowed")
             else Ok tt in
           let* x :=
             get_all_curves_fill mm (r_lines rd) (r_points rd) minfloats (gac_vdats l) ∅ in
           if r_lines rd * r_points rd =? 0
           then Raise (ValueError_msg "cannot reshape array of size 0")
           else
             let half (row : list Z) :=
               (take (Z.to_nat (gac_minext l)) row, drop (Z.to_nat (gac_minext l)) row) in
             Ok (mk_curves_ndarray
                   (r_lines rd, r_points rd, 2, 2, gac_minext l)
                   ((fun zd : list Z * list Z => (half (fst zd), half (snd zd))) <$> x)),
           seen')
      | (Raise e, seen') => (Raise e, seen')
      | (OutOfFuel, seen') => (OutOfFuel, seen')
      end
  end.

End ForceMapReader.

(** ** ARDFVolume *)

(** [attrs.frozen class ARDFVolume]; the steps are float64 values, kept as
    their 64 bits.  The reader is always the pointer-chase reader: the
    condition that selects [ARDFFFMReader] starts with [0 and]. *)
Record ARDFVolume : Type := mkARDFVolume {
  vol_volm_offset : Z;
  vol_reader : ARDFForceMapReader;
  vol_shape : Z * Z;
  vol_x_step : Z;
  vol_y_step : Z;
  vol_t_step : Z;
  vol_x_units : string;
  vol_y_units : string;
  vol_t_units : string;
  vol_xdef : ARDFXdef
}.

(** The channel loop [for i in range(5): ... else: raise RuntimeError] of
    [parse_volm]; it answers the header that ended it and the channel map. *)
Fixpoint parse_volm_channels (mm : list byte) (range : list Z) (offset : Z)
    (channels : gmap string (Z * ARDFVchan))
    : res (ARDFHeader * gmap string (Z * ARDFVchan)) :=
  match range with
  | [] => Raise (RuntimeError "Got too many channels.")
  | i :: range' =>
      let* header := ARDFHeader_unpack mm offset in
      if negb (h_name header =? "VCHN")%string then Ok (header, channels)
      else
        let* vchn := ARDFVchan_unpack mm header in
        let offset' := h_offset header + h_size header in
        let* _ := assert (vc_unit vchn =? "m")%string in
        parse_volm_channels mm range' offset' (<[vc_name vchn := (i, vchn)]> channels)
  end.

(** [struct.calcsize("<LL24sddd32s32s32s32sQ")] *)
Definition vdef_format_size : Z := 192.

(** [ARDFVolume.parse_volm] *)
Definition ARDFVolume_parse_volm (mm : list byte) (volm_header : ARDFHeader)
    : res ARDFVolume :=
  if negb (h_size volm_header =? 32) || negb (h_name volm_header =? "VOLM")%string
  then Raise (ValueError_header "Malformed volume header." volm_header)
  else
    let* volm_toc := ARDFTableOfContents_unpack mm volm_header in
    let* (nset_header, nsets) :=
      match last (toc_entries volm_toc) with
      | Some e => Ok e
      | None => Raise IndexError
      end in
    let* _ := ARDFHeader_validate mm nset_header in
    let* ttoc_header := ARDFHeader_unpack mm (toc_offset volm_toc + toc_size volm_toc) in
    let* ttoc := ARDFTextTableOfContents_unpack mm ttoc_header in
    let* vdef_header := ARDFHeader_unpack mm (ttoc_offset ttoc + ttoc_size ttoc) in
    if negb (h_name vdef_header =? "VDEF")%string
       || negb (h_size vdef_header =? vdef_format_size + 16)
    then Raise (ValueError_header "Malformed volume definition." vdef_header)
    else
      let* _ := ARDFHeader_validate mm vdef_header in
      let* bs := unpack_from vdef_format_size mm (h_offset vdef_header + 16) in
      let points := uint_at bs 0 4 in
      let lines := uint_at bs 4 4 in
      let x_step := uint_at bs 32 8 in
      let y_step := uint_at bs 40 8 in
      let t_step := uint_at bs 48 8 in
      let nseg := uint_at bs 184 8 in
      let* _ := assert (fold_right Z.add 0 (map byte_to_Z (field bs 8 24)) =? 0) in
      let complete := points * lines =? nsets in
      let* x_units := decode_cstring (field bs 56 32) in
      let* y_units := decode_cstring (field bs 88 32) in
      let* t_units := decode_cstring (field bs 120 32) in
      let* seg_names := decode_cstring (field bs 152 32) in
      let seg_names := removelast (str_split ";" seg_names) in
      let* _ := assert (nseg =? Z.of_nat (length seg_names)) in
      let* (header, channels) :=
        parse_volm_channels mm [0; 1; 2; 3; 4]
          (h_offset vdef_header + h_size vdef_header) ∅ in
      let* xdef := ARDFXdef_unpack mm header in
      let* vtoc_header := ARDFHeader_unpack mm (xd_offset xdef + xd_size xdef) in
      let* vtoc := ARDFVolumeTableOfContents_unpack mm vtoc_header in
      let* mlov_header := ARDFHeader_unpack mm (vtoc_offset vtoc + vtoc_size vtoc) in
      if negb (h_size mlov_header =? 16) || negb (h_name mlov_header =? "MLOV")%string
      then Raise (ValueError_header "Malformed volume table of contents." mlov_header)
      else
        let* _ := ARDFHeader_validate mm mlov_header in
        let* pointer0 :=
          match vtoc_pointers vtoc with
          | p :: _ => Ok p
          | [] => Raise IndexError
          end in
        let* first_vset_header := ARDFHeader_unpack mm pointer0 in
        let* first_vset := ARDFVset_unpack mm first_vset_header in
        let reader :=
          mkARDFForceMapReader vtoc lines points (vs_vtype first_vset) channels in
        Ok (mkARDFVolume (h_offset volm_header) reader (points, lines)
              x_step y_step t_step x_units y_units t_units xdef).

(** ** The cache of open paths

    [CACHED_OPEN_PATHS] maps a path to [(mm, worker, path_lock)].  The map
    object and the worker are known by their identity, the number of the
    open that made them.  Every entry has its own lock and its own watcher
    thread, which runs [eventually_evict_path]: the entry records whether
    the lock is held and since when the watcher has been blocked in
    [path_lock.acquire(timeout=10.0)].  Time is a number; a call of
    [__setstate__] takes no time and is not interleaved with a watcher, and
    a watcher that can take its lock takes it at once. *)
Record cache_entry : Type := mk_cache_entry {
  ce_mm : nat;
  ce_worker : nat;
  ce_locked : bool;
  ce_waiting_since : Z
}.

Record cache_state : Type := mk_cache_state {
  cs_now : Z;
  CACHED_OPEN_PATHS : gmap string cache_entry;
  cs_opens : nat
}.

Section ResourceCache.

(** [mmap_path_read_only(path)] followed by [ARDFWorker.parse_ardf(mm)]:
    whether they return or raise for a path. *)
Variable open_and_parse : string -> res unit.

(** [ARDFFile.__setstate__]: the [(mm, worker)] that the file object is
    attached to, and the cache after the call.  In the [else] branch
    [path_lock.release()] frees the lock; on a lock that is free it raises
    the RuntimeError that the [except] clause swallows. *)
Definition ARDFFile_setstate (path : string) (s : cache_state)
    : res (nat * nat) * cache_state :=
  match CACHED_OPEN_PATHS s !! path with
  | Some e =>
      (Ok (ce_mm e, ce_worker e),
       mk_cache_state (cs_now s)
         (<[path := mk_cache_entry (ce_mm e) (ce_worker e) false (ce_waiting_since e)]>
            (CACHED_OPEN_PATHS s))
         (cs_opens s))
  | None =>
      match open_and_parse path with
      | Ok _ =>
          (Ok (cs_opens s, cs_opens s),
           mk_cache_state (cs_now s)
             (<[path := mk_cache_entry (cs_opens s) (cs_opens s) true (cs_now s)]>
                (CACHED_OPEN_PATHS s))
             (S (cs_opens s)))
      | Raise e => (Raise e, s)
      | OutOfFuel => (OutOfFuel, s)
      end
  end.

(** The timeout of [path_lock.acquire(timeout=10.0)]. *)
Definition eviction_timeout : Z := 10.

(** [path_lock.acquire(timeout)], called by the watcher at the time [since],
    as it stands at the time [t]: a free lock is acquired, a lock that has
    been held for the whole timeout makes the call return false, and
    otherwise the call is still blocked. *)
Inductive acquire_result : Type := Acquired | TimedOut | Blocked.

Definition lock_acquire (timeout : Z) (locked : bool) (since t : Z) : acquire_result :=
  if negb locked then Acquired
  else if since + timeout <=? t then TimedOut
  else Blocked.

(** [eventually_evict_path] for one entry, run at the time [t]:
    [while path_lock.acquire(timeout=10.0): pass] holds the lock it has
    acquired and starts the next acquire; when an acquire returns false the
    loop ends and [del CACHED_OPEN_PATHS[path]] removes the entry
    ([None]). *)
Definition eventually_evict_path (t : Z) (e : cache_entry) : option cache_entry :=
  match lock_acquire eviction_timeout (ce_locked e) (ce_waiting_since e) t with
  | Acquired => Some (mk_cache_entry (ce_mm e) (ce_worker e) true t)
  | Blocked => Some e
  | TimedOut => None
  end.

(** [dt] units of time pass without a call of [__setstate__]: the watchers
    run at the start, where they take the locks that were released, and at
    the end, where the acquires that have waited for the timeout fail. *)
Definition elapse (dt : Z) (s : cache_state) : cache_state :=
  mk_cache_state (cs_now s + dt)
    (omap (eventually_evict_path (cs_now s + dt))
       (omap (eventually_evict_path (cs_now s)) (CACHED_OPEN_PATHS s)))
    (cs_opens s).

(** A caller that comes back for [path] after each of the pauses [gaps]. *)
Definition reacquire_after (path : string) (gaps : list Z) (s : cache_state)
    : cache_state :=
  fold_left (fun s dt => snd (ARDFFile_setstate path (elapse dt s))) gaps s.

End ResourceCache.

(** The cache of a process that has opened nothing yet. *)
Definition empty_cache : cache_state := mk_cache_state 0 ∅ 0.

(** Every cached map object was opened before: its number is below the
    count of opens.  The empty cache has the property, and [__setstate__]
    and the passing of time keep it. *)
Definition cache_opened_before (s : cache_state) : Prop :=
  forall path e, CACHED_OPEN_PATHS s !! path = Some e -> (ce_mm e < cs_opens s)%nat.

(** ** float32 multiplication by 1e9

    [x * NANOMETER_UNIT_CONVERSION] for a float32 [x], on its bits: numpy
    multiplies in float32 (1e9 is a float32 value) and rounds to nearest,
    ties to even.  The statements below hold for any conversion of the
    samples; this one is what the examples run. *)
Definition float32_times_1e9 (bits : Z) : Z :=
  let sign := Z.land bits 0x80000000 in
  let e := Z.land (Z.shiftr bits 23) 0xFF in
  let m := Z.land bits 0x7FFFFF in
  if e =? 255 then
    if m =? 0 then bits (* infinity *) else Z.lor bits 0x400000 (* quiet NaN *)
  else if (e =? 0) && (m =? 0) then bits (* zero *)
  else
    (* the product is exactly [M * 2 ^ E] *)
    let M := (if e =? 0 then m else m + 0x800000) * 1000000000 in
    let E := Z.max e 1 - 150 in
    (* keep 24 bits of [M] *)
    let s := Z.log2 M + 1 - 24 in
    let q := Z.shiftr M s in
    let rest := M - Z.shiftl q s in
    let half := Z.shiftl 1 (s - 1) in
    let q := if (half <? rest) || ((half =? rest) && Z.odd q) then q + 1 else q in
    let '(q, s) := if q =? 0x1000000 then (0x800000, s + 1) else (q, s) in
    let e' := E + s + 150 in
    if 255 <=? e' then Z.lor sign 0x7F800000 (* overflow to infinity *)
    else Z.lor sign (Z.lor (Z.shiftl e' 23) (q - 0x800000)).

(** ** Building ARDF bytes

    Writers for the chunks that the readers above decode; the example
    volumes of this file are built with them. *)

Definition byte_of_Z (z : Z) : byte :=
  match Byte.of_N (Z.to_N (z mod 256)) with
  | Some b => b
  | None => x00
  end.

Fixpoint le_bytes (n : nat) (v : Z) : list byte :=
  match n with
  | O => []
  | S n' => byte_of_Z v :: le_bytes n' (v / 256)
  end.

(** A C string in a field of [n] bytes. *)
Definition cstring_field (n : nat) (s : string) : list byte :=
  take n (list_byte_of_string s ++ repeat x00 n).

(** The checksum over the [size - 4] bytes behind it, in front of them. *)
Definition with_crc (size : Z) (rest : list byte) : list byte :=
  le_bytes 4 (zlib_crc32 (take (Z.to_nat (size - 4)) rest)) ++ rest.

(** A chunk: header with checksum over [size] bytes, then [body]. *)
Definition chunk (name : string) (size : Z) (body : list byte) : list byte :=
  with_crc size (le_bytes 4 size ++ list_byte_of_string name ++ le_bytes 4 0 ++ body).

Definition toc_chunk (name : string) (stride : Z) (entries : list (list byte))
    : list byte :=
  chunk name 32
    (le_bytes 8 (32 + stride * Z.of_nat (length entries))
     ++ le_bytes 4 (Z.of_nat (length entries)) ++ le_bytes 4 stride
     ++ concat entries).

Definition vset_chunk (line point vtype next : Z) : list byte :=
  chunk "VSET" 48
    (le_bytes 4 0 ++ le_bytes 4 line ++ le_bytes 4 point ++ le_bytes 4 vtype
     ++ le_bytes 8 0 ++ le_bytes 8 next).

Definition vdat_chunk (line point channel : Z) (segs floats : list Z) : list byte :=
  chunk "VDAT" (56 + 4 * Z.of_nat (length floats))
    (le_bytes 4 0 ++ le_bytes 4 line ++ le_bytes 4 point
     ++ le_bytes 4 (Z.of_nat (length floats)) ++ le_bytes 4 channel
     ++ flat_map (le_bytes 4) segs ++ flat_map (le_bytes 4) floats).

(** One pixel at [offset]: its VSET, a VNAM and one VDAT per channel
    [(channel, seg_offsets, samples)]. *)
Definition pixel_chunks (offset line point vtype : Z)
    (vdats : list (Z * list Z * list Z)) : list byte :=
  let body :=
    chunk "VNAM" 16 []
    ++ flat_map (fun '(channel, segs, floats) => vdat_chunk line point channel segs floats)
         vdats in
  vset_chunk line point vtype (offset + 48 + Z.of_nat (length body)) ++ body.

(** The chain of the pixels [(line, point, vtype, vdats)] from [offset], closed
    by a chunk that is no VSET. *)
Fixpoint vset_chain_chunks (offset : Z)
    (pixels : list (Z * Z * Z * list (Z * list Z * list Z))) : list byte :=
  match pixels with
  | [] => chunk "MLOV" 16 []
  | (line, point, vtype, vdats) :: pixels' =>
      let b := pixel_chunks offset line point vtype vdats in
      b ++ vset_chain_chunks (offset + Z.of_nat (length b)) pixels'
  end.

(** ** Example volumes *)

(** The header at an offset of a map that holds one there. *)
Definition header_at (mm : list byte) (offset : Z) : ARDFHeader :=
  match ARDFHeader_unpack mm offset with
  | Ok h => h
  | _ => mkARDFHeader 0 0 0 EmptyString 0
  end.

(** The 16-byte file header chunk of an ARDF file, and its header record. *)
Definition ardf_file_header_bytes : list byte := chunk "ARDF" 16 [].

Definition ardf_file_header : ARDFHeader :=
  Eval vm_compute in header_at ardf_file_header_bytes 0.

(** A table-of-contents chunk that declares 2 entries of 24 bytes in a
    total size of 56 bytes (they need 80), followed by one entry. *)
Definition bad_toc_bytes : list byte :=
  chunk "FTOC" 32 (le_bytes 8 56 ++ le_bytes 4 2 ++ le_bytes 4 24)
  ++ with_crc 24 (le_bytes 4 24 ++ list_byte_of_string "NSET" ++ le_bytes 4 0
                  ++ le_bytes 8 1).

Definition bad_toc_header : ARDFHeader :=
  Eval vm_compute in header_at bad_toc_bytes 0.

Definition toc_entry (name : string) (pointer : Z) : list byte :=
  with_crc 24 (le_bytes 4 24 ++ list_byte_of_string name ++ le_bytes 4 0
               ++ le_bytes 8 pointer).

Definition vtoc_entry (line point pointer : Z) : list byte :=
  with_crc 40 (le_bytes 4 40 ++ list_byte_of_string "VOFF" ++ le_bytes 4 0
               ++ le_bytes 4 0 ++ le_bytes 4 line ++ le_bytes 8 point
               ++ le_bytes 8 pointer).

Definition vdef_chunk (points lines : Z) : list byte :=
  chunk "VDEF" 208
    (le_bytes 4 points ++ le_bytes 4 lines ++ repeat x00 24
     ++ le_bytes 8 0x3E45798EE2308C3A ++ le_bytes 8 0x3E45798EE2308C3A
     ++ le_bytes 8 0x3EB0C6F7A0B5ED8D
     ++ cstring_field 32 "m" ++ cstring_field 32 "m" ++ cstring_field 32 "s"
     ++ cstring_field 32 "Ext;Ret;" ++ le_bytes 8 2).

Definition vchn_chunk (name : string) : list byte :=
  chunk "VCHN" 80 (cstring_field 32 name ++ cstring_field 32 "m").

Definition xdef_chunk : list byte :=
  chunk "XDEF" 96 (le_bytes 4 0 ++ le_bytes 4 8 ++ cstring_field 72 "Ext;Ret;").

(** Four samples per channel, split into extend and retract halves. *)
Definition example_segs : list Z := [0; 2; 4; 0; 0].

(** The pixel (line, point) of an example volume: channel 0 ("Raw"),
    1 ("Defl") and 2 ("ZSnsr"), each with samples of its own. *)
Definition example_pixel (line point : Z) : Z * Z * Z * list (Z * list Z * list Z) :=
  let base := 4096 * line + 256 * point in
  (line, point, 2,
   [(0, example_segs, [base + 1; base + 2; base + 3; base + 4]);
    (1, example_segs, [base + 17; base + 18; base + 19; base + 20]);
    (2, example_segs, [base + 33; base + 34; base + 35; base + 36])]).

(** Bytes of an example pixel. *)
Definition example_pixel_size : Z := 280.

(** A VOLM chunk tree at offset 0: the volume table lists the rows [rows]
    (line, index of the row's first pixel in [pixels]); the chain holds
    [pixels] in this order. *)
Definition volume_bytes (points lines : Z) (rows : list (Z * Z)) (pixels : list (Z * Z))
    : list byte :=
  let chain_offset := 680 + 40 * Z.of_nat (length rows) in
  toc_chunk "VOLM" 24 [toc_entry "NSET" (Z.of_nat (length pixels))]
  ++ toc_chunk "TTOC" 32 []
  ++ vdef_chunk points lines
  ++ vchn_chunk "Raw" ++ vchn_chunk "Defl" ++ vchn_chunk "ZSnsr"
  ++ xdef_chunk
  ++ toc_chunk "VTOC" 40
       (map (fun '(line, k) => vtoc_entry line 0 (chain_offset + example_pixel_size * k))
          rows)
  ++ chunk "MLOV" 16 []
  ++ vset_chain_chunks chain_offset (map (fun '(l, p) => example_pixel l p) pixels).

Definition no_reader : ARDFForceMapReader :=
  mkARDFForceMapReader (mkARDFVolumeTableOfContents 0 0 [] [] []) 0 0 0 ∅.

Definition reader_of (mm : list byte) : ARDFForceMapReader :=
  match ARDFVolume_parse_volm mm (header_at mm 0) with
  | Ok v => vol_reader v
  | _ => no_reader
  end.

(** A complete volume of 2 lines and 3 points. *)
Definition example_volume : list byte :=
  Eval vm_compute in
    volume_bytes 3 2 [(0, 0); (1, 3)] [(0, 0); (0, 1); (0, 2); (1, 0); (1, 1); (1, 2)].

Definition example_volm_header : ARDFHeader :=
  Eval vm_compute in header_at example_volume 0.

Definition example_reader : ARDFForceMapReader :=
  Eval vm_compute in reader_of example_volume.

(** A volume table of contents with one row whose own header carries a
    wrong checksum (the entry is intact). *)
Definition bad_crc_vtoc_bytes : list byte :=
  Eval vm_compute in
    le_bytes 4 0xDEADBEEF ++ drop 4 (toc_chunk "VTOC" 40 [vtoc_entry 0 0 760]).

Definition bad_crc_vtoc_header : ARDFHeader :=
  Eval vm_compute in header_at bad_crc_vtoc_bytes 0.

(** A volume of 3 lines of 1 point whose volume table lists the lines 0
    and 2 only; the chain holds all three pixels. *)
Definition unlisted_row_volume : list byte :=
  Eval vm_compute in volume_bytes 1 3 [(0, 0); (2, 2)] [(0, 0); (1, 0); (2, 0)].

Definition unlisted_row_reader : ARDFForceMapReader :=
  Eval vm_compute in reader_of unlisted_row_volume.

(** A volume of 2 lines of 3 points from which the pixel (0, 1) is missing. *)
Definition missing_point_volume : list byte :=
  Eval vm_compute in
    volume_bytes 3 2 [(0, 0); (1, 2)] [(0, 0); (0, 2); (1, 0); (1, 1); (1, 2)].

Definition missing_point_reader : ARDFForceMapReader :=
  Eval vm_compute in reader_of missing_point_volume.

(** The nodes of a chain, read from the bytes with [traverse_vsets]. *)
Fixpoint vsets_from (fuel : nat) (mm : list byte) (pointer : Z) : list ARDFVset :=
  match fuel with
  | O => []
  | S fuel' =>
      match fst (traverse_vsets_next mm ∅ pointer) with
      | Ok (Some v) => v :: vsets_from fuel' mm (vs_next_vset_offset v)
      | _ => []
      end
  end.


Definition missing_point_chain : list ARDFVset :=
  Eval vm_compute in vsets_from 10 missing_point_volume 760.

(** ** Predicates of the statements *)

(** The values of the CRC register: 32 bits. *)
Definition crc32_register (c : Z) : Prop := 0 <= c < 2 ^ 32.

(** Two maps with the same first [n] bytes. *)
Definition same_prefix (n : Z) (mm mm' : list byte) : Prop :=
  take (Z.to_nat n) mm' = take (Z.to_nat n) mm.

(** The declared triple is the one of a table with entries of [stride0]
    bytes. *)
Definition consistent_triple (stride0 : Z) (t : Z * Z * Z) : Prop :=
  let '(size, nentries, stride) := t in
  stride = stride0 /\ nentries * stride + 32 = size.

Definition ascending (a : list Z) : Prop :=
  forall i j : nat, (i <= j < length a)%nat -> nth i a 0 <= nth j a 0.

(** The line column is monotonic, ascending or descending. *)
Definition monotonic (a : list Z) : Prop := ascending a \/ ascending (rev a).

(** The key of a node in [_seen_vsets]. *)
Definition vset_index (v : ARDFVset) : Z * Z * Z :=
  (vs_line v, vs_point v, vs_vtype v).

(** What [traverse_vsets] finds at a pointer: [Ok (Some vset)] for a node,
    [Ok None] where the chain ends. *)
Definition vset_at (mm : list byte) (pointer : Z) : res (option ARDFVset) :=
  fst (traverse_vsets_next mm ∅ pointer).

(** [_seen_vsets] once [traverse_vsets] has yielded [vset], and once it has
    yielded the nodes [vs] in this order. *)
Definition see (vset : ARDFVset) (seen : gmap (Z * Z * Z) ARDFVset)
    : gmap (Z * Z * Z) ARDFVset :=
  match seen !! vset_index vset with
  | Some _ => seen
  | None => <[vset_index vset := vset]> seen
  end.

Definition seen_after (vs : list ARDFVset) (seen : gmap (Z * Z * Z) ARDFVset)
    : gmap (Z * Z * Z) ARDFVset :=
  fold_left (fun s v => see v s) vs seen.


(** The nodes [vs] are those that [get_curve] visits when it reads the line
    [r] from [pointer]: nodes of the line, up to the end of the chain or up
    to and with the first node of another line. *)
Fixpoint line_walk (mm : list byte) (r : Z) (pointer : Z) (vs : list ARDFVset) : Prop :=
  match vs with
  | [] => vset_at mm pointer = Ok None
  | v :: vs' =>
      vset_at mm pointer = Ok (Some v)
      /\ if vs_line v =? r then line_walk mm r (vs_next_vset_offset v) vs'
         else vs' = []
  end.

(** Every entry of the cache is a node of the chain under its own key. *)
Definition seen_consistent (chain : list ARDFVset) (seen : gmap (Z * Z * Z) ARDFVset)
    : Prop :=
  forall k v, seen !! k = Some v -> In v chain /\ vset_index v = k.




(** The uniform trimming of [get_all_curves], applied to a curve that
    [get_curve] returned: of every extend part the last [minext] samples, of
    every retract part the first [minext] samples. *)
Definition trim_curve (minext : Z) (zd : ZDArrays)
    : option ((list Z * list Z) * (list Z * list Z)) :=
  match zd with
  | zd_tuple (zx, zr) (dx, dr) =>
      let last_of (a : list Z) := drop (length a - Z.to_nat minext) a in
      let first_of (a : list Z) := take (Z.to_nat minext) a in
      Some ((last_of zx, first_of zr), (last_of dx, first_of dr))
  | zd_ndarray _ => None
  end.

(** * The rest of the ARDF reader: notes, images and the file *)

(** ** ARDFTextTableOfContents.decode_entry *)

(** [l[i]] for a Python list: a negative index counts from the end. *)
Definition list_getitem {A} (l : list A) (i : Z) : res A :=
  let* i' := np_index (Z.of_nat (length l)) i in
  match l !! Z.to_nat i' with
  | Some a => Ok a
  | None => Raise IndexError
  end.

(** [bytes.replace(b"\r", b"\n")] *)
Definition replace_cr_lf (bs : list byte) : list byte :=
  map (fun b => if Byte.eqb b x0d then x0a else b) bs.

(** [ARDFTextTableOfContents.decode_entry]
    ([struct.unpack_from("<LL4sLLL", self.data, pointer)]).
    [self.data.seek(offset); self.data.read(text_len)] is the slice of the
    map from [offset], cut at the end of the map; the seek cannot fail after
    the 24 bytes before that position were unpacked. *)
Definition ARDFTextTableOfContents_decode_entry (mm : list byte)
    (self : ARDFTextTableOfContents) (index : Z) : res string :=
  let* (entry_header, pointer) := list_getitem (ttoc_entries self) index in
  let* bs := unpack_from 24 mm pointer in
  let i := uint_at bs 16 4 in
  let text_len := uint_at bs 20 4 in
  let text_header :=
    mkARDFHeader pointer (uint_at bs 0 4) (uint_at bs 4 4) (bytes_at bs 8 4)
      (uint_at bs 12 4) in
  if negb (h_name text_header =? "TEXT")%string
  then Raise (ValueError_header "Malformed text section." text_header)
  else
    let* _ := ARDFHeader_validate mm text_header in
    let* _ := assert (i =? index) in
    let offset := h_offset text_header + 24 in
    let* _ := assert (text_len <? h_size text_header - 24) in
    let text := slice mm offset (offset + text_len) in
    decode_windows_1252 (replace_cr_lf text).

(** ** parse_AR_note *)

(** [sub in s] for strings. *)
Fixpoint str_contains (sub s : string) : bool :=
  String.prefix sub s
  || match s with
     | EmptyString => false
     | String _ s' => str_contains sub s'
     end.

(** [s.split(sep, 1)] for a one-character separator: the parts around the
    first separator, or [s] alone. *)
Fixpoint str_split1 (sep : ascii) (s : string) : list string :=
  match s with
  | EmptyString => [EmptyString]
  | String c s' =>
      if Ascii.eqb c sep then [EmptyString; s']
      else
        match str_split1 sep s' with
        | [] => [String c EmptyString]
        | w :: ws => String c w :: ws
        end
  end.

(** [dict(pairs)] for an iterable of lists of strings: every element needs
    exactly two items, and a key that comes again takes the later value. *)
Fixpoint py_dict (pairs : list (list string)) (d : gmap string string)
    : res (gmap string string) :=
  match pairs with
  | [] => Ok d
  | [k; v] :: pairs' => py_dict pairs' (<[k := v]> d)
  | _ :: _ => Raise (ValueError_msg "dictionary update sequence element has the wrong length")
  end.

(** The lines that [parse_AR_note] keeps. *)
Definition note_line_kept (line : string) : bool :=
  str_contains ":" line && negb (str_contains "@Line:" line).

(** [parse_AR_note] *)
Definition parse_AR_note (note : string) : res (gmap string string) :=
  py_dict
    (map (str_split1 ":") (filter (fun line => note_line_kept line = true)
                             (str_split (ascii_of_byte x0a) note)))
    ∅.

(** ** ARDFImage *)

(** [attrs.frozen class ARDFImage]; the steps are float64 values, kept as
    their 64 bits. *)
Record ARDFImage : Type := mkARDFImage {
  img_ibox_offset : Z;
  img_name : string;
  img_units : string;
  img_x_step : Z;
  img_y_step : Z;
  img_x_units : string;
  img_y_units : string
}.

(** [struct.calcsize("<LLQQdd32s32s32s32s")] *)
Definition idef_format_size : Z := 168.

(** [ARDFImage.parse_imag] *)
Definition ARDFImage_parse_imag (mm : list byte) (imag_header : ARDFHeader)
    : res ARDFImage :=
  if negb (h_name imag_header =? "IMAG")%string
  then Raise (ValueError_header "Malformed image header." imag_header)
  else
    let* imag_toc := ARDFTableOfContents_unpack mm imag_header in
    let* ttoc_header := ARDFHeader_unpack mm (toc_offset imag_toc + toc_size imag_toc) in
    let* ttoc := ARDFTextTableOfContents_unpack mm ttoc_header in
    let* idef_header := ARDFHeader_unpack mm (ttoc_offset ttoc + ttoc_size ttoc) in
    if negb (h_name idef_header =? "IDEF")%string
       || negb (h_size idef_header =? idef_format_size + 16)
    then Raise (ValueError_header "Malformed image definition." idef_header)
    else
      let* _ := ARDFHeader_validate mm idef_header in
      let* bs := unpack_from idef_format_size mm (h_offset idef_header + 16) in
      let x_step := uint_at bs 24 8 in
      let y_step := uint_at bs 32 8 in
      let* _ := assert (negb ((negb (uint_at bs 8 8 =? 0)) || (negb (uint_at bs 16 8 =? 0)))) in
      let* x_units := decode_cstring (field bs 40 32) in
      let* y_units := decode_cstring (field bs 72 32) in
      let* name := decode_cstring (field bs 104 32) in
      let* units := decode_cstring (field bs 136 32) in
      Ok (mkARDFImage (h_offset idef_header + h_size idef_header) name units
            x_step y_step x_units y_units).



(** ** ARDFWorker *)

Record ARDFWorker : Type := mkARDFWorker {
  w_notes : gmap string string;
  w_images : gmap string ARDFImage;
  w_volumes : list ARDFVolume
}.

(** The loop [for item, pointer in ftoc.entries] of [parse_ardf]. *)
Fixpoint parse_ardf_items (mm : list byte) (entries : list (ARDFHeader * Z))
    (images : gmap string ARDFImage) (volumes : list ARDFVolume)
    : res (gmap string ARDFImage * list ARDFVolume) :=
  match entries with
  | [] => Ok (images, volumes)
  | (item, pointer) :: entries' =>
      let* _ := ARDFHeader_validate mm item in
      let* item := ARDFHeader_unpack mm pointer in
      if (h_name item =? "IMAG")%string then
        let* item := ARDFImage_parse_imag mm item in
        parse_ardf_items mm entries' (<[img_name item := item]> images) volumes
      else if (h_name item =? "VOLM")%string then
        let* volume := ARDFVolume_parse_volm mm item in
        parse_ardf_items mm entries' images (volumes ++ [volume])
      else Raise (RuntimeError ("Unknown TOC entry " ++ h_name item ++ "."))
  end.

(** [ARDFWorker.parse_ardf] *)
Definition ARDFWorker_parse_ardf (ardf_mmap : list byte) : res ARDFWorker :=
  let* file_header := ARDFHeader_unpack ardf_mmap 0 in
  if negb (h_size file_header =? 16) || negb (h_name file_header =? "ARDF")%string
  then Raise (ValueError_header "Not an ARDF file." file_header)
  else
    let* _ := ARDFHeader_validate ardf_mmap file_header in
    let* ftoc_header := ARDFHeader_unpack ardf_mmap (h_size file_header) in
    if negb (h_name ftoc_header =? "FTOC")%string
    then Raise (ValueError_header "Malformed ARDF file table of contents." ftoc_header)
    else
      let* ftoc := ARDFTableOfContents_unpack ardf_mmap ftoc_header in
      let* ttoc_header := ARDFHeader_unpack ardf_mmap (toc_offset ftoc + toc_size ftoc) in
      let* ttoc := ARDFTextTableOfContents_unpack ardf_mmap ttoc_header in
      let* _ := assert (length (ttoc_entries ttoc) =? 1)%nat in
      let* text := ARDFTextTableOfContents_decode_entry ardf_mmap ttoc 0 in
      let* notes := parse_AR_note text in
      let* (images, volumes) := parse_ardf_items ardf_mmap (toc_entries ftoc) ∅ [] in
      Ok (mkARDFWorker notes images volumes).

(** ** More example bytes *)

(** The volume table of a scan that was interrupted: three entries are
    declared, two were written and the third is still zero-filled. *)
Definition interrupted_vtoc_bytes : list byte :=
  Eval vm_compute in
    toc_chunk "VTOC" 40 [vtoc_entry 0 0 760; vtoc_entry 1 0 1040; repeat x00 40].

Definition interrupted_vtoc_header : ARDFHeader :=
  Eval vm_compute in header_at interrupted_vtoc_bytes 0.

(** ** Predicates of the further statements *)

(** [_seen_vsets] has gone from [seen] to [seen'] by additions only: every
    entry is kept as it was, and an entry that is new is a node read from
    the map, stored under the node's own key. *)
Definition cache_grows (mm : list byte) (seen seen' : gmap (Z * Z * Z) ARDFVset)
    : Prop :=
  seen ⊆ seen'
  /\ forall k v, seen' !! k = Some v ->
       seen !! k = Some v
       \/ (seen !! k = None /\ vset_index v = k
           /\ vset_at mm (vs_offset v) = Ok (Some v)).

(** ** An example ARDF file *)

Definition toff_entry (pointer : Z) : list byte :=
  with_crc 32 (le_bytes 4 32 ++ list_byte_of_string "TOFF" ++ le_bytes 4 0
               ++ le_bytes 8 0 ++ le_bytes 8 pointer).

(** A TEXT chunk: index, length and text, closed by a NUL byte. *)
Definition text_chunk (index : Z) (text : list byte) : list byte :=
  chunk "TEXT" (25 + Z.of_nat (length text))
    (le_bytes 4 index ++ le_bytes 4 (Z.of_nat (length text)) ++ text ++ [x00]).

Definition idef_chunk (points lines : Z) (name units : string) : list byte :=
  chunk "IDEF" 184
    (le_bytes 4 points ++ le_bytes 4 lines ++ le_bytes 8 0 ++ le_bytes 8 0
     ++ le_bytes 8 0x3E45798EE2308C3A ++ le_bytes 8 0x3E45798EE2308C3A
     ++ cstring_field 32 "m" ++ cstring_field 32 "m"
     ++ cstring_field 32 name ++ cstring_field 32 units).

(** An IMAG chunk tree up to its image definition (248 bytes). *)
Definition image_bytes (points lines : Z) (name units : string) : list byte :=
  toc_chunk "IMAG" 24 [] ++ toc_chunk "TTOC" 32 [] ++ idef_chunk points lines name units.

(** [volume_bytes] for a VOLM chunk tree at the offset [base]. *)
Definition volume_bytes_at (base : Z) (points lines : Z) (rows : list (Z * Z))
    (pixels : list (Z * Z)) : list byte :=
  let chain_offset := base + 680 + 40 * Z.of_nat (length rows) in
  toc_chunk "VOLM" 24 [toc_entry "NSET" (Z.of_nat (length pixels))]
  ++ toc_chunk "TTOC" 32 []
  ++ vdef_chunk points lines
  ++ vchn_chunk "Raw" ++ vchn_chunk "Defl" ++ vchn_chunk "ZSnsr"
  ++ xdef_chunk
  ++ toc_chunk "VTOC" 40
       (map (fun '(line, k) => vtoc_entry line 0 (chain_offset + example_pixel_size * k))
          rows)
  ++ chunk "MLOV" 16 []
  ++ vset_chain_chunks chain_offset (map (fun '(l, p) => example_pixel l p) pixels).

(** The note of the example file: lines closed by carriage returns, with a
    key that comes twice and a line of the kind that the parser drops. *)
Definition example_note : list byte :=
  flat_map (fun line => list_byte_of_string line ++ [x0d])
    ["SpringConstant: 0.09"; "InvOLS: 1.1e-07"; "@Line: 12"; "Comment";
     "FastScanSize:2e-05"; "SpringConstant: 0.11"]%string.

(** A file with a note, one image and one volume of 1 line and 2 points:
    the file table at 16, the text table at 96, the note at 160, the image
    at 320 and the volume at 568. *)
Definition example_ardf_file : list byte :=
  Eval vm_compute in
    chunk "ARDF" 16 []
    ++ toc_chunk "FTOC" 24 [toc_entry "IMAG" 320; toc_entry "VOLM" 568]
    ++ toc_chunk "TTOC" 32 [toff_entry 160]
    ++ take 160 (text_chunk 0 example_note ++ repeat x00 160)
    ++ image_bytes 2 1 "HeightTrace" "m"
    ++ volume_bytes_at 568 2 1 [(0, 0)] [(0, 0); (0, 1)].

(** The text table of the example file. *)
Definition example_ardf_ttoc : ARDFTextTableOfContents :=
  Eval vm_compute in
    match ARDFTextTableOfContents_unpack example_ardf_file (header_at example_ardf_file 96) with
    | Ok ttoc => ttoc
    | _ => mkARDFTextTableOfContents 0 0 []
    end.

(** The separator of the note lines, and the key of a line: what stands
    before its first colon. *)
Definition newline : ascii := ascii_of_byte x0a.

Definition note_line_key (line : string) : string :=
  hd EmptyString (str_split1 ":" line).

(** The note of the example file as [decode_entry] returns it. *)
Definition example_note_text : string :=
  Eval vm_compute in
    match ARDFTextTableOfContents_decode_entry example_ardf_file example_ardf_ttoc 0 with
    | Ok text => text
    | _ => EmptyString
    end.

(** The chunk at [pointer] carries the tag [tag]. *)
Definition points_to (mm : list byte) (tag : string) (pointer : Z) : bool :=
  match ARDFHeader_unpack mm pointer with
  | Ok h => (h_name h =? tag)%string
  | _ => false
  end.

(** * BaseForceVolumeFile: image names, units and the image cache *)

(** [s.endswith(suffix)] *)
Fixpoint endswith (s suffix : string) : bool :=
  String.eqb s suffix
  || match s with
     | EmptyString => false
     | String _ s' => endswith s' suffix
     end.

(** [s.removesuffix(suffix)]: [s[:-len(suffix)]] if [s] ends with a
    non-empty [suffix], else [s]. *)
Definition removesuffix (s suffix : string) : string :=
  if endswith s suffix && negb (String.eqb suffix EmptyString)
  then String.substring 0 (String.length s - String.length suffix) s
  else s.

(** [BaseForceVolumeFile.strip_trace] *)
Definition strip_trace (image_name : string) : string :=
  fold_left removesuffix ["trace"; "Trace"; "retrace"; "Retrace"]%string image_name.

(** [ARDFFile._basic_units_map] (the one of [ARH5File] is the same). *)
Definition ARDFFile_basic_units_map : gmap string string :=
  list_to_map
    [("Adhesion", "N"); ("Height", "m"); ("IndentationHertz", "m");
     ("YoungsHertz", "Pa"); ("YoungsJKR", "Pa"); ("YoungsDMT", "Pa");
     ("ZSensor", "m"); ("MapAdhesion", "N"); ("MapHeight", "m");
     ("Force", "N")]%string.

Section BaseForceVolumeFile.

(** The images (numpy arrays) are left abstract, and so is the abstract
    method [get_image_sync] of the subclasses. *)
Variable image : Type.
Variable get_image_sync : string -> res image.

(** The attributes of a file object that the image methods use. *)
Record BaseForceVolumeFile : Type := mkBaseForceVolumeFile {
  _units_map : gmap string string;
  _image_cache : gmap string image;
  _file_image_names : gset string
}.

(** [BaseForceVolumeFile.image_names] *)
Definition image_names (self : BaseForceVolumeFile) : gset string :=
  dom (_image_cache self) ∪ _file_image_names self.

(** [BaseForceVolumeFile.get_image_units] *)
Definition get_image_units (self : BaseForceVolumeFile) (image_name : string) : string :=
  default "V"%string (_units_map self !! strip_trace image_name).

(** [BaseForceVolumeFile.add_image] *)
Definition add_image (self : BaseForceVolumeFile) (image_name units : string)
    (im : image) : BaseForceVolumeFile :=
  mkBaseForceVolumeFile
    (<[strip_trace image_name := units]> (_units_map self))
    (<[image_name := im]> (_image_cache self))
    (_file_image_names self).

(** [BaseForceVolumeFile.get_image]: the image and the file object after the
    call. *)
Definition get_image (self : BaseForceVolumeFile) (image_name : string)
    : res image * BaseForceVolumeFile :=
  match _image_cache self !! image_name with
  | Some im => (Ok im, self)
  | None =>
      match get_image_sync image_name with
      | Ok im =>
          (Ok im,
           mkBaseForceVolumeFile (_units_map self)
             (<[image_name := im]> (_image_cache self)) (_file_image_names self))
      | Raise e => (Raise e, self)
      | OutOfFuel => (OutOfFuel, self)
      end
  end.

End BaseForceVolumeFile.

(** * Bruker (Nanoscope) files *)

(** ** Text decoded from windows-1252

    A decoded string is kept as its bytes ([decode_windows_1252]).  Where
    Python looks at the characters themselves, the byte is turned into its
    code point: the bytes from 128 to 159 are the ones that the codec moves
    out of Latin-1. *)
Definition cp1252_code_point (c : ascii) : Z :=
  let b := Z.of_N (N_of_ascii c) in
  if (128 <=? b) && (b <? 160) then
    nth (Z.to_nat (b - 128))
      [0x20AC; 0x81; 0x201A; 0x0192; 0x201E; 0x2026; 0x2020; 0x2021;
       0x02C6; 0x2030; 0x0160; 0x2039; 0x0152; 0x8D; 0x017D; 0x8F;
       0x90; 0x2018; 0x2019; 0x201C; 0x201D; 0x2022; 0x2013; 0x2014;
       0x02DC; 0x2122; 0x0161; 0x203A; 0x0153; 0x9D; 0x017E; 0x0178]
      b
  else b.

(** [a > b] for strings: the order of the code points, the longer string
    being greater than its prefix. *)
Fixpoint str_gt (a b : string) : bool :=
  match a, b with
  | EmptyString, _ => false
  | String _ _, EmptyString => true
  | String x a', String y b' =>
      if cp1252_code_point x =? cp1252_code_point y then str_gt a' b'
      else cp1252_code_point y <? cp1252_code_point x
  end.

Section BrukerBpp.

(** [int(bpp)] is the interpreter's own and is left abstract. *)
Variable py_int : string -> res Z.

(** [bruker_bpp_fix] *)
Definition bruker_bpp_fix (bpp version : string) : res Z :=
  if str_gt version "0x09200000" then Ok 4 else py_int bpp.

End BrukerBpp.

(** A version number written as [0x] and hexadecimal digits, most
    significant first, in capitals or in small letters. *)
Definition hex_char (upper : bool) (d : Z) : ascii :=
  if d <? 10 then ascii_of_N (Z.to_N (48 + d))
  else ascii_of_N (Z.to_N ((if upper then 55 else 87) + d)).

Fixpoint hex_string (upper : bool) (digits : list Z) : string :=
  match digits with
  | [] => EmptyString
  | d :: digits' => String (hex_char upper d) (hex_string upper digits')
  end.

Fixpoint hex_value (digits : list Z) : Z :=
  match digits with
  | [] => 0
  | d :: digits' => d * 16 ^ Z.of_nat (length digits') + hex_value digits'
  end.

(** ** [str] methods on header text

    The header of a Nanoscope file is decoded from windows-1252
    ([NanoscopeFile.ainitialize]); the character classes below are those of
    Python for the characters of that code page. *)

(** [c.isspace()] *)
Definition py_isspace (c : ascii) : bool :=
  let b := Z.of_N (N_of_ascii c) in
  ((9 <=? b) && (b <=? 13)) || ((28 <=? b) && (b <=? 32)) || (b =? 160).

(** [c.isdigit()]: the ten digits and the superscripts one, two, three. *)
Definition py_isdigit (c : ascii) : bool :=
  let b := Z.of_N (N_of_ascii c) in
  ((48 <=? b) && (b <=? 57)) || (b =? 178) || (b =? 179) || (b =? 185).

(** [s.lstrip()], [s.rstrip()] and [s.strip()] *)
Fixpoint str_lstrip (s : string) : string :=
  match s with
  | EmptyString => EmptyString
  | String c s' => if py_isspace c then str_lstrip s' else s
  end.

Fixpoint str_rstrip (s : string) : string :=
  match s with
  | EmptyString => EmptyString
  | String c s' =>
      match str_rstrip s' with
      | EmptyString => if py_isspace c then EmptyString else String c EmptyString
      | r => String c r
      end
  end.

Definition str_strip (s : string) : string := str_rstrip (str_lstrip s).

(** [s.startswith(prefix)] and [s[1:]] *)
Definition startswith (s prefix : string) : bool := String.prefix prefix s.

Definition str_tail (s : string) : string :=
  match s with
  | EmptyString => EmptyString
  | String _ s' => s'
  end.

(** [d[k]] and [k in d] for a dict kept as the list of its items. *)
Fixpoint dict_get {K V} `{EqDecision K} (k : K) (d : list (K * V)) : option V :=
  match d with
  | [] => None
  | (k', v) :: d' => if decide (k = k') then Some v else dict_get k d'
  end.

(** ** parse_nanoscope_header *)

(** The exceptions of [exn], and AttributeError. *)
Inductive py_exn : Type :=
| Known (e : exn)
| AttributeError (msg : string).

Inductive hres (A : Type) : Type :=
| HOk (a : A)
| HRaise (e : py_exn).
Arguments HOk {A} a.
Arguments HRaise {A} e.

Definition hbind {A B} (m : hres A) (k : A -> hres B) : hres B :=
  match m with
  | HOk a => k a
  | HRaise e => HRaise e
  end.

(** The dicts that the parser creates are objects with an identity: a
    section is stored in [header] and stays reachable as [current_section],
    through which it is filled.  The objects are numbered in the order of
    their creation; [header] holds, under a section name, the number of one
    section, or a list of numbers (a section name that came again), or,
    under [Image] and [FV], a dict from data names to section numbers. *)
Definition section : Type := list (string * string).

Inductive header_item : Type :=
| item_section (id : nat)
| item_list (ids : list nat)
| item_names (names : list (string * nat)).

Record header_state : Type := mk_header_state {
  hs_header : list (string * header_item);
  hs_objects : list section;
  hs_current : option nat (* [None]: [current_section] is not bound *)
}.

Definition not_enough_values : py_exn :=
  Known (ValueError_msg "not enough values to unpack (expected 2, got 1)").

(** [key, value = line.split(":", maxsplit=1)] *)
Definition split_key_value (line : string) : hres (string * string) :=
  match str_split1 ":" line with
  | [key; value] => HOk (key, value)
  | _ => HRaise not_enough_values
  end.

(** One turn of [for line in header_lines]: [HOk None] is the [break]. *)
Definition header_line (st : header_state) (line : string)
    : hres (option header_state) :=
  if negb (startswith line "\") then HRaise (Known AssertionError)
  else
    let line := str_strip (str_tail line) in
    if startswith line "*" then
      (* we're starting a new section *)
      let section_name := str_tail line in
      if (section_name =? "File list end")%string then HOk None
      else
        let new := length (hs_objects st) in
        match dict_get section_name (hs_header st) with
        | Some item =>
            (* repeat section name, which we interpret as a list of sections *)
            match hs_current st with
            | None => HRaise (Known (UnboundLocalError "current_section"))
            | Some current =>
                let item :=
                  match item with
                  | item_section id =>
                      if Nat.eqb id current then item_list [current] else item
                  | _ => item
                  end in
                match item with
                | item_list ids =>
                    HOk (Some (mk_header_state
                                 (dict_set section_name (item_list (ids ++ [new]))
                                    (hs_header st))
                                 (hs_objects st ++ [[]]) (Some new)))
                | _ => HRaise (AttributeError "'dict' object has no attribute 'append'")
                end
            end
        | None =>
            HOk (Some (mk_header_state
                         (dict_set section_name (item_section new) (hs_header st))
                         (hs_objects st ++ [[]]) (Some new)))
        end
    else
      (* add key, value pairs for this section *)
      hbind (split_key_value line) (fun '(key, value) =>
      hbind
        (* Colon special case for "groups" *)
        (if startswith key "@" then
           match key with
           | String _ (String c _) =>
               if py_isdigit c && (String.length key =? 2)%nat then
                 hbind (split_key_value value) (fun '(key2, value) =>
                 HOk ((key ++ ":" ++ key2)%string, value))
               else HOk (key, value)
           | _ => HRaise (Known IndexError)
           end
         else HOk (key, value)) (fun '(key, value) =>
      match hs_current st with
      | None => HRaise (Known (UnboundLocalError "current_section"))
      | Some current =>
          HOk (Some (mk_header_state (hs_header st)
                       (alter (dict_set key (str_strip value)) current (hs_objects st))
                       (Some current)))
      end)).

(** The loop [for line in header_lines: ... else: raise ValueError]. *)
Fixpoint header_loop (header_lines : list string) (st : header_state)
    : hres header_state :=
  match header_lines with
  | [] => HRaise (Known (ValueError_msg "File ended too soon"))
  | line :: rest =>
      match header_line st line with
      | HOk None => HOk st
      | HOk (Some st') => header_loop rest st'
      | HRaise e => HRaise e
      end
  end.

(** [value.split(q)[1]] for the double quote [q]: the text between the
    first two double quotes. *)
Definition quoted_name (value : string) : hres string :=
  match str_split (ascii_of_byte x22) value with
  | _ :: name :: _ => HOk name
  | _ => HRaise (Known IndexError)
  end.

(** [section[key]] for the section object [id]. *)
Definition section_get (objects : list section) (id : nat) (key : string) : hres string :=
  match dict_get key (default [] (objects !! id)) with
  | Some value => HOk value
  | None => HRaise (Known (KeyError_name key))
  end.

(** The loop [for entry in header[list_name]] that fills [header[target]]
    for a list of sections. *)
Fixpoint link_entries (objects : list section) (data_key : string) (ids : list nat)
    (names : list (string * nat)) : hres (list (string * nat)) :=
  match ids with
  | [] => HOk names
  | id :: ids' =>
      hbind (section_get objects id data_key) (fun value =>
      hbind (quoted_name value) (fun name =>
      link_entries objects data_key ids' (dict_set name id names)))
  end.

(** [header[target] = {}] and the loop over [header[list_name]]: an entry
    of a dict is one of its keys, a [str], and stands for a file with a
    single image. *)
Definition link_names (list_name data_key target : string)
    (header : list (string * header_item)) (objects : list section)
    : hres (list (string * header_item)) :=
  let header := dict_set target (item_names []) header in
  match dict_get list_name header with
  | None => HRaise (Known (KeyError_name list_name))
  | Some (item_section id) =>
      match default [] (objects !! id) with
      | [] => HOk header
      | _ :: _ =>
          hbind (section_get objects id data_key) (fun value =>
          hbind (quoted_name value) (fun name =>
          HOk (dict_set target (item_names [(name, id)]) header)))
      end
  | Some (item_list ids) =>
      hbind (link_entries objects data_key ids []) (fun names =>
      HOk (dict_set target (item_names names) header))
  | Some (item_names []) => HOk header
  | Some (item_names (_ :: _)) =>
      match dict_get data_key (match dict_get list_name header with
                               | Some (item_names names) => names
                               | _ => []
                               end) with
      | None => HRaise (Known (KeyError_name data_key))
      | Some _ => HRaise (AttributeError "'dict' object has no attribute 'split'")
      end
  end.

(** [parse_nanoscope_header]: the nested dict [header] and the section
    objects that it refers to. *)
Definition parse_nanoscope_header (header_lines : list string)
    : hres (list (string * header_item) * list section) :=
  hbind (header_loop header_lines (mk_header_state [] [] None)) (fun st =>
  let header := hs_header st in
  if (match header with [] => true | _ => false end)
     || (match dict_get EmptyString header with Some _ => true | None => false end)
  then HRaise (Known (ValueError_msg "File is empty or not a Bruker data file"))
  else
    (* link headers from [section][index][key] to [Image/FV][Image Data name][key] *)
    hbind (link_names "Ciao image list" "@2:Image Data" "Image" header (hs_objects st))
      (fun header =>
    hbind (link_names "Ciao force image list" "@4:Image Data" "FV" header (hs_objects st))
      (fun header =>
    HOk (header, hs_objects st)))).

(** ** An example header *)

(** A line of a header: a backslash, the text, a carriage return (the
    lines are cut at line feeds). *)
Definition header_text_line (text : string) : string :=
  ("\" ++ text ++ String (ascii_of_byte x0d) EmptyString)%string.

Definition image_data_line (group name : string) : string :=
  let q := String (ascii_of_byte x22) EmptyString in
  header_text_line ("@" ++ group ++ ":Image Data: S [" ++ name ++ "] " ++ q ++ name ++ q).

(** A header with two images and one force image. *)
Definition example_header_lines : list string :=
  [header_text_line "*Force file list";
   header_text_line "Version: 0x09300201";
   header_text_line "*Ciao scan list";
   header_text_line "Samps/line: 128";
   header_text_line "@Sens. ZsensSens: V 1.0 nm/V";
   header_text_line "*Ciao image list";
   image_data_line "2" "Height Sensor";
   header_text_line "Data offset: 40960";
   header_text_line "*Ciao image list";
   image_data_line "2" "Adhesion";
   header_text_line "Data offset: 73728";
   header_text_line "*Ciao force image list";
   image_data_line "4" "Deflection Error";
   header_text_line "*File list end";
   "this line is never read"%string].

(** The line that ends the header: a backslash and, spaces aside,
    [*File list end]. *)
Definition is_end_marker (line : string) : bool :=
  startswith line "\" && (str_strip (str_tail line) =? "*File list end")%string.

(** [header[key]] is a dict of names, and what it holds. *)
Definition header_names (header : list (string * header_item)) (key : string)
    : option (list (string * nat)) :=
  match dict_get key header with
  | Some (item_names names) => Some names
  | _ => None
  end.

(** The section objects that [header[key]] refers to. *)
Definition header_sections (header : list (string * header_item)) (key : string)
    : list nat :=
  match dict_get key header with
  | Some (item_section id) => [id]
  | Some (item_list ids) => ids
  | _ => []
  end.

(** ** The force-volume worker of Nanoscope files *)

(** [a[start::-1]]: from [start] back to the first element. *)
Definition slice_back {A} (a : list A) (start : Z) : list A :=
  let n := Z.of_nat (length a) in
  let start := if start <? 0 then start + n else start in
  if start <? 0 then []
  else rev (take (Z.to_nat (Z.min start (n - 1) + 1)) a).

(** [a[start:]] *)
Definition slice_from {A} (a : list A) (start : Z) : list A :=
  slice a start (Z.of_nat (length a)).

(** [a[:stop] = value] for one-dimensional arrays: the value needs the
    length of the target, or one element, which is then repeated. *)
Definition np_setitem_prefix {A} (a : list A) (stop : Z) (value : list A)
    : res (list A) :=
  let m := length (slice a 0 stop) in
  if (length value =? m)%nat then Ok (value ++ drop m a)
  else
    match value with
    | [v] => Ok (repeat v m ++ drop m a)
    | _ => Raise (ValueError_msg "could not broadcast input array")
    end.

(** [np.roll(a, shift)] for a one-dimensional array. *)
Definition np_roll {A} (a : list A) (shift : Z) : list A :=
  match a with
  | [] => []
  | _ :: _ =>
      let n := Z.of_nat (length a) in
      let k := Z.to_nat (n - shift mod n) in
      drop k a ++ take k a
  end.

(** [a[r, c]] for an array with at least two axes. *)
Definition np_getitem2 {A} (a : list (list A)) (r c : Z) : res A :=
  let* r' := np_index (Z.of_nat (length a)) r in
  match a !! Z.to_nat r' with
  | None => Raise IndexError
  | Some row =>
      let* c' := np_index (Z.of_nat (length row)) c in
      match row !! Z.to_nat c' with
      | None => Raise IndexError
      | Some x => Ok x
      end
  end.

Section FFVWorker.

(** The samples are integers in the file; the floating-point products
    [ints * defl_scale], where [defl_scale = np.float32(defl_sens *
    self.defl_hard_scale)], and [ints * self.z_scale] are left abstract. *)
Variable sample : Type.
Variable sensitivity : Type.
Variable times_defl_scale : sensitivity -> Z -> sample.
Variable times_z_scale : Z -> sample.

(** The attributes of an [FFVWorker] that [get_force_curve] reads: arrays of
    shape [(r, c, npts)]. *)
Record FFVWorker : Type := mkFFVWorker {
  ffv_split : Z;
  ffv_d_ints : list (list (list Z));
  ffv_z_ints : list (list (list Z))
}.

(** [FFVWorker.get_force_curve] *)
Definition FFVWorker_get_force_curve (self : FFVWorker) (r c : Z)
    (defl_sens : sensitivity) (sync_dist : Z)
    : res ((list sample * list sample) * (list sample * list sample)) :=
  let s := ffv_split self in
  let* d_ints := np_getitem2 (ffv_d_ints self) r c in
  let d := map (times_defl_scale defl_sens) d_ints in
  let* d := np_setitem_prefix d s (slice_back d (s - 1)) in
  let d := if sync_dist =? 0 then d else np_roll d (- sync_dist) in
  let* z_ints := np_getitem2 (ffv_z_ints self) r c in
  let z := map times_z_scale z_ints in
  Ok ((slice_back z (s - 1), slice_from z s), (slice d 0 s, slice_from d s)).

End FFVWorker.

(** ** An example image *)




(** ** The data chunks of a pixel *)

(** [traverse_vdats] as the list of the chunks that it yields, from the
    pointer behind the VNAM chunk. *)
Fixpoint traverse_vdats_from (fuel : nat) (mm : list byte) (pointer : Z)
    : res (list ARDFVdata) :=
  match fuel with
  | O => OutOfFuel
  | S fuel' =>
      let* y := traverse_vdats_next mm pointer in
      match y with
      | None => Ok []
      | Some (vdat, pointer') =>
          let* rest := traverse_vdats_from fuel' mm pointer' in
          Ok (vdat :: rest)
      end
  end.

(** The branch of the [if ... elif ...] of [get_curve] that a chunk takes:
    the height channel, or else the deflection channel. *)
Definition carries_height (rd : ARDFForceMapReader) (vdat : ARDFVdata) : bool :=
  match channel_index (r_channels rd) (zname rd) with
  | Ok zi => vd_channel vdat =? zi
  | _ => false
  end.

Definition carries_deflection (rd : ARDFForceMapReader) (vdat : ARDFVdata) : bool :=
  negb (carries_height rd vdat)
  && match channel_index (r_channels rd) "Defl" with
     | Ok di => vd_channel vdat =? di
     | _ => false
     end.

(** [a[: s[1]], a[s[1] : s[2]]] for [s = vdat.seg_offsets] *)
Definition extend_retract (a : list Z) (vdat : ARDFVdata) : list Z * list Z :=
  let s := vd_seg_offsets vdat in
  (slice a 0 (nth 1 s 0), slice a (nth 1 s 0) (nth 2 s 0)).

(** What a variable of the data loop is bound to after the chunks [vdats]:
    the samples of the last chunk that took its branch, or what it was
    bound to before. *)
Definition bound_by (to_nanometers : Z -> Z) (mm : list byte)
    (branch : ARDFVdata -> bool) (vdats : list ARDFVdata)
    (before after : option (list Z * list Z)) : Prop :=
  match last (List.filter branch vdats) with
  | Some vdat =>
      exists a,
        ARDFVdata_get_ndarray to_nanometers mm vdat = Ok a
        /\ after = Some (extend_retract a vdat)
  | None => after = before
  end.

(** ** A volume with a pixel that has no data *)

(** A volume of 1 line and 2 points whose second pixel has a VSET and a
    VNAM chunk but no VDAT chunk: the chain starts at 720, the second
    pixel at 1000. *)
Definition empty_pixel_volume : list byte :=
  Eval vm_compute in
    toc_chunk "VOLM" 24 [toc_entry "NSET" 2]
    ++ toc_chunk "TTOC" 32 []
    ++ vdef_chunk 2 1
    ++ vchn_chunk "Raw" ++ vchn_chunk "Defl" ++ vchn_chunk "ZSnsr"
    ++ xdef_chunk
    ++ toc_chunk "VTOC" 40 [vtoc_entry 0 0 720]
    ++ chunk "MLOV" 16 []
    ++ vset_chain_chunks 720 [example_pixel 0 0; (0, 1, 2, [])].

Definition empty_pixel_reader : ARDFForceMapReader :=
  Eval vm_compute in reader_of empty_pixel_volume.

(** ** A complete force-map volume *)

(** A volume of 3 lines of 2 points whose volume table lists the lines in
    the order 0, 2, 1; the pixel (1, 1) is missing from the chain. *)
Definition unsorted_volume : list byte :=
  Eval vm_compute in
    volume_bytes 2 3 [(0, 0); (2, 2); (1, 4)] [(0, 0); (0, 1); (2, 0); (2, 1); (1, 0)].

Definition unsorted_reader : ARDFForceMapReader :=
  Eval vm_compute in reader_of unsorted_volume.





(** ** zlib.crc32 on the check string *)

Example crc32_check_value :
  zlib_crc32 (list_byte_of_string "123456789") = 0xCBF43926
  /\ crc32_reflected_04C11DB7 (list_byte_of_string "123456789") = 0xCBF43926.
Proof. split; vm_compute; reflexivity. Qed.

(** ** The two descriptions of the checksum agree *)

Lemma reflect_fold_spec (w : nat) (x : Z) (l : list nat) (j : Z) :
  Forall (fun i => (i < w)%nat) l ->
  Z.testbit
    (fold_right
       (fun i acc =>
          if Z.testbit x (Z.of_nat i)
          then Z.lor acc (Z.shiftl 1 (Z.of_nat (w - 1 - i)))
          else acc) 0 l) j
  = existsb (fun i => (j =? Z.of_nat (w - 1 - i)) && Z.testbit x (Z.of_nat i)) l.
Proof.
  induction 1 as [|i l Hi _ IH]; simpl.
  - apply Z.testbit_0_l.
  - destruct (Z.testbit x (Z.of_nat i)) eqn:Hx.
    + rewrite Z.lor_spec, IH, Z.shiftl_1_l, Z.pow2_bits_eqb by lia.
      rewrite andb_true_r, orb_comm, (Z.eqb_sym j). reflexivity.
    + rewrite andb_false_r. simpl. exact IH.
Qed.

Lemma reflect_spec (w : nat) (x j : Z) :
  Z.testbit (reflect w x) j
  = if (0 <=? j) && (j <? Z.of_nat w) then Z.testbit x (Z.of_nat w - 1 - j) else false.
Proof.
  unfold reflect. rewrite reflect_fold_spec.
  2:{ apply List.Forall_forall. intros i Hi. apply in_seq in Hi. lia. }
  destruct ((0 <=? j) && (j <? Z.of_nat w)) eqn:Hj.
  - apply andb_true_iff in Hj as [H0 H1].
    apply Z.leb_le in H0. apply Z.ltb_lt in H1.
    destruct (Z.testbit x (Z.of_nat w - 1 - j)) eqn:Hx.
    + apply existsb_exists. exists (Z.to_nat (Z.of_nat w - 1 - j)). split.
      * apply in_seq. lia.
      * rewrite Z2Nat.id by lia. rewrite Hx, andb_true_r. apply Z.eqb_eq. lia.
    + apply not_true_is_false. intros He. apply existsb_exists in He as (i & Hi & He).
      apply in_seq in Hi. apply andb_true_iff in He as [He1 He2]. apply Z.eqb_eq in He1.
      replace (Z.of_nat w - 1 - j) with (Z.of_nat i) in Hx by lia. congruence.
  - apply not_true_is_false. intros He. apply existsb_exists in He as (i & Hi & He).
    apply in_seq in Hi. apply andb_true_iff in He as [He1 He2]. apply Z.eqb_eq in He1.
    apply andb_false_iff in Hj as [Hj|Hj]; [apply Z.leb_gt in Hj|apply Z.ltb_ge in Hj]; lia.
Qed.

Lemma crc32_poly_reflected : 0xEDB88320 = reflect 32 0x04C11DB7.
Proof. vm_compute. reflexivity. Qed.

Lemma crc32_shift_reflect (c : Z) :
  reflect 32 (crc32_msb_shift c) = crc32_shift (reflect 32 c).
Proof.
  assert (Hodd : Z.odd (reflect 32 c) = Z.testbit c 31).
  { rewrite <- Z.bit0_odd, reflect_spec. reflexivity. }
  assert (Hmask : forall k, 0 <= k < 32 -> Z.testbit 0xFFFFFFFF k = true).
  { intros k Hk. change 0xFFFFFFFF with (Z.ones 32). apply Z.ones_spec_low. lia. }
  apply Z.bits_inj'. intros n Hn.
  unfold crc32_shift, crc32_msb_shift. rewrite Hodd.
  rewrite (reflect_spec 32 _ n).
  destruct (Z.testbit c 31) eqn:H31.
  - rewrite Z.lxor_spec, Z.shiftr_spec by lia.
    rewrite crc32_poly_reflected, !reflect_spec.
    destruct ((0 <=? n) && (n <? Z.of_nat 32)) eqn:Hr.
    + apply andb_true_iff in Hr as [H0 H1]. apply Z.ltb_lt in H1.
      rewrite Z.land_spec, Z.lxor_spec, Hmask, andb_true_r by lia.
      rewrite Z.shiftl_spec by lia.
      destruct (Z.eq_dec n 31) as [->|Hne].
      * simpl. reflexivity.
      * replace ((0 <=? n + 1) && (n + 1 <? Z.of_nat 32)) with true
          by (symmetry; apply andb_true_iff; split; [apply Z.leb_le|apply Z.ltb_lt]; lia).
        f_equal. f_equal. lia.
    + apply andb_false_iff in Hr as [Hr|Hr]; [apply Z.leb_gt in Hr; lia|].
      apply Z.ltb_ge in Hr.
      replace ((0 <=? n + 1) && (n + 1 <? Z.of_nat 32)) with false
        by (symmetry; apply andb_false_iff; right; apply Z.ltb_ge; lia).
      reflexivity.
  - rewrite Z.shiftr_spec by lia. rewrite !reflect_spec.
    destruct ((0 <=? n) && (n <? Z.of_nat 32)) eqn:Hr.
    + apply andb_true_iff in Hr as [H0 H1]. apply Z.ltb_lt in H1.
      rewrite Z.land_spec, Hmask, andb_true_r by lia.
      rewrite Z.shiftl_spec by lia.
      destruct (Z.eq_dec n 31) as [->|Hne].
      * simpl. reflexivity.
      * replace ((0 <=? n + 1) && (n + 1 <? Z.of_nat 32)) with true
          by (symmetry; apply andb_true_iff; split; [apply Z.leb_le|apply Z.ltb_lt]; lia).
        f_equal. lia.
    + apply andb_false_iff in Hr as [Hr|Hr]; [apply Z.leb_gt in Hr; lia|].
      apply Z.ltb_ge in Hr.
      replace ((0 <=? n + 1) && (n + 1 <? Z.of_nat 32)) with false
        by (symmetry; apply andb_false_iff; right; apply Z.ltb_ge; lia).
      reflexivity.
Qed.

Lemma byte_to_Z_range (b : byte) : 0 <= byte_to_Z b < 256.
Proof. unfold byte_to_Z. pose proof (Byte.to_N_bounded b). lia. Qed.

Lemma testbit_above (a n j : Z) : 0 <= a < 2 ^ n -> n <= j -> Z.testbit a j = false.
Proof.
  intros Ha Hj. destruct (Z.eq_dec a 0) as [->|Hne]; [apply Z.testbit_0_l|].
  apply Z.bits_above_log2; [lia|].
  assert (Z.log2 a < n) by (apply Z.log2_lt_pow2; lia). lia.
Qed.

Lemma crc32_xor_reflect (c : Z) (b : byte) :
  reflect 32 (Z.lxor c (Z.shiftl (reflect 8 (byte_to_Z b)) 24))
  = Z.lxor (reflect 32 c) (byte_to_Z b).
Proof.
  apply Z.bits_inj'. intros n Hn.
  rewrite Z.lxor_spec, !reflect_spec.
  destruct ((0 <=? n) && (n <? Z.of_nat 32)) eqn:Hr.
  - apply andb_true_iff in Hr as [H0 H1]. apply Z.ltb_lt in H1.
    rewrite Z.lxor_spec, Z.shiftl_spec, reflect_spec by lia. f_equal.
    destruct (Z_lt_dec n 8) as [H8|H8].
    + replace ((0 <=? Z.of_nat 32 - 1 - n - 24) && (Z.of_nat 32 - 1 - n - 24 <? Z.of_nat 8))
        with true
        by (symmetry; apply andb_true_iff; split; [apply Z.leb_le|apply Z.ltb_lt]; lia).
      f_equal. lia.
    + replace ((0 <=? Z.of_nat 32 - 1 - n - 24) && (Z.of_nat 32 - 1 - n - 24 <? Z.of_nat 8))
        with false
        by (symmetry; apply andb_false_iff; left; apply Z.leb_gt; lia).
      symmetry. apply (testbit_above _ 8); [apply byte_to_Z_range|lia].
  - apply andb_false_iff in Hr as [Hr|Hr]; [apply Z.leb_gt in Hr; lia|].
    apply Z.ltb_ge in Hr. simpl. symmetry.
    apply (testbit_above _ 8); [apply byte_to_Z_range|lia].
Qed.

Lemma iter_commute {A} (R f g : A -> A) (n : nat) :
  (forall c, R (f c) = g (R c)) ->
  forall c, R (Nat.iter n f c) = Nat.iter n g (R c).
Proof.
  intros H c. induction n as [|n IH]; [reflexivity|].
  rewrite !Nat.iter_succ, H, IH. reflexivity.
Qed.

Lemma fold_left_commute {A B} (R : A -> A) (f g : A -> B -> A) (l : list B) :
  (forall c b, R (f c b) = g (R c) b) ->
  forall c, R (fold_left f l c) = fold_left g l (R c).
Proof.
  intros H. induction l as [|b l IH]; intros c; [reflexivity|].
  cbn [fold_left]. rewrite IH, H. reflexivity.
Qed.

Lemma crc32_byte_reflect (c : Z) (b : byte) :
  reflect 32 (crc32_msb_byte c b) = crc32_byte (reflect 32 c) b.
Proof.
  unfold crc32_msb_byte, crc32_byte.
  rewrite (iter_commute (reflect 32) crc32_msb_shift crc32_shift 8 crc32_shift_reflect).
  rewrite crc32_xor_reflect. reflexivity.
Qed.

Lemma zlib_crc32_reflected (bs : list byte) :
  zlib_crc32 bs = crc32_reflected_04C11DB7 bs.
Proof.
  unfold zlib_crc32, crc32_reflected_04C11DB7.
  rewrite (fold_left_commute (reflect 32) crc32_msb_byte crc32_byte bs crc32_byte_reflect).
  replace (reflect 32 0xFFFFFFFF) with 0xFFFFFFFF by (vm_compute; reflexivity).
  reflexivity.
Qed.

(** ** A changed byte changes the checksum *)

Lemma lxor_range (a b n : Z) :
  0 <= a < 2 ^ n -> 0 <= b < 2 ^ n -> 0 <= Z.lxor a b < 2 ^ n.
Proof.
  intros Ha Hb.
  assert (Hnn : 0 <= Z.lxor a b) by (apply Z.lxor_nonneg; lia).
  split; [exact Hnn|].
  destruct (Z.eq_dec (Z.lxor a b) 0) as [->|Hne]; [lia|].
  assert (Hpos : 0 < Z.lxor a b) by lia.
  apply Z.log2_lt_pow2; [exact Hpos|].
  pose proof (Z.log2_lxor a b ltac:(lia) ltac:(lia)) as Hl.
  assert (Hn : 0 < n).
  { destruct (Z_lt_dec 0 n); [assumption|].
    assert (2 ^ n <= 1).
    { destruct (Z.eq_dec n 0) as [->|]; [simpl; lia|].
      rewrite Z.pow_neg_r by lia. lia. }
    assert (Ha0 : a = 0) by lia. assert (Hb0 : b = 0) by lia.
    exfalso. apply Hne. rewrite Ha0, Hb0. reflexivity. }
  assert (Hla : Z.log2 a < n).
  { destruct (Z.eq_dec a 0) as [->|]; [simpl; lia|]. apply Z.log2_lt_pow2; lia. }
  assert (Hlb : Z.log2 b < n).
  { destruct (Z.eq_dec b 0) as [->|]; [simpl; lia|]. apply Z.log2_lt_pow2; lia. }
  lia.
Qed.

Lemma lxor_cancel_r (a b c : Z) : Z.lxor a c = Z.lxor b c -> a = b.
Proof.
  intros H. apply (f_equal (fun x => Z.lxor x c)) in H.
  rewrite !Z.lxor_assoc, !Z.lxor_nilpotent, !Z.lxor_0_r in H. exact H.
Qed.

Lemma lxor_cancel_l (a b c : Z) : Z.lxor c a = Z.lxor c b -> a = b.
Proof. rewrite !(Z.lxor_comm c). apply lxor_cancel_r. Qed.

Lemma shiftr1_range (c : Z) : crc32_register c -> 0 <= Z.shiftr c 1 < 2 ^ 31.
Proof.
  unfold crc32_register. intros Hc. rewrite Z.shiftr_div_pow2 by lia.
  change (2 ^ 1) with 2. change (2 ^ 32) with (2 * 2 ^ 31) in Hc.
  split; [apply Z.div_pos; lia|apply Z.div_lt_upper_bound; lia].
Qed.

Lemma crc32_shift_range (c : Z) : crc32_register c -> crc32_register (crc32_shift c).
Proof.
  intros Hc. pose proof (shiftr1_range c Hc) as Hs.
  unfold crc32_shift. destruct (Z.odd c).
  - apply lxor_range; [|vm_compute; split; congruence].
    change (2 ^ 32) with (2 * 2 ^ 31). lia.
  - unfold crc32_register. change (2 ^ 32) with (2 * 2 ^ 31). lia.
Qed.

Lemma crc32_shift_bit31 (c : Z) :
  crc32_register c -> Z.testbit (crc32_shift c) 31 = Z.odd c.
Proof.
  intros Hc. pose proof (shiftr1_range c Hc) as Hs.
  assert (H31 : Z.testbit (Z.shiftr c 1) 31 = false)
    by (apply (testbit_above _ 31); lia).
  unfold crc32_shift. destruct (Z.odd c).
  - rewrite Z.lxor_spec, H31. reflexivity.
  - exact H31.
Qed.

Lemma crc32_shift_inj (c1 c2 : Z) :
  crc32_register c1 -> crc32_register c2 ->
  crc32_shift c1 = crc32_shift c2 -> c1 = c2.
Proof.
  intros H1 H2 He.
  assert (Hodd : Z.odd c1 = Z.odd c2).
  { rewrite <- (crc32_shift_bit31 c1 H1), <- (crc32_shift_bit31 c2 H2), He. reflexivity. }
  assert (Hhalf : Z.shiftr c1 1 = Z.shiftr c2 1).
  { unfold crc32_shift in He. rewrite <- Hodd in He.
    destruct (Z.odd c1); [exact (lxor_cancel_r _ _ _ He)|exact He]. }
  rewrite <- !Z.div2_spec in Hhalf.
  rewrite (Z.div2_odd c1), (Z.div2_odd c2), Hhalf, Hodd. reflexivity.
Qed.

Lemma iter_invariant {A} (P : A -> Prop) (f : A -> A) (n : nat) :
  (forall c, P c -> P (f c)) -> forall c, P c -> P (Nat.iter n f c).
Proof.
  intros Hf c Hc. induction n as [|n IH]; [exact Hc|].
  rewrite Nat.iter_succ. apply Hf, IH.
Qed.

Lemma iter_inj {A} (P : A -> Prop) (f : A -> A) (n : nat) :
  (forall c, P c -> P (f c)) ->
  (forall a b, P a -> P b -> f a = f b -> a = b) ->
  forall a b, P a -> P b -> Nat.iter n f a = Nat.iter n f b -> a = b.
Proof.
  intros Hf Hinj a b Ha Hb. induction n as [|n IH]; [exact (fun H => H)|].
  rewrite !Nat.iter_succ. intros He. apply IH.
  apply Hinj; [apply iter_invariant|apply iter_invariant|]; assumption.
Qed.

Lemma byte_register (b : byte) : crc32_register (byte_to_Z b).
Proof. pose proof (byte_to_Z_range b). unfold crc32_register. lia. Qed.

Lemma byte_to_Z_inj (b1 b2 : byte) : byte_to_Z b1 = byte_to_Z b2 -> b1 = b2.
Proof.
  unfold byte_to_Z. intros H. apply N2Z.inj in H.
  pose proof (Byte.of_to_N b1) as H1. rewrite H, Byte.of_to_N in H1. congruence.
Qed.

Lemma crc32_byte_range (c : Z) (b : byte) :
  crc32_register c -> crc32_register (crc32_byte c b).
Proof.
  intros Hc. unfold crc32_byte.
  apply iter_invariant; [exact crc32_shift_range|].
  apply lxor_range; [exact Hc|apply byte_register].
Qed.

Lemma crc32_byte_inj_register (c1 c2 : Z) (b : byte) :
  crc32_register c1 -> crc32_register c2 ->
  crc32_byte c1 b = crc32_byte c2 b -> c1 = c2.
Proof.
  intros H1 H2 He. unfold crc32_byte in He.
  apply (iter_inj crc32_register) in He;
    [ exact (lxor_cancel_r _ _ _ He) | exact crc32_shift_range | exact crc32_shift_inj
    | apply lxor_range; [assumption|apply byte_register]
    | apply lxor_range; [assumption|apply byte_register] ].
Qed.

Lemma crc32_byte_inj_byte (c : Z) (b1 b2 : byte) :
  crc32_register c -> crc32_byte c b1 = crc32_byte c b2 -> b1 = b2.
Proof.
  intros Hc He. unfold crc32_byte in He.
  apply (iter_inj crc32_register) in He;
    [ exact (byte_to_Z_inj _ _ (lxor_cancel_l _ _ _ He)) | exact crc32_shift_range
    | exact crc32_shift_inj
    | apply lxor_range; [assumption|apply byte_register]
    | apply lxor_range; [assumption|apply byte_register] ].
Qed.

Lemma crc32_fold_range (bs : list byte) (c : Z) :
  crc32_register c -> crc32_register (fold_left crc32_byte bs c).
Proof.
  revert c. induction bs as [|b bs IH]; intros c Hc; [exact Hc|].
  cbn [fold_left]. apply IH, crc32_byte_range, Hc.
Qed.

Lemma crc32_fold_inj (bs : list byte) (c1 c2 : Z) :
  crc32_register c1 -> crc32_register c2 ->
  fold_left crc32_byte bs c1 = fold_left crc32_byte bs c2 -> c1 = c2.
Proof.
  revert c1 c2. induction bs as [|b bs IH]; intros c1 c2 H1 H2 He; [exact He|].
  cbn [fold_left] in He. apply IH in He; try (apply crc32_byte_range; assumption).
  exact (crc32_byte_inj_register _ _ _ H1 H2 He).
Qed.

(** Two messages that differ in one byte have different checksums. *)
Lemma zlib_crc32_one_byte (pre post : list byte) (b1 b2 : byte) :
  zlib_crc32 (pre ++ b1 :: post) = zlib_crc32 (pre ++ b2 :: post) -> b1 = b2.
Proof.
  unfold zlib_crc32. intros He. apply lxor_cancel_r in He.
  rewrite !fold_left_app in He. cbn [fold_left] in He.
  assert (H0 : crc32_register (fold_left crc32_byte pre 0xFFFFFFFF)).
  { apply crc32_fold_range. unfold crc32_register. vm_compute. split; congruence. }
  apply crc32_fold_inj in He; try (apply crc32_byte_range; exact H0).
  exact (crc32_byte_inj_byte _ _ _ H0 He).
Qed.

(** Writing one byte of the map inside a slice changes that byte of the
    slice. *)
Lemma slice_insert (mm : list byte) (i : nat) (b : byte) (a e : Z) :
  0 <= a -> a <= Z.of_nat i < e -> (i < length mm)%nat ->
  exists pre b0 post,
    mm !! i = Some b0
    /\ slice mm a e = pre ++ b0 :: post
    /\ slice (<[i := b]> mm) a e = pre ++ b :: post.
Proof.
  intros Ha Hi Hlen.
  destruct (lookup_lt_is_Some_2 mm i Hlen) as [b0 Hb0].
  unfold slice. rewrite length_insert. unfold clamp_index.
  replace (a <? 0) with false by (symmetry; apply Z.ltb_ge; lia).
  replace (e <? 0) with false by (symmetry; apply Z.ltb_ge; lia).
  rewrite (Z.min_l a) by lia.
  set (k := Z.to_nat (Z.min e (Z.of_nat (length mm)) - a)).
  rewrite drop_insert_ge by lia.
  assert (Hj : (i - Z.to_nat a < k)%nat) by (unfold k; lia).
  rewrite take_insert_lt by exact Hj.
  set (l := take k (drop (Z.to_nat a) mm)).
  assert (Hl : l !! (i - Z.to_nat a)%nat = Some b0).
  { unfold l. rewrite lookup_take_lt by exact Hj. rewrite lookup_drop.
    replace (Z.to_nat a + (i - Z.to_nat a))%nat with i by lia. exact Hb0. }
  exists (take (i - Z.to_nat a) l), b0, (drop (S (i - Z.to_nat a)) l).
  split; [exact Hb0|]. split.
  - symmetry. apply take_drop_middle. exact Hl.
  - apply insert_take_drop. apply lookup_lt_Some in Hl. exact Hl.
Qed.

(** ** ARDFHeader.validate *)

Lemma ARDFHeader_validate_cases (mm : list byte) (h : ARDFHeader) :
  let crc := zlib_crc32 (slice mm (h_offset h + 4) (h_offset h + h_size h)) in
  (h_crc h = crc /\ ARDFHeader_validate mm h = Ok true)
  \/ (h_crc h <> crc
      /\ ARDFHeader_validate mm h = Raise (ValueError_section (h_crc h) crc h)).
Proof.
  intros crc. unfold ARDFHeader_validate. fold crc.
  destruct (Z.eqb_spec (h_crc h) crc) as [He|Hne]; [left|right]; split; auto.
Qed.

(** C3. [validate] succeeds exactly when the stored checksum is the CRC-32
    (polynomial 0x04C11DB7, reflected in and out, initial value and final XOR
    0xFFFFFFFF) of the bytes [offset + 4, offset + size) of the map; when it
    is not, it raises the checksum ValueError that carries the header; and
    after a successful validation, writing a different value into any byte
    of that range makes the validation of the same header fail. *)
Theorem validate_iff_crc32 (mm : list byte) (h : ARDFHeader) :
  let range := slice mm (h_offset h + 4) (h_offset h + h_size h) in
  (ARDFHeader_validate mm h = Ok true <-> h_crc h = crc32_reflected_04C11DB7 range)
  /\ (h_crc h <> crc32_reflected_04C11DB7 range ->
      ARDFHeader_validate mm h
      = Raise (ValueError_section (h_crc h) (crc32_reflected_04C11DB7 range) h))
  /\ (forall (i : nat) (b : byte),
        0 <= h_offset h ->
        ARDFHeader_validate mm h = Ok true ->
        h_offset h + 4 <= Z.of_nat i < h_offset h + h_size h ->
        (i < length mm)%nat ->
        mm !! i <> Some b ->
        exists got,
          got <> h_crc h
          /\ ARDFHeader_validate (<[i := b]> mm) h
             = Raise (ValueError_section (h_crc h) got h)).
Proof.
  intros range. unfold range. rewrite <- zlib_crc32_reflected.
  pose proof (ARDFHeader_validate_cases mm h) as Hc. cbv zeta in Hc.
  split; [|split].
  - destruct Hc as [[He Hv]|[Hne Hv]]; rewrite Hv; split; intros H;
      try reflexivity; try exact He; try discriminate; contradiction.
  - intros Hne. destruct Hc as [[He Hv]|[_ Hv]]; [contradiction|exact Hv].
  - intros i b Hoff Hok Hi Hlen Hb.
    destruct Hc as [[He _]|[_ Hv]]; [|rewrite Hv in Hok; discriminate].
    destruct (slice_insert mm i b (h_offset h + 4) (h_offset h + h_size h))
      as (pre & b0 & post & Hb0 & Hs & Hs'); [lia|lia|exact Hlen|].
    pose proof (ARDFHeader_validate_cases (<[i := b]> mm) h) as Hc'. cbv zeta in Hc'.
    destruct Hc' as [[He' _]|[Hne' Hv']].
    + exfalso. apply Hb. rewrite Hb0. f_equal.
      apply (zlib_crc32_one_byte pre post). rewrite <- Hs, <- Hs'. congruence.
    + eexists. split; [|exact Hv']. congruence.
Qed.

Lemma validate_iff_crc32_witness :
  ARDFHeader_validate ardf_file_header_bytes ardf_file_header = Ok true
  /\ exists got,
       got <> h_crc ardf_file_header
       /\ ARDFHeader_validate (<[9%nat := x00]> ardf_file_header_bytes) ardf_file_header
          = Raise (ValueError_section (h_crc ardf_file_header) got ardf_file_header).
Proof.
  destruct (validate_iff_crc32 ardf_file_header_bytes ardf_file_header)
    as (_ & _ & Hmut).
  split; [vm_compute; reflexivity|].
  apply Hmut.
  - simpl; lia.
  - vm_compute; reflexivity.
  - simpl; lia.
  - vm_compute; lia.
  - vm_compute; discriminate.
Defined.

(** ** Reads that only see a prefix of the map *)

Lemma slice_nonneg {A} (l : list A) (a e : Z) :
  0 <= a -> 0 <= e -> slice l a e = drop (Z.to_nat a) (take (Z.to_nat e) l).
Proof.
  intros Ha He. unfold slice, clamp_index.
  replace (a <? 0) with false by (symmetry; apply Z.ltb_ge; lia).
  replace (e <? 0) with false by (symmetry; apply Z.ltb_ge; lia).
  set (n := Z.of_nat (length l)).
  destruct (Z_le_dec n a) as [Hna|Han].
  - rewrite (Z.min_r a n) by lia.
    rewrite (drop_ge l (Z.to_nat n)) by (unfold n; lia).
    rewrite take_nil. symmetry. apply drop_ge. rewrite length_take. lia.
  - rewrite (Z.min_l a n) by lia.
    destruct (Z_le_dec e a) as [Hea|Hae].
    + replace (Z.to_nat (Z.min e n - a)) with 0%nat by lia.
      rewrite take_0. symmetry. apply drop_ge. rewrite length_take. lia.
    + rewrite take_drop_commute. f_equal.
      destruct (Z_le_dec e n) as [Hen|Hne].
      * f_equal. lia.
      * rewrite !take_ge by (unfold n in *; lia). reflexivity.
Qed.

Lemma same_prefix_le (n m : Z) (mm mm' : list byte) :
  m <= n -> same_prefix n mm mm' -> same_prefix m mm mm'.
Proof.
  unfold same_prefix. intros Hm H.
  replace (Z.to_nat m) with (Z.to_nat m `min` Z.to_nat n)%nat by lia.
  rewrite <- !take_take, H. reflexivity.
Qed.

Lemma slice_same_prefix (mm mm' : list byte) (a e : Z) :
  0 <= a -> 0 <= e -> same_prefix e mm mm' -> slice mm' a e = slice mm a e.
Proof.
  intros Ha He H. rewrite !slice_nonneg by assumption. rewrite H. reflexivity.
Qed.

Lemma unpack_from_same_prefix (n : Z) (mm mm' : list byte) (offset : Z) :
  0 <= n -> same_prefix (offset + n) mm mm' ->
  unpack_from n mm' offset = unpack_from n mm offset.
Proof.
  intros Hn H. unfold unpack_from.
  destruct (Z.leb_spec 0 offset) as [Ho|Ho]; [|reflexivity]. cbn [andb].
  assert (Hlen : offset + n <= Z.of_nat (length mm') <-> offset + n <= Z.of_nat (length mm)).
  { unfold same_prefix in H. apply (f_equal length) in H. rewrite !length_take in H. lia. }
  destruct (Z.leb_spec (offset + n) (Z.of_nat (length mm')));
    destruct (Z.leb_spec (offset + n) (Z.of_nat (length mm))); try lia; [|reflexivity].
  f_equal. rewrite !take_drop_commute.
  replace (Z.to_nat offset + Z.to_nat n)%nat with (Z.to_nat (offset + n)) by lia.
  unfold same_prefix in H. rewrite H. reflexivity.
Qed.

Lemma validate_same_prefix (mm mm' : list byte) (h : ARDFHeader) :
  0 <= h_offset h -> 0 <= h_size h ->
  same_prefix (h_offset h + h_size h) mm mm' ->
  ARDFHeader_validate mm' h = ARDFHeader_validate mm h.
Proof.
  intros Ho Hs H. unfold ARDFHeader_validate.
  rewrite (slice_same_prefix mm mm') by (assumption || lia). reflexivity.
Qed.

Lemma toc_prebody_same_prefix (mm mm' : list byte) (offset : Z) :
  same_prefix (offset + 32) mm mm' -> toc_prebody mm' offset = toc_prebody mm offset.
Proof.
  intros H. unfold toc_prebody.
  rewrite (unpack_from_same_prefix 16 mm mm'); [reflexivity|lia|].
  replace (offset + 16 + 16) with (offset + 32) by lia. exact H.
Qed.

(** ** The declared triple of a table of contents *)

Lemma ARDFHeader_validate_not_OutOfFuel (mm : list byte) (h : ARDFHeader) :
  ARDFHeader_validate mm h <> OutOfFuel.
Proof.
  destruct (ARDFHeader_validate_cases mm h) as [[_ H]|[_ H]]; rewrite H; discriminate.
Qed.

Lemma ARDFTableOfContents_unpack_triple (mm : list byte) (h : ARDFHeader)
    (toc : ARDFTableOfContents) :
  ARDFTableOfContents_unpack mm h = Ok toc ->
  exists n, toc_prebody mm (h_offset h) = Ok (toc_size toc, n, 24)
            /\ consistent_triple 24 (toc_size toc, n, 24).
Proof.
  unfold ARDFTableOfContents_unpack. intros H.
  destruct (negb (h_size h =? 32)); [discriminate|].
  destruct (ARDFHeader_validate mm h); cbn [bind] in H; try discriminate.
  destruct (toc_prebody mm (h_offset h)) as [[[size n] stride]| |];
    cbn [bind] in H; try discriminate.
  unfold assert in H.
  destruct (Z.eqb_spec stride 24) as [Hst|]; cbn [bind] in H; [subst stride|discriminate].
  destruct (Z.eqb_spec (size - 32) (n * 24)) as [Hs|]; cbn [bind] in H; [|discriminate].
  destruct (ARDFTableOfContents_entries mm _ []); cbn [bind] in H; try discriminate.
  injection H as <-. exists n. cbn. split; [reflexivity|]. split; [reflexivity|lia].
Qed.

Lemma ARDFTextTableOfContents_unpack_triple (mm : list byte) (h : ARDFHeader)
    (toc : ARDFTextTableOfContents) :
  ARDFTextTableOfContents_unpack mm h = Ok toc ->
  exists n, toc_prebody mm (h_offset h) = Ok (ttoc_size toc, n, 32)
            /\ consistent_triple 32 (ttoc_size toc, n, 32).
Proof.
  unfold ARDFTextTableOfContents_unpack. intros H.
  destruct (negb (h_size h =? 32) || negb (h_name h =? "TTOC")%string); [discriminate|].
  destruct (ARDFHeader_validate mm h); cbn [bind] in H; try discriminate.
  destruct (toc_prebody mm (h_offset h)) as [[[size n] stride]| |];
    cbn [bind] in H; try discriminate.
  unfold assert in H.
  destruct (Z.eqb_spec stride 32) as [Hst|]; cbn [bind] in H; [subst stride|discriminate].
  destruct (Z.eqb_spec (size - 32) (n * 32)) as [Hs|]; cbn [bind] in H; [|discriminate].
  destruct (ARDFTextTableOfContents_entries mm _ []); cbn [bind] in H; try discriminate.
  injection H as <-. exists n. cbn. split; [reflexivity|]. split; [reflexivity|lia].
Qed.

Lemma ARDFVolumeTableOfContents_unpack_triple (mm : list byte) (h : ARDFHeader)
    (toc : ARDFVolumeTableOfContents) :
  ARDFVolumeTableOfContents_unpack mm h = Ok toc ->
  exists n, toc_prebody mm (h_offset h) = Ok (vtoc_size toc, n, 40)
            /\ consistent_triple 40 (vtoc_size toc, n, 40).
Proof.
  unfold ARDFVolumeTableOfContents_unpack. intros H.
  destruct (negb (h_size h =? 32) || negb (h_name h =? "VTOC")%string); [discriminate|].
  destruct (toc_prebody mm (h_offset h)) as [[[size n] stride]| |];
    cbn [bind] in H; try discriminate.
  unfold assert in H.
  destruct (Z.eqb_spec stride 40) as [Hst|]; cbn [bind] in H; [subst stride|discriminate].
  destruct (Z.eqb_spec (size - 32) (n * 40)) as [Hs|]; cbn [bind] in H; [|discriminate].
  destruct (ARDFVolumeTableOfContents_entries mm _ []); cbn [bind] in H; try discriminate.
  injection H as <-. exists n. cbn. split; [reflexivity|]. split; [reflexivity|lia].
Qed.

(** With an inconsistent triple the constructor raises, and which exception
    it raises is decided by the 32 bytes of header and pre-body. *)
Lemma inconsistent_triple_asserts (stride0 size n stride : Z) {A} (k : res A) :
  ~ consistent_triple stride0 (size, n, stride) ->
  (let* _ := assert (stride =? stride0) in
   let* _ := assert (size - 32 =? n * stride) in k) = Raise AssertionError.
Proof.
  unfold consistent_triple, assert. intros Hn.
  destruct (Z.eqb_spec stride stride0); cbn [bind]; [|reflexivity].
  destruct (Z.eqb_spec (size - 32) (n * stride)); cbn [bind]; [|reflexivity].
  exfalso. apply Hn. lia.
Qed.

Lemma ARDFTableOfContents_unpack_inconsistent (mm : list byte) (h : ARDFHeader)
    (size n stride : Z) :
  0 <= h_offset h ->
  toc_prebody mm (h_offset h) = Ok (size, n, stride) ->
  ~ consistent_triple 24 (size, n, stride) ->
  exists e, forall mm',
    same_prefix (h_offset h + 32) mm mm' -> ARDFTableOfContents_unpack mm' h = Raise e.
Proof.
  intros Ho Hp Hn. unfold ARDFTableOfContents_unpack.
  destruct (Z.eqb_spec (h_size h) 32) as [Hs|Hs]; cbn [negb].
  2:{ eexists. intros mm' _. reflexivity. }
  destruct (ARDFHeader_validate mm h) as [b|e|] eqn:Hv.
  - exists AssertionError. intros mm' Hpre.
    rewrite (validate_same_prefix mm mm'), Hv by (rewrite ?Hs; lia || assumption).
    cbn [bind]. rewrite (toc_prebody_same_prefix mm mm' _ Hpre), Hp. cbn [bind].
    apply inconsistent_triple_asserts. exact Hn.
  - exists e. intros mm' Hpre.
    rewrite (validate_same_prefix mm mm'), Hv by (rewrite ?Hs; lia || assumption).
    reflexivity.
  - exfalso. exact (ARDFHeader_validate_not_OutOfFuel _ _ Hv).
Qed.

Lemma ARDFTextTableOfContents_unpack_inconsistent (mm : list byte) (h : ARDFHeader)
    (size n stride : Z) :
  0 <= h_offset h ->
  toc_prebody mm (h_offset h) = Ok (size, n, stride) ->
  ~ consistent_triple 32 (size, n, stride) ->
  exists e, forall mm',
    same_prefix (h_offset h + 32) mm mm' -> ARDFTextTableOfContents_unpack mm' h = Raise e.
Proof.
  intros Ho Hp Hn. unfold ARDFTextTableOfContents_unpack.
  destruct (Z.eqb_spec (h_size h) 32) as [Hs|Hs]; cbn [negb orb].
  2:{ eexists. intros mm' _. reflexivity. }
  destruct (negb (h_name h =? "TTOC")%string).
  { eexists. intros mm' _. reflexivity. }
  destruct (ARDFHeader_validate mm h) as [b|e|] eqn:Hv.
  - exists AssertionError. intros mm' Hpre.
    rewrite (validate_same_prefix mm mm'), Hv by (rewrite ?Hs; lia || assumption).
    cbn [bind]. rewrite (toc_prebody_same_prefix mm mm' _ Hpre), Hp. cbn [bind].
    apply inconsistent_triple_asserts. exact Hn.
  - exists e. intros mm' Hpre.
    rewrite (validate_same_prefix mm mm'), Hv by (rewrite ?Hs; lia || assumption).
    reflexivity.
  - exfalso. exact (ARDFHeader_validate_not_OutOfFuel _ _ Hv).
Qed.

Lemma ARDFVolumeTableOfContents_unpack_inconsistent (mm : list byte) (h : ARDFHeader)
    (size n stride : Z) :
  0 <= h_offset h ->
  toc_prebody mm (h_offset h) = Ok (size, n, stride) ->
  ~ consistent_triple 40 (size, n, stride) ->
  exists e, forall mm',
    same_prefix (h_offset h + 32) mm mm'
    -> ARDFVolumeTableOfContents_unpack mm' h = Raise e.
Proof.
  intros Ho Hp Hn. unfold ARDFVolumeTableOfContents_unpack.
  destruct (negb (h_size h =? 32) || negb (h_name h =? "VTOC")%string).
  { eexists. intros mm' _. reflexivity. }
  exists AssertionError. intros mm' Hpre.
  rewrite (toc_prebody_same_prefix mm mm' _ Hpre), Hp. cbn [bind].
  apply inconsistent_triple_asserts. exact Hn.
Qed.

(** C7. For each of the three tables of contents (generic, text, volume):
    a table is only constructed when the declared triple satisfies
    [entry_count * stride + 32 = size] with the stride of its kind (24, 32,
    40); with an inconsistent triple the constructor raises an exception
    that the 32 bytes of header and pre-body decide, whatever the entry
    bytes behind them are. *)
Theorem toc_triple_checked (mm : list byte) (h : ARDFHeader) (size n stride : Z) :
  toc_prebody mm (h_offset h) = Ok (size, n, stride) ->
  ((forall toc, ARDFTableOfContents_unpack mm h = Ok toc ->
      toc_size toc = size /\ stride = 24 /\ n * stride + 32 = size)
   /\ (forall toc, ARDFTextTableOfContents_unpack mm h = Ok toc ->
      ttoc_size toc = size /\ stride = 32 /\ n * stride + 32 = size)
   /\ (forall toc, ARDFVolumeTableOfContents_unpack mm h = Ok toc ->
      vtoc_size toc = size /\ stride = 40 /\ n * stride + 32 = size))
  /\ (0 <= h_offset h ->
      (~ (stride = 24 /\ n * stride + 32 = size) ->
       exists e, forall mm', same_prefix (h_offset h + 32) mm mm' ->
         ARDFTableOfContents_unpack mm' h = Raise e)
      /\ (~ (stride = 32 /\ n * stride + 32 = size) ->
       exists e, forall mm', same_prefix (h_offset h + 32) mm mm' ->
         ARDFTextTableOfContents_unpack mm' h = Raise e)
      /\ (~ (stride = 40 /\ n * stride + 32 = size) ->
       exists e, forall mm', same_prefix (h_offset h + 32) mm mm' ->
         ARDFVolumeTableOfContents_unpack mm' h = Raise e)).
Proof.
  intros Hp. split; [split; [|split]|intros Ho; split; [|split]].
  - intros toc H. apply ARDFTableOfContents_unpack_triple in H as (n0 & Hp0 & Hc).
    rewrite Hp in Hp0. injection Hp0 as -> -> ->. split; [reflexivity|exact Hc].
  - intros toc H. apply ARDFTextTableOfContents_unpack_triple in H as (n0 & Hp0 & Hc).
    rewrite Hp in Hp0. injection Hp0 as -> -> ->. split; [reflexivity|exact Hc].
  - intros toc H. apply ARDFVolumeTableOfContents_unpack_triple in H as (n0 & Hp0 & Hc).
    rewrite Hp in Hp0. injection Hp0 as -> -> ->. split; [reflexivity|exact Hc].
  - exact (ARDFTableOfContents_unpack_inconsistent mm h size n stride Ho Hp).
  - exact (ARDFTextTableOfContents_unpack_inconsistent mm h size n stride Ho Hp).
  - exact (ARDFVolumeTableOfContents_unpack_inconsistent mm h size n stride Ho Hp).
Qed.

Lemma toc_triple_checked_witness :
  toc_prebody bad_toc_bytes (h_offset bad_toc_header) = Ok (56, 2, 24)
  /\ 0 <= h_offset bad_toc_header
  /\ ~ (24 = 24 /\ 2 * 24 + 32 = 56)
  /\ exists e, ARDFTableOfContents_unpack bad_toc_bytes bad_toc_header = Raise e.
Proof.
  assert (H0 : 0 <= h_offset bad_toc_header) by (simpl; lia).
  assert (Hp : toc_prebody bad_toc_bytes (h_offset bad_toc_header) = Ok (56, 2, 24))
    by (vm_compute; reflexivity).
  assert (Hn : ~ (24 = 24 /\ 2 * 24 + 32 = 56)) by lia.
  repeat split; try assumption.
  destruct (toc_triple_checked bad_toc_bytes bad_toc_header 56 2 24 Hp)
    as (_ & Hbad).
  destruct (Hbad H0) as (Hbad24 & _).
  destruct (Hbad24 Hn) as [e He]. exists e. apply He. reflexivity.
Defined.

(** ** The volume table of contents and its own header *)

(** [ARDFVolumeTableOfContents.unpack] never reads the checksum of the
    header it is given: a table constructed from a header is constructed
    from that header with any other checksum. *)
Lemma ARDFVolumeTableOfContents_unpack_ignores_crc (mm : list byte) (h : ARDFHeader)
    (crc : Z) (toc : ARDFVolumeTableOfContents) :
  ARDFVolumeTableOfContents_unpack mm h = Ok toc ->
  ARDFVolumeTableOfContents_unpack mm
    (mkARDFHeader (h_offset h) crc (h_size h) (h_name h) (h_flags h))
  = Ok toc.
Proof.
  unfold ARDFVolumeTableOfContents_unpack. cbn [h_offset h_size h_name].
  destruct (negb (h_size h =? 32) || negb (h_name h =? "VTOC")%string);
    [discriminate|exact (fun H => H)].
Qed.

(** C8 (defect of the code). The chunk [bad_crc_vtoc_bytes] is a volume
    table of contents whose header checksum is wrong: [validate] raises on
    its header, and the generic table constructor, which validates the
    header it is given, raises the same error; the volume table constructor
    decodes its rows all the same. *)
Theorem vtoc_unpack_skips_header_validation :
  ARDFHeader_validate bad_crc_vtoc_bytes bad_crc_vtoc_header
  = Raise (ValueError_section 0xDEADBEEF 0x36CB2711 bad_crc_vtoc_header)
  /\ ARDFTableOfContents_unpack bad_crc_vtoc_bytes bad_crc_vtoc_header
     = Raise (ValueError_section 0xDEADBEEF 0x36CB2711 bad_crc_vtoc_header)
  /\ ARDFVolumeTableOfContents_unpack bad_crc_vtoc_bytes bad_crc_vtoc_header
     = Ok (mkARDFVolumeTableOfContents 0 72 [0] [0] [760]).
Proof. repeat split; vm_compute; reflexivity. Qed.

(** ** The shape of a parsed volume *)

Lemma ARDFHeader_unpack_offset (mm : list byte) (offset : Z) (h : ARDFHeader) :
  ARDFHeader_unpack mm offset = Ok h -> h_offset h = offset.
Proof.
  unfold ARDFHeader_unpack. destruct (unpack_from 16 mm offset); cbn [bind];
    intros H; try discriminate. injection H as <-. reflexivity.
Qed.

(** One step through a successful run: the next condition did not raise,
    the next call returned. *)
Ltac run_ok H :=
  match type of H with
  | (if ?c then Raise _ else _) = Ok _ =>
      let E := fresh "Hc" in destruct c eqn:E; [discriminate H|]
  | bind ?m _ = Ok _ =>
      let E := fresh "Hm" in
      destruct m eqn:E; cbn [bind] in H; [|discriminate H|discriminate H]
  | (let (_, _) := ?p in _) = Ok _ => destruct p
  | (match ?p with (_, _) => _ end) = Ok _ => destruct p
  end.

(** C9. The shape of a parsed volume is not (lines, points).  The example
    volume declares 3 points and 2 lines, and the reader is built with 2
    lines and 3 points, the order of every array of the module; the shape
    field is (3, 2), the pair (points, lines). *)
Theorem parse_volm_shape_not_lines_points :
  exists v,
    ARDFVolume_parse_volm example_volume example_volm_header = Ok v
    /\ r_lines (vol_reader v) = 2 /\ r_points (vol_reader v) = 3
    /\ vol_shape v = (3, 2)
    /\ vol_shape v <> (r_lines (vol_reader v), r_points (vol_reader v)).
Proof.
  destruct (ARDFVolume_parse_volm example_volume example_volm_header) as [v| |] eqn:E;
    [|vm_compute in E; discriminate E|vm_compute in E; discriminate E].
  exists v. split; [reflexivity|].
  vm_compute in E. injection E as <-. cbn [vol_reader vol_shape r_lines r_points].
  repeat split; try reflexivity. discriminate.
Qed.

(** ** The bisection of the line column *)

Lemma bisect_left_spec (a : list Z) (v : Z) :
  ascending a ->
  forall (fuel lo hi : nat),
    (lo <= hi <= length a)%nat -> (hi - lo <= fuel)%nat ->
    (forall j, (j < lo)%nat -> nth j a 0 < v) ->
    (forall j, (hi <= j < length a)%nat -> v <= nth j a 0) ->
    let i := bisect_left fuel a v lo hi in
    (i <= length a)%nat
    /\ (forall j, (j < i)%nat -> nth j a 0 < v)
    /\ (forall j, (i <= j < length a)%nat -> v <= nth j a 0).
Proof.
  intros Hasc. induction fuel as [|fuel IH]; intros lo hi Hb Hf Hlo Hhi; cbn [bisect_left].
  - assert (lo = hi) by lia. subst hi. repeat split; [lia|exact Hlo|exact Hhi].
  - destruct (Nat.ltb_spec lo hi) as [Hlt|Hge].
    + set (mid := (lo + (hi - lo) / 2)%nat).
      assert (Hmid : (lo <= mid < hi)%nat).
      { unfold mid. assert ((hi - lo) / 2 < hi - lo)%nat by (apply Nat.div_lt; lia). lia. }
      destruct (Z.ltb_spec (nth mid a 0) v) as [Hm|Hm].
      * apply IH; [lia|lia| |exact Hhi].
        intros j Hj. destruct (Nat.lt_ge_cases j lo) as [?|?]; [auto|].
        pose proof (Hasc j mid ltac:(lia)). lia.
      * apply IH; [lia|lia|exact Hlo|].
        intros j Hj. destruct (Nat.lt_ge_cases j hi) as [?|?]; [|apply Hhi; lia].
        pose proof (Hasc mid j ltac:(lia)). lia.
    + assert (lo = hi) by lia. subst hi. repeat split; [lia|exact Hlo|exact Hhi].
Qed.

Lemma searchsorted_spec (a : list Z) (v : Z) :
  ascending a ->
  let i := searchsorted a v in
  (i <= length a)%nat
  /\ (forall j, (j < i)%nat -> nth j a 0 < v)
  /\ (forall j, (i <= j < length a)%nat -> v <= nth j a 0).
Proof.
  intros Hasc. unfold searchsorted. apply bisect_left_spec; try assumption; try lia.
Qed.

(** On an ascending array the search finds every value that is there. *)
Lemma searchsorted_finds (a : list Z) (v : Z) :
  ascending a -> In v a ->
  (searchsorted a v < length a)%nat /\ nth (searchsorted a v) a 0 = v.
Proof.
  intros Hasc Hin. destruct (searchsorted_spec a v Hasc) as (Hle & Hlt & Hge).
  apply (In_nth _ _ 0) in Hin as (k & Hk & Hnth).
  assert (Hik : (searchsorted a v <= k)%nat).
  { destruct (Nat.le_gt_cases (searchsorted a v) k) as [?|Hgt]; [assumption|].
    specialize (Hlt k Hgt). lia. }
  split; [lia|].
  pose proof (Hge (searchsorted a v) ltac:(lia)).
  pose proof (Hasc (searchsorted a v) k ltac:(lia)). lia.
Qed.

(** Whatever the array, the search answers an index that is a position of
    the array or its length. *)
Lemma bisect_left_bound (a : list Z) (v : Z) (fuel lo hi : nat) :
  (lo <= hi)%nat -> (lo <= bisect_left fuel a v lo hi <= hi)%nat.
Proof.
  revert lo hi. induction fuel as [|fuel IH]; intros lo hi Hb; cbn [bisect_left]; [lia|].
  destruct (Nat.ltb_spec lo hi) as [Hlt|Hge]; [|lia].
  set (mid := (lo + (hi - lo) / 2)%nat).
  assert (Hmid : (lo <= mid < hi)%nat).
  { unfold mid. assert ((hi - lo) / 2 < hi - lo)%nat by (apply Nat.div_lt; lia). lia. }
  destruct (nth mid a 0 <? v).
  - specialize (IH (S mid) hi ltac:(lia)). lia.
  - specialize (IH lo mid ltac:(lia)). lia.
Qed.

Lemma last_nth (l : list Z) (d : Z) :
  l <> [] -> List.last l d = nth (length l - 1) l d.
Proof.
  induction l as [|x l IH]; intros Hne; [contradiction|].
  destruct l as [|y l]; [reflexivity|].
  change (List.last (x :: y :: l) d) with (List.last (y :: l) d).
  rewrite IH by discriminate. cbn [length]. 
  replace (S (S (length l)) - 1)%nat with (S (S (length l) - 1)) by lia.
  reflexivity.
Qed.

Lemma ascending_rev (a : list Z) :
  ascending (rev a) ->
  forall i j : nat, (i <= j < length a)%nat -> nth j a 0 <= nth i a 0.
Proof.
  intros Hasc i j Hij.
  specialize (Hasc (length a - S j)%nat (length a - S i)%nat).
  rewrite length_rev in Hasc. specialize (Hasc ltac:(lia)).
  rewrite !rev_nth in Hasc by lia.
  replace (length a - S (length a - S j))%nat with j in Hasc by lia.
  replace (length a - S (length a - S i))%nat with i in Hasc by lia.
  exact Hasc.
Qed.

(** The view that [get_curve] bisects is ascending when the line column is
    monotonic. *)
Lemma np_s_ascending (lines : list Z) (first : Z) (rest : list Z) :
  lines = first :: rest -> monotonic lines ->
  ascending (np_s_ (List.last lines 0 <? first) lines).
Proof.
  intros Hl Hm.
  assert (Hlast : List.last lines 0 = nth (length lines - 1) lines 0)
    by (apply last_nth; subst; discriminate).
  assert (Hfirst : first = nth 0 lines 0) by (subst; reflexivity).
  assert (Hlen : (0 < length lines)%nat) by (subst; cbn; lia).
  unfold np_s_. destruct Hm as [Hasc|Hdesc].
  - replace (List.last lines 0 <? first) with false; [exact Hasc|].
    symmetry. apply Z.ltb_ge. rewrite Hlast, Hfirst. apply Hasc. lia.
  - destruct (Z.ltb_spec (List.last lines 0) first) as [Hlt|Hge]; [exact Hdesc|].
    intros i j Hij.
    pose proof (ascending_rev lines Hdesc 0%nat j ltac:(lia)).
    pose proof (ascending_rev lines Hdesc i (length lines - 1)%nat ltac:(lia)).
    pose proof (ascending_rev lines Hdesc 0%nat i ltac:(lia)).
    pose proof (ascending_rev lines Hdesc j (length lines - 1)%nat ltac:(lia)).
    lia.
Qed.

Lemma np_s_length {A} (reversed : bool) (a : list A) :
  length (np_s_ reversed a) = length a.
Proof. destruct reversed; [apply length_rev|reflexivity]. Qed.

Lemma np_s_In (reversed : bool) (a : list Z) (v : Z) :
  In v (np_s_ reversed a) <-> In v a.
Proof. destruct reversed; [symmetry; apply in_rev|reflexivity]. Qed.

(** A row of a monotonic line column is found. *)
Lemma get_curve_row_pointer_present (vtoc : ARDFVolumeTableOfContents) (r : Z) :
  monotonic (vtoc_lines vtoc) ->
  length (vtoc_pointers vtoc) = length (vtoc_lines vtoc) ->
  In r (vtoc_lines vtoc) ->
  exists p, get_curve_row_pointer vtoc r = Ok (Some p).
Proof.
  intros Hm Hlen Hin. unfold get_curve_row_pointer.
  destruct (vtoc_lines vtoc) as [|first rest] eqn:Hl; [contradiction|].
  rewrite <- Hl in *.
  set (reversed := List.last (vtoc_lines vtoc) 0 <? first).
  pose proof (np_s_ascending _ _ _ Hl Hm) as Hasc. fold reversed in Hasc.
  destruct (searchsorted_finds (np_s_ reversed (vtoc_lines vtoc)) r Hasc) as [Hi Hv].
  { apply np_s_In. exact Hin. }
  rewrite np_s_length in Hi.
  replace (length (vtoc_lines vtoc) <=? _)%nat with false
    by (symmetry; apply Nat.leb_gt; exact Hi).
  rewrite Hv, Z.eqb_refl. cbn [negb orb].
  destruct (lookup_lt_is_Some_2 (np_s_ reversed (vtoc_pointers vtoc))
              (searchsorted (np_s_ reversed (vtoc_lines vtoc)) r)) as [p Hp].
  { rewrite np_s_length, Hlen. exact Hi. }
  rewrite Hp. exists p. reflexivity.
Qed.

(** A row that is not in a non-empty line column is not found, whatever the
    order of the column. *)
Lemma get_curve_row_pointer_absent (vtoc : ARDFVolumeTableOfContents) (r : Z) :
  vtoc_lines vtoc <> [] -> ~ In r (vtoc_lines vtoc) ->
  get_curve_row_pointer vtoc r = Ok None.
Proof.
  intros Hne Hnin. unfold get_curve_row_pointer.
  destruct (vtoc_lines vtoc) as [|first rest] eqn:Hl; [contradiction|].
  rewrite <- Hl in *.
  set (reversed := List.last (vtoc_lines vtoc) 0 <? first).
  set (i := searchsorted (np_s_ reversed (vtoc_lines vtoc)) r).
  destruct (Nat.leb_spec (length (vtoc_lines vtoc)) i) as [Hge|Hlt]; [reflexivity|].
  cbn [orb].
  destruct (Z.eqb_spec r (nth i (np_s_ reversed (vtoc_lines vtoc)) 0)) as [He|_];
    [|reflexivity].
  exfalso. apply Hnin. apply (np_s_In reversed). rewrite He.
  apply nth_In. rewrite np_s_length. exact Hlt.
Qed.

(** ** The node chain and the cache of the force-map reader *)

Lemma traverse_vsets_next_at (mm : list byte) (seen : gmap (Z * Z * Z) ARDFVset)
    (p : Z) :
  traverse_vsets_next mm seen p
  = (vset_at mm p,
     match vset_at mm p with
     | Ok (Some v) => see v seen
     | _ => seen
     end).
Proof.
  unfold vset_at, traverse_vsets_next, see, vset_index.
  destruct (ARDFHeader_unpack mm p) as [h|e|]; try reflexivity.
  destruct (negb (h_name h =? "VSET")%string); try reflexivity.
  destruct (ARDFVset_unpack mm h); reflexivity.
Qed.

Lemma vset_at_offset (mm : list byte) (p : Z) (v : ARDFVset) :
  vset_at mm p = Ok (Some v) -> vs_offset v = p.
Proof.
  unfold vset_at, traverse_vsets_next.
  destruct (ARDFHeader_unpack mm p) as [h|e|] eqn:Hh; try discriminate.
  destruct (negb (h_name h =? "VSET")%string); try discriminate.
  destruct (ARDFVset_unpack mm h) as [v'|e|] eqn:Hv; try discriminate.
  cbn [fst]. intros H. injection H as <-.
  unfold ARDFVset_unpack in Hv.
  destruct (negb (h_name h =? "VSET")%string); try discriminate.
  destruct (ARDFHeader_validate mm h); cbn [bind] in Hv; try discriminate.
  destruct (unpack_from 32 mm (h_offset h + 16)); cbn [bind] in Hv; try discriminate.
  injection Hv as <-. cbn [vs_offset]. exact (ARDFHeader_unpack_offset _ _ _ Hh).
Qed.


Lemma see_lookup_None (u : ARDFVset) (seen : gmap (Z * Z * Z) ARDFVset)
    (k : Z * Z * Z) :
  vset_index u <> k -> seen !! k = None -> see u seen !! k = None.
Proof.
  intros Hne H. unfold see. destruct (seen !! vset_index u); [exact H|].
  rewrite lookup_insert_ne; assumption.
Qed.



Lemma seen_after_lookup_None (vs : list ARDFVset) (seen : gmap (Z * Z * Z) ARDFVset)
    (k : Z * Z * Z) :
  Forall (fun v => vset_index v <> k) vs -> seen !! k = None ->
  seen_after vs seen !! k = None.
Proof.
  intros Hvs. revert seen. induction Hvs as [|u vs Hu _ IH]; intros seen H; [exact H|].
  cbn [seen_after fold_left]. apply IH, see_lookup_None; assumption.
Qed.

(** Reading a line visits the nodes of [line_walk] and leaves them in the
    cache. *)
Lemma get_curve_read_line_walk (mm : list byte) (r : Z) (vs : list ARDFVset) :
  forall (p : Z) (seen : gmap (Z * Z * Z) ARDFVset) (fuel : nat),
    line_walk mm r p vs -> (length vs < fuel)%nat ->
    get_curve_read_line fuel mm r p seen = (Ok tt, seen_after vs seen).
Proof.
  induction vs as [|v vs IH]; intros p seen fuel Hw Hf;
    (destruct fuel as [|fuel]; [cbn [length] in Hf; lia|]);
    cbn [get_curve_read_line]; rewrite traverse_vsets_next_at.
  - cbn [line_walk] in Hw. rewrite Hw. reflexivity.
  - cbn [line_walk] in Hw. destruct Hw as [Hv Hw]. rewrite Hv.
    destruct (vs_line v =? r).
    + cbn [negb]. rewrite (IH _ _ _ Hw) by (cbn [length] in Hf; lia). reflexivity.
    + subst vs. reflexivity.
Qed.

(** ** get_curve: bounds, rows that are not listed, points that are missing *)

Lemma get_curve_in_range (to_nanometers : Z -> Z) (fuel : nat) (mm : list byte)
    (rd : ARDFForceMapReader) (seen : gmap (Z * Z * Z) ARDFVset) (r c : Z) :
  0 <= r < r_lines rd -> 0 <= c < r_points rd ->
  negb ((0 <=? r) && (r <? r_lines rd) && ((0 <=? c) && (c <? r_points rd))) = false.
Proof.
  intros Hr Hc. apply negb_false_iff.
  repeat (apply andb_true_iff; split); (apply Z.leb_le || apply Z.ltb_lt); lia.
Qed.

(** C2 (as the code has it). [get_curve] raises the "Invalid index"
    ValueError for a pair outside the grid.  For a pair inside the grid whose
    key is not yet in the cache, on a volume table with at least one row of
    which no line is [r], it returns the cache untouched and the float32
    array of shape (2, 2, 100) filled with NaN. *)
Theorem get_curve_out_of_range_or_unlisted_row (to_nanometers : Z -> Z) (fuel : nat)
    (mm : list byte) (rd : ARDFForceMapReader) (seen : gmap (Z * Z * Z) ARDFVset)
    (r c : Z) :
  (~ (0 <= r < r_lines rd /\ 0 <= c < r_points rd) ->
   get_curve to_nanometers fuel mm rd seen r c
   = (Raise (ValueError_index (r_lines rd, r_points rd) (r, c)), seen))
  /\ (0 <= r < r_lines rd /\ 0 <= c < r_points rd ->
      seen !! (r, c, r_vtype rd) = None ->
      vtoc_lines (r_vtoc rd) <> [] ->
      ~ In r (vtoc_lines (r_vtoc rd)) ->
      get_curve to_nanometers fuel mm rd seen r c
      = (Ok (zd_ndarray (repeat (repeat (repeat float32_nan 100) 2) 2)), seen)).
Proof.
  split.
  - intros Hout. unfold get_curve.
    destruct (negb _) eqn:Hb; [reflexivity|].
    exfalso. apply Hout. apply negb_false_iff in Hb.
    repeat (apply andb_true_iff in Hb as [Hb ?]).
    repeat match goal with
           | H : (_ <=? _) = true |- _ => apply Z.leb_le in H
           | H : (_ <? _) = true |- _ => apply Z.ltb_lt in H
           end.
    lia.
  - intros [Hr Hc] Hseen Hne Hnin. unfold get_curve.
    rewrite (get_curve_in_range to_nanometers fuel mm rd seen r c Hr Hc).
    rewrite Hseen, (get_curve_row_pointer_absent _ _ Hne Hnin). reflexivity.
Qed.

Lemma get_curve_out_of_range_or_unlisted_row_witness :
  get_curve float32_times_1e9 10 unlisted_row_volume unlisted_row_reader ∅ 3 0
  = (Raise (ValueError_index (3, 1) (3, 0)), ∅)
  /\ get_curve float32_times_1e9 10 unlisted_row_volume unlisted_row_reader ∅ 1 0
     = (Ok (zd_ndarray (repeat (repeat (repeat float32_nan 100) 2) 2)), ∅).
Proof.
  destruct (get_curve_out_of_range_or_unlisted_row float32_times_1e9 10
              unlisted_row_volume unlisted_row_reader ∅ 3 0) as [Hout _].
  destruct (get_curve_out_of_range_or_unlisted_row float32_times_1e9 10
              unlisted_row_volume unlisted_row_reader ∅ 1 0) as [_ Hin].
  split.
  - apply Hout. cbn. lia.
  - apply Hin.
    + cbn. lia.
    + reflexivity.
    + discriminate.
    + cbn. intros [H|[H|[]]]; discriminate H.
Defined.

(** The claim as it is written fails once the cache holds the key: in
    [unlisted_row_volume] the line 1 is not in the volume table; reading the
    pixel (0, 0) leaves the node (1, 0) in the cache, and [get_curve] then
    returns the samples of the pixel (1, 0), not the NaN array. *)
Lemma get_curve_unlisted_row_from_cache :
  let rd := unlisted_row_reader in
  let seen := snd (get_curve float32_times_1e9 10 unlisted_row_volume rd ∅ 0 0) in
  (0 <= 1 < r_lines rd /\ 0 <= 0 < r_points rd)
  /\ ~ In 1 (vtoc_lines (r_vtoc rd))
  /\ fst (get_curve float32_times_1e9 10 unlisted_row_volume rd seen 1 0)
     = Ok (zd_tuple
             (map float32_times_1e9 [4097; 4098], map float32_times_1e9 [4099; 4100])
             (map float32_times_1e9 [4113; 4114], map float32_times_1e9 [4115; 4116]))
  /\ fst (get_curve float32_times_1e9 10 unlisted_row_volume rd seen 1 0)
     <> Ok (zd_ndarray (repeat (repeat (repeat float32_nan 100) 2) 2)).
Proof.
  cbv zeta. split; [cbn; lia|]. split.
  - cbn. intros [H|[H|[]]]; discriminate H.
  - assert (He : fst (get_curve float32_times_1e9 10 unlisted_row_volume
                        unlisted_row_reader
                        (snd (get_curve float32_times_1e9 10 unlisted_row_volume
                                unlisted_row_reader ∅ 0 0)) 1 0)
                 = Ok (zd_tuple
                         (map float32_times_1e9 [4097; 4098],
                          map float32_times_1e9 [4099; 4100])
                         (map float32_times_1e9 [4113; 4114],
                          map float32_times_1e9 [4115; 4116])))
      by (vm_compute; reflexivity).
    split; [exact He|]. rewrite He. discriminate.
Qed.



(** C10 (amended). Let the row [r] be in the monotonic line column of the
    volume table, and the key (r, c, kind) not be in the cache.  Then the bisection
    finds the pointer of the row, and when the line read from that pointer
    ends (at the end of the chain or at the first node of another line)
    without a node of index (r, c, kind), [get_curve] raises the KeyError of
    the cache lookup; it returns no NaN array and raises none of the
    ValueErrors. *)
Theorem get_curve_missing_point_KeyError (to_nanometers : Z -> Z) (mm : list byte)
    (rd : ARDFForceMapReader) (seen : gmap (Z * Z * Z) ARDFVset) (r c : Z) :
  0 <= r < r_lines rd -> 0 <= c < r_points rd ->
  monotonic (vtoc_lines (r_vtoc rd)) ->
  length (vtoc_pointers (r_vtoc rd)) = length (vtoc_lines (r_vtoc rd)) ->
  In r (vtoc_lines (r_vtoc rd)) ->
  seen !! (r, c, r_vtype rd) = None ->
  exists p,
    get_curve_row_pointer (r_vtoc rd) r = Ok (Some p)
    /\ forall (vs : list ARDFVset) (fuel : nat),
         line_walk mm r p vs ->
         Forall (fun v => vset_index v <> (r, c, r_vtype rd)) vs ->
         (length vs < fuel)%nat ->
         get_curve to_nanometers fuel mm rd seen r c
         = (Raise (KeyError_curve (r, c, r_vtype rd)), seen_after vs seen).
Proof.
  intros Hr Hc Hmono Hlen Hin Hseen.
  destruct (get_curve_row_pointer_present _ r Hmono Hlen Hin) as [p Hp].
  exists p. split; [exact Hp|]. intros vs fuel Hwalk Hvs Hfuel.
  unfold get_curve.
  rewrite (get_curve_in_range to_nanometers fuel mm rd seen r c Hr Hc).
  rewrite Hseen, Hp, (get_curve_read_line_walk mm r vs p seen fuel Hwalk Hfuel).
  rewrite (seen_after_lookup_None vs seen _ Hvs Hseen). reflexivity.
Qed.

Lemma ascending_0_1 : ascending [0; 1].
Proof.
  intros i j Hij. cbn [length] in Hij.
  destruct i as [|[|i]]; destruct j as [|[|j]]; cbn; lia.
Qed.

Lemma get_curve_missing_point_KeyError_witness :
  get_curve float32_times_1e9 10 missing_point_volume missing_point_reader ∅ 0 1
  = (Raise (KeyError_curve (0, 1, 2)), seen_after (take 3 missing_point_chain) ∅).
Proof.
  destruct (get_curve_missing_point_KeyError float32_times_1e9 missing_point_volume
              missing_point_reader ∅ 0 1) as (p & Hp & Hkey).
  - cbn. lia.
  - cbn. lia.
  - left. exact ascending_0_1.
  - reflexivity.
  - cbn. auto.
  - reflexivity.
  - assert (p = 760) by (vm_compute in Hp; congruence). subst p.
    apply Hkey.
    + cbn. repeat split; vm_compute; reflexivity.
    + repeat constructor; discriminate.
    + cbn. lia.
Defined.

(** C10 as stated fails on a line column that is not sorted.  The volume
    [unsorted_volume] parses; its table lists the lines 0, 2, 1, so the
    row 1 is present, and the chain read from the pointer of that row holds
    the node (1, 0) only; the bisection misses the row, and [get_curve 1 1]
    returns the NaN array where the claim has a KeyError. *)
Lemma get_curve_unsorted_row_nan :
  let rd := unsorted_reader in
  (exists v,
     ARDFVolume_parse_volm unsorted_volume (header_at unsorted_volume 0) = Ok v
     /\ vol_reader v = rd)
  /\ 0 <= 1 < r_lines rd /\ 0 <= 1 < r_points rd
  /\ vtoc_lines (r_vtoc rd) = [0; 2; 1]
  /\ (exists p vs,
        vtoc_pointers (r_vtoc rd) !! 2%nat = Some p
        /\ line_walk unsorted_volume 1 p vs
        /\ Forall (fun v => vset_index v <> (1, 1, r_vtype rd)) vs)
  /\ get_curve float32_times_1e9 10 unsorted_volume rd ∅ 1 1 = (Ok nan_placeholder, ∅)
  /\ fst (get_curve float32_times_1e9 10 unsorted_volume rd ∅ 1 1)
     <> Raise (KeyError_curve (1, 1, r_vtype rd)).
Proof.
  cbv zeta. split.
  - destruct (ARDFVolume_parse_volm unsorted_volume (header_at unsorted_volume 0))
      as [v| |] eqn:E; [|vm_compute in E; discriminate E|vm_compute in E; discriminate E].
    exists v. split; [reflexivity|]. vm_compute in E. injection E as <-. reflexivity.
  - split; [cbn; lia|]. split; [cbn; lia|]. split; [reflexivity|]. split.
    + exists 1920, (vsets_from 10 unsorted_volume 1920). split; [reflexivity|]. split.
      * vm_compute. repeat split.
      * vm_compute. repeat constructor; discriminate.
    + assert (E : get_curve float32_times_1e9 10 unsorted_volume unsorted_reader ∅ 1 1
                  = (Ok nan_placeholder, ∅)) by (vm_compute; reflexivity).
      split; [exact E|]. rewrite E. discriminate.
Qed.

(** ** Random access and iteration read the same nodes *)

Section ReaderAgreement.

Variable to_nanometers : Z -> Z.
Variable mm : list byte.
Variable rd : ARDFForceMapReader.








(** *** The cache along a chain without repeated keys *)


Lemma see_consistent (chain : list ARDFVset) (u : ARDFVset)
    (seen : gmap (Z * Z * Z) ARDFVset) :
  In u chain -> seen_consistent chain seen -> seen_consistent chain (see u seen).
Proof.
  intros Hu Hs k x. unfold see. destruct (seen !! vset_index u) eqn:Hl; [apply Hs|].
  destruct (decide (vset_index u = k)) as [<-|Hne].
  - rewrite lookup_insert_eq. intros H. injection H as <-. split; [exact Hu|reflexivity].
  - rewrite lookup_insert_ne by exact Hne. apply Hs.
Qed.

Lemma seen_after_consistent (chain vs : list ARDFVset)
    (seen : gmap (Z * Z * Z) ARDFVset) :
  (forall u, In u vs -> In u chain) -> seen_consistent chain seen ->
  seen_consistent chain (seen_after vs seen).
Proof.
  revert seen. induction vs as [|u vs IH]; intros seen Hvs Hs; [exact Hs|].
  cbn [seen_after fold_left]. apply IH.
  - intros x Hx. apply Hvs. right. exact Hx.
  - apply see_consistent; [apply Hvs; left; reflexivity|exact Hs].
Qed.





(** *** From the conditions on the bytes to the runs of the code *)








End ReaderAgreement.





(** ** get_all_curves against get_curve *)

(** C4 (defect of the code). The example volume has the channels "Raw" (0),
    "Defl" (1) and "ZSnsr" (2), so the height channel of [get_curve] is
    "Raw"; all its curves have 2 extend samples, so the trimming to the
    minimum changes nothing.  [get_all_curves] returns an array of shape
    (2, 3, 2, 2, 2) whose deflection rows for the pixel (0, 0) are those of
    [get_curve 0 0], but whose height rows are the samples of the channel
    "ZSnsr", not those of "Raw" that [get_curve] returns. *)
Theorem get_all_curves_height_channel_differs :
  zname example_reader = "Raw"%string
  /\ fst (get_curve float32_times_1e9 10 example_volume example_reader ∅ 0 0)
     = Ok (zd_tuple (map float32_times_1e9 [1; 2], map float32_times_1e9 [3; 4])
             (map float32_times_1e9 [17; 18], map float32_times_1e9 [19; 20]))
  /\ exists x,
       fst (get_all_curves float32_times_1e9 10 example_volume example_reader ∅) = Ok x
       /\ ca_shape x = (2, 3, 2, 2, 2)
       /\ ca_cells x !! (0, 0)
          = Some ((map float32_times_1e9 [33; 34], map float32_times_1e9 [35; 36]),
                  (map float32_times_1e9 [17; 18], map float32_times_1e9 [19; 20]))
       /\ ca_cells x !! (0, 0)
          <> (match fst (get_curve float32_times_1e9 10 example_volume example_reader
                           ∅ 0 0) with
              | Ok zd => trim_curve 2 zd
              | _ => None
              end).
Proof.
  split; [reflexivity|]. split; [vm_compute; reflexivity|].
  destruct (fst (get_all_curves float32_times_1e9 10 example_volume example_reader ∅))
    as [x| |] eqn:Hx; [|vm_compute in Hx; discriminate Hx|vm_compute in Hx; discriminate Hx].
  exists x. split; [reflexivity|].
  vm_compute in Hx. injection Hx as <-.
  split; [reflexivity|]. split; [vm_compute; reflexivity|].
  vm_compute. discriminate.
Qed.

(** ** The cache of open paths *)

Section ResourceCacheFacts.

Variable open_and_parse : string -> res unit.

Lemma setstate_caches (path : string) (s s1 : cache_state) (h : nat * nat) :
  ARDFFile_setstate open_and_parse path s = (Ok h, s1) ->
  cs_now s1 = cs_now s
  /\ exists e,
       CACHED_OPEN_PATHS s1 !! path = Some e /\ (ce_mm e, ce_worker e) = h
       /\ (ce_locked e = true -> ce_waiting_since e = cs_now s).
Proof.
  unfold ARDFFile_setstate. destruct (CACHED_OPEN_PATHS s !! path) as [e|].
  - intros H. injection H as <- <-. cbn. split; [reflexivity|].
    eexists. rewrite lookup_insert_eq. split; [reflexivity|]. split; [reflexivity|].
    cbn. discriminate.
  - destruct (open_and_parse path); try discriminate.
    intros H. injection H as <- <-. cbn. split; [reflexivity|].
    eexists. rewrite lookup_insert_eq. split; [reflexivity|]. split; reflexivity.
Qed.

Lemma setstate_cached (path : string) (s : cache_state) (e : cache_entry) :
  CACHED_OPEN_PATHS s !! path = Some e ->
  fst (ARDFFile_setstate open_and_parse path s) = Ok (ce_mm e, ce_worker e)
  /\ cs_opens (snd (ARDFFile_setstate open_and_parse path s)) = cs_opens s.
Proof. unfold ARDFFile_setstate. intros ->. split; reflexivity. Qed.

Lemma elapse_lookup (dt : Z) (s : cache_state) (path : string) :
  CACHED_OPEN_PATHS (elapse dt s) !! path
  = (CACHED_OPEN_PATHS s !! path ≫= eventually_evict_path (cs_now s))
      ≫= eventually_evict_path (cs_now s + dt).
Proof. unfold elapse. cbn. rewrite !lookup_omap. reflexivity. Qed.

Lemma setstate_opened_before (path : string) (s s1 : cache_state) (r : res (nat * nat)) :
  cache_opened_before s ->
  ARDFFile_setstate open_and_parse path s = (r, s1) ->
  cache_opened_before s1 /\ (cs_opens s <= cs_opens s1)%nat.
Proof.
  unfold ARDFFile_setstate, cache_opened_before. intros Hs.
  destruct (CACHED_OPEN_PATHS s !! path) as [e|] eqn:He.
  - intros H. injection H as <- <-. cbn. split; [|lia]. intros p e'.
    destruct (decide (path = p)) as [<-|Hne].
    + rewrite lookup_insert_eq. intros H. injection H as <-. cbn. exact (Hs _ _ He).
    + rewrite lookup_insert_ne by exact Hne. apply Hs.
  - destruct (open_and_parse path); intros H; injection H as <- <-;
      try (split; [exact Hs|lia]).
    cbn. split; [|lia]. intros p e'.
    destruct (decide (path = p)) as [<-|Hne].
    + rewrite lookup_insert_eq. intros H. injection H as <-. cbn. lia.
    + rewrite lookup_insert_ne by exact Hne. intros H. specialize (Hs _ _ H). lia.
Qed.

Lemma empty_cache_opened_before : cache_opened_before empty_cache.
Proof. intros path e H. cbn in H. rewrite lookup_empty in H. discriminate. Qed.

Lemma eventually_evict_path_mm (t : Z) (e e' : cache_entry) :
  eventually_evict_path t e = Some e' -> ce_mm e' = ce_mm e.
Proof.
  unfold eventually_evict_path.
  destruct (lock_acquire eviction_timeout (ce_locked e) (ce_waiting_since e) t);
    intros H; try discriminate; injection H as <-; reflexivity.
Qed.

Lemma elapse_opened_before (dt : Z) (s : cache_state) :
  cache_opened_before s -> cache_opened_before (elapse dt s).
Proof.
  intros Hs path e. rewrite elapse_lookup.
  destruct (CACHED_OPEN_PATHS s !! path) as [e0|] eqn:H0; [|discriminate].
  cbn [mbind option_bind].
  destruct (eventually_evict_path (cs_now s) e0) as [e1|] eqn:H1; [|discriminate].
  cbn [mbind option_bind]. intros H2.
  rewrite (eventually_evict_path_mm _ _ _ H2), (eventually_evict_path_mm _ _ _ H1).
  exact (Hs _ _ H0).
Qed.

(** An entry as a call of [__setstate__] at the time [now] leaves it: its
    lock is free, or held with the watcher blocked since [now]. *)
Lemma entry_survives (now dt : Z) (e : cache_entry) :
  (ce_locked e = true -> ce_waiting_since e = now) ->
  0 <= dt < eviction_timeout ->
  (eventually_evict_path now e ≫= eventually_evict_path (now + dt))
  = Some (mk_cache_entry (ce_mm e) (ce_worker e) true now).
Proof.
  intros He Hdt. unfold eviction_timeout in Hdt.
  destruct e as [mm w locked since]. cbn [ce_locked ce_waiting_since] in He.
  unfold eventually_evict_path, lock_acquire, eviction_timeout.
  destruct locked; cbn.
  - rewrite (He eq_refl). destruct (Z.leb_spec (now + 10) now); [lia|]. cbn.
    destruct (Z.leb_spec (now + 10) (now + dt)); [lia|reflexivity].
  - destruct (Z.leb_spec (now + 10) (now + dt)); [lia|reflexivity].
Qed.

Lemma entry_evicted (now dt : Z) (e : cache_entry) :
  (ce_locked e = true -> ce_waiting_since e = now) ->
  eviction_timeout <= dt ->
  (eventually_evict_path now e ≫= eventually_evict_path (now + dt)) = None.
Proof.
  intros He Hdt. unfold eviction_timeout in Hdt.
  destruct e as [mm w locked since]. cbn [ce_locked ce_waiting_since] in He.
  unfold eventually_evict_path, lock_acquire, eviction_timeout.
  destruct locked; cbn.
  - rewrite (He eq_refl). destruct (Z.leb_spec (now + 10) now); [lia|]. cbn.
    destruct (Z.leb_spec (now + 10) (now + dt)); [reflexivity|lia].
  - destruct (Z.leb_spec (now + 10) (now + dt)); [reflexivity|lia].
Qed.

Lemma setstate_again_within_window (path : string) (s s1 : cache_state) (h : nat * nat)
    (dt : Z) :
  ARDFFile_setstate open_and_parse path s = (Ok h, s1) ->
  0 <= dt < eviction_timeout ->
  exists s2,
    ARDFFile_setstate open_and_parse path (elapse dt s1) = (Ok h, s2)
    /\ cs_opens s2 = cs_opens s1.
Proof.
  intros H Hdt. apply setstate_caches in H as (Hnow & e & He & Hh & Hw).
  assert (Hl : CACHED_OPEN_PATHS (elapse dt s1) !! path
               = Some (mk_cache_entry (ce_mm e) (ce_worker e) true (cs_now s1))).
  { rewrite elapse_lookup, He. cbn.
    apply entry_survives; [rewrite Hnow; exact Hw|exact Hdt]. }
  destruct (setstate_cached path _ _ Hl) as [H1 H2]. cbn in H1, H2.
  destruct (ARDFFile_setstate open_and_parse path (elapse dt s1)) as [r s2].
  cbn in H1, H2. exists s2. rewrite H1, Hh, H2. split; reflexivity.
Qed.

Lemma reacquire_after_same (path : string) (gaps : list Z) :
  Forall (fun dt => 0 <= dt < eviction_timeout) gaps ->
  forall (s s1 : cache_state) (h : nat * nat) (dt : Z),
    ARDFFile_setstate open_and_parse path s = (Ok h, s1) ->
    0 <= dt < eviction_timeout ->
    fst (ARDFFile_setstate open_and_parse path
           (elapse dt (reacquire_after open_and_parse path gaps s1))) = Ok h
    /\ cs_opens (reacquire_after open_and_parse path gaps s1) = cs_opens s1.
Proof.
  induction 1 as [|g gaps Hg _ IH]; intros s s1 h dt H Hdt.
  - destruct (setstate_again_within_window path s s1 h dt H Hdt) as (s2 & H2 & _).
    cbn. rewrite H2. split; reflexivity.
  - destruct (setstate_again_within_window path s s1 h g H Hg) as (s2 & H2 & Ho).
    cbn [reacquire_after fold_left]. rewrite H2. cbn [snd].
    destruct (IH _ s2 h dt H2 Hdt) as [IH1 IH2]. unfold reacquire_after in *.
    rewrite IH1, IH2, Ho. split; reflexivity.
Qed.

End ResourceCacheFacts.

(** C6. Let a call [__setstate__] for [path] attach a file object to the
    map object and worker [h].  A second call less than 10 time units later
    attaches to the same [h] and opens nothing, and so does every further
    call that comes less than 10 units after the call before it; a call
    directly after a call releases a lock that is already free, which is no
    error and changes nothing.  When 10 units or more pass without a call,
    the watcher has deleted the entry of the path, and the next call opens
    and parses the file again: it attaches to a new map object. *)
Theorem cache_window_and_eviction (open_and_parse : string -> res unit) (path : string)
    (s s1 : cache_state) (h : nat * nat) :
  cache_opened_before s ->
  open_and_parse path = Ok tt ->
  ARDFFile_setstate open_and_parse path s = (Ok h, s1) ->
  (forall gaps dt,
      Forall (fun dt => 0 <= dt < eviction_timeout) gaps ->
      0 <= dt < eviction_timeout ->
      fst (ARDFFile_setstate open_and_parse path
             (elapse dt (reacquire_after open_and_parse path gaps s1))) = Ok h
      /\ cs_opens (reacquire_after open_and_parse path gaps s1) = cs_opens s1)
  /\ (exists s2,
        ARDFFile_setstate open_and_parse path s1 = (Ok h, s2)
        /\ ARDFFile_setstate open_and_parse path s2 = (Ok h, s2))
  /\ (forall dt,
        eviction_timeout <= dt ->
        CACHED_OPEN_PATHS (elapse dt s1) !! path = None
        /\ fst h <> cs_opens s1
        /\ exists s3,
             ARDFFile_setstate open_and_parse path (elapse dt s1)
             = (Ok (cs_opens s1, cs_opens s1), s3)
             /\ cs_opens s3 = S (cs_opens s1)).
Proof.
  intros Hwf Hopen H.
  pose proof (setstate_caches open_and_parse path s s1 h H) as (Hnow & e & He & Hh & Hw).
  split; [|split].
  - intros gaps dt Hgaps Hdt.
    exact (reacquire_after_same open_and_parse path gaps Hgaps s s1 h dt H Hdt).
  - unfold ARDFFile_setstate at 1. rewrite He, Hh. eexists. split; [reflexivity|].
    unfold ARDFFile_setstate. cbn [CACHED_OPEN_PATHS cs_now cs_opens].
    rewrite lookup_insert_eq. cbn [ce_mm ce_worker ce_waiting_since].
    rewrite Hh, insert_insert_eq. reflexivity.
  - intros dt Hdt.
    assert (Hgone : CACHED_OPEN_PATHS (elapse dt s1) !! path = None).
    { rewrite elapse_lookup, He. cbn. apply entry_evicted; [rewrite Hnow; exact Hw|exact Hdt]. }
    split; [exact Hgone|]. split.
    + destruct (setstate_opened_before open_and_parse path s s1 _ Hwf H) as [Hwf1 _].
      specialize (Hwf1 _ _ He). rewrite <- Hh. cbn [fst]. lia.
    + unfold ARDFFile_setstate. rewrite Hgone, Hopen. eexists. split; reflexivity.
Qed.

Lemma cache_window_and_eviction_witness :
  let parse := fun _ : string => Ok tt in
  let s1 := snd (ARDFFile_setstate parse "map.ardf" empty_cache) in
  fst (ARDFFile_setstate parse "map.ardf" empty_cache) = Ok (0%nat, 0%nat)
  /\ fst (ARDFFile_setstate parse "map.ardf" (elapse 9 s1)) = Ok (0%nat, 0%nat)
  /\ fst (ARDFFile_setstate parse "map.ardf"
            (elapse 9 (reacquire_after parse "map.ardf" [9; 9; 9] s1)))
     = Ok (0%nat, 0%nat)
  /\ fst (ARDFFile_setstate parse "map.ardf" (elapse 10 s1)) = Ok (1%nat, 1%nat).
Proof.
  cbv zeta.
  destruct (cache_window_and_eviction (fun _ => Ok tt) "map.ardf" empty_cache
              (snd (ARDFFile_setstate (fun _ => Ok tt) "map.ardf" empty_cache))
              (0%nat, 0%nat)) as (Hsame & _ & Hevict).
  - intros p e He. cbn in He. rewrite lookup_empty in He. discriminate.
  - reflexivity.
  - reflexivity.
  - split; [reflexivity|]. split.
    + apply (Hsame [] 9); [constructor|unfold eviction_timeout; lia].
    + split.
      * apply (Hsame [9; 9; 9] 9); [|unfold eviction_timeout; lia].
        repeat constructor; unfold eviction_timeout; lia.
      * destruct (Hevict 10) as (_ & _ & s3 & H3 & _); [unfold eviction_timeout; lia|].
        rewrite H3. reflexivity.
Defined.

(** ** What the tables of contents hold once they are unpacked *)

Lemma le_uint_nonneg (bs : list byte) : 0 <= le_uint bs.
Proof.
  induction bs as [|b bs IH]; cbn [le_uint]; [lia|].
  pose proof (byte_to_Z_range b). lia.
Qed.

Lemma uint_at_nonneg (bs : list byte) (pos len : nat) : 0 <= uint_at bs pos len.
Proof. apply le_uint_nonneg. Qed.

Lemma py_range_lookup (start stop step : Z) (k : nat) (x : Z) :
  py_range start stop step !! k = Some x -> x = start + step * Z.of_nat k.
Proof.
  unfold py_range. rewrite list_lookup_fmap.
  destruct (seq 0 _ !! k) as [j|] eqn:Hj; [|discriminate].
  apply lookup_seq in Hj as [-> _]. cbn. intros H. injection H as <-. reflexivity.
Qed.

Lemma py_range_length (start size step n : Z) :
  0 < step -> 0 <= n -> size - 32 = n * step ->
  length (py_range (start + 32) (start + size) step) = Z.to_nat n.
Proof.
  intros Hs Hn He. unfold py_range. rewrite length_map, length_seq. f_equal.
  replace (start + size - (start + 32) + step - 1) with (n * step + (step - 1)) by lia.
  rewrite Z.div_add_l by lia. rewrite Z.div_small by lia. lia.
Qed.

Lemma toc_prebody_nonneg (mm : list byte) (offset size n stride : Z) :
  toc_prebody mm offset = Ok (size, n, stride) -> 0 <= size /\ 0 <= n /\ 0 <= stride.
Proof.
  unfold toc_prebody. destruct (unpack_from 16 mm (offset + 16)); cbn [bind]; try discriminate.
  intros H. injection H as <- <- <-. repeat split; apply uint_at_nonneg.
Qed.

Lemma ARDFHeader_validate_Ok (mm : list byte) (h : ARDFHeader) (b : bool) :
  ARDFHeader_validate mm h = Ok b -> b = true.
Proof.
  unfold ARDFHeader_validate. destruct (negb _); [discriminate|]. congruence.
Qed.

Lemma ARDFTableOfContents_entries_spec (mm : list byte) (offsets : list Z)
    (acc entries : list (ARDFHeader * Z)) :
  ARDFTableOfContents_entries mm offsets acc = Ok entries ->
  exists new,
    entries = acc ++ new
    /\ (length new <= length offsets)%nat
    /\ forall (k : nat) e p, new !! k = Some (e, p) ->
         offsets !! k = Some (h_offset e)
         /\ (exists bs,
               unpack_from 24 mm (h_offset e) = Ok bs
               /\ e = mkARDFHeader (h_offset e) (uint_at bs 0 4) (uint_at bs 4 4)
                        (bytes_at bs 8 4) (uint_at bs 12 4)
               /\ p = uint_at bs 16 8)
         /\ In (h_name e) toc_entry_names
         /\ p <> 0
         /\ ARDFHeader_validate mm e = Ok true.
Proof.
  revert acc. induction offsets as [|off rest IH]; intros acc H;
    cbn [ARDFTableOfContents_entries] in H.
  - injection H as <-. exists []. rewrite app_nil_r. split; [reflexivity|].
    split; [cbn; lia|]. intros k e p Hk. rewrite lookup_nil in Hk. discriminate.
  - destruct (unpack_from 24 mm off) as [bs| |] eqn:Hbs; cbn [bind] in H; try discriminate.
    destruct (Z.eqb_spec (uint_at bs 16 8) 0) as [Hp|Hp].
    + injection H as <-. exists []. rewrite app_nil_r. split; [reflexivity|].
      split; [cbn; lia|]. intros k e p Hk. rewrite lookup_nil in Hk. discriminate.
    + set (eh := mkARDFHeader off (uint_at bs 0 4) (uint_at bs 4 4) (bytes_at bs 8 4)
                   (uint_at bs 12 4)) in *.
      destruct (existsb (String.eqb (h_name eh)) toc_entry_names) eqn:Hn;
        cbn [negb] in H; [|discriminate].
      destruct (ARDFHeader_validate mm eh) as [b| |] eqn:Hv; cbn [bind] in H;
        try discriminate.
      apply IH in H as (new & -> & Hlen & Hnew).
      exists ((eh, uint_at bs 16 8) :: new). split; [rewrite <- app_assoc; reflexivity|].
      split; [cbn; lia|]. intros [|k] e p Hk.
      * assert (He : (eh, uint_at bs 16 8) = (e, p)) by (cbn in Hk; congruence).
        injection He as <- <-. split; [reflexivity|].
        split; [exists bs; cbn [h_offset]; repeat split; exact Hbs|].
        split; [|split; [exact Hp|]].
        -- apply existsb_exists in Hn as (x & Hx & Hxe).
           apply String.eqb_eq in Hxe. rewrite Hxe. exact Hx.
        -- rewrite Hv. f_equal. exact (ARDFHeader_validate_Ok _ _ _ Hv).
      * cbn in Hk. exact (Hnew k e p Hk).
Qed.

(** X1 (ARDFTableOfContents.unpack): a table of contents that unpacks holds
    only validated entries.  Entry [k] is the 24-byte record at
    [offset + 32 + 24 * k]: its header is made of the first 16 bytes of the
    record and its pointer is the last 8 bytes; its tag is one of IMAG,
    VOLM, NEXT, THMB and NSET, its pointer is not zero and its checksum has
    been verified, so a later [validate()] of an entry never raises; there
    are no more entries than the declared size has room for. *)
Theorem toc_unpack_entries_validated (mm : list byte) (header : ARDFHeader)
    (toc : ARDFTableOfContents) :
  ARDFTableOfContents_unpack mm header = Ok toc ->
  toc_offset toc = h_offset header
  /\ 32 + 24 * Z.of_nat (length (toc_entries toc)) <= toc_size toc
  /\ forall (k : nat) e p, toc_entries toc !! k = Some (e, p) ->
       let record := h_offset header + 32 + 24 * Z.of_nat k in
       (exists bs,
          unpack_from 24 mm record = Ok bs
          /\ e = mkARDFHeader record (uint_at bs 0 4) (uint_at bs 4 4)
                   (bytes_at bs 8 4) (uint_at bs 12 4)
          /\ p = uint_at bs 16 8)
       /\ In (h_name e) toc_entry_names
       /\ p <> 0
       /\ ARDFHeader_validate mm e = Ok true.
Proof.
  unfold ARDFTableOfContents_unpack. intros H.
  destruct (negb (h_size header =? 32)); [discriminate|].
  destruct (ARDFHeader_validate mm header); cbn [bind] in H; try discriminate.
  destruct (toc_prebody mm (h_offset header)) as [[[size n] stride]| |] eqn:Hpre;
    cbn [bind] in H; try discriminate.
  apply toc_prebody_nonneg in Hpre as (_ & Hn & _).
  unfold assert in H.
  destruct (Z.eqb_spec stride 24) as [Hst|]; cbn [bind] in H; [subst stride|discriminate].
  destruct (Z.eqb_spec (size - 32) (n * 24)) as [Hs|]; cbn [bind] in H; [|discriminate].
  destruct (ARDFTableOfContents_entries mm _ []) as [entries| |] eqn:He;
    cbn [bind] in H; try discriminate.
  injection H as <-. cbn [toc_offset toc_size toc_entries].
  apply ARDFTableOfContents_entries_spec in He as (new & -> & Hlen & Hnew).
  cbn [app]. rewrite (py_range_length _ _ 24 n) in Hlen by lia.
  split; [reflexivity|]. split; [lia|].
  intros k e p Hk. destruct (Hnew k e p Hk) as (Hoff & Hrec & Hrest). cbv zeta.
  split; [|exact Hrest]. apply py_range_lookup in Hoff.
  replace (h_offset header + 32 + 24 * Z.of_nat k) with (h_offset e) by lia.
  exact Hrec.
Qed.

Lemma toc_unpack_entries_validated_witness :
  exists toc,
    ARDFTableOfContents_unpack example_volume example_volm_header = Ok toc
    /\ length (toc_entries toc) = 1%nat
    /\ forall (k : nat) e p, toc_entries toc !! k = Some (e, p) ->
         let record := h_offset example_volm_header + 32 + 24 * Z.of_nat k in
         (exists bs,
            unpack_from 24 example_volume record = Ok bs
            /\ e = mkARDFHeader record (uint_at bs 0 4) (uint_at bs 4 4)
                     (bytes_at bs 8 4) (uint_at bs 12 4)
            /\ p = uint_at bs 16 8)
         /\ In (h_name e) toc_entry_names
         /\ p <> 0
         /\ ARDFHeader_validate example_volume e = Ok true.
Proof.
  eexists. split; [vm_compute; reflexivity|]. split; [reflexivity|].
  apply (toc_unpack_entries_validated example_volume example_volm_header).
  vm_compute; reflexivity.
Defined.

Lemma ARDFVolumeTableOfContents_entries_spec (mm : list byte) (offsets : list Z)
    (acc arr : list (Z * Z * Z * Z)) :
  ARDFVolumeTableOfContents_entries mm offsets acc = Ok arr ->
  exists new,
    arr = acc ++ new
    /\ (length new <= length offsets)%nat
    /\ (forall k : nat, (k < length new)%nat ->
          exists off e bs,
            offsets !! k = Some off
            /\ unpack_from 24 mm (off + 16) = Ok bs
            /\ new !! k
               = Some (uint_at bs 0 4, uint_at bs 4 4, uint_at bs 8 8, uint_at bs 16 8)
            /\ ARDFHeader_unpack mm off = Ok e
            /\ h_crc e <> 0
            /\ h_name e = "VOFF"%string
            /\ ARDFHeader_validate mm e = Ok true)
    /\ ((length new < length offsets)%nat ->
          exists off e,
            offsets !! length new = Some off
            /\ ARDFHeader_unpack mm off = Ok e
            /\ h_crc e = 0).
Proof.
  revert acc. induction offsets as [|off rest IH]; intros acc H;
    cbn [ARDFVolumeTableOfContents_entries] in H.
  - injection H as <-. exists []. rewrite app_nil_r. split; [reflexivity|].
    split; [cbn; lia|]. split; cbn; intros; lia.
  - destruct (ARDFHeader_unpack mm off) as [eh| |] eqn:Heh; cbn [bind] in H;
      try discriminate.
    destruct (Z.eqb_spec (h_crc eh) 0) as [Hc|Hc].
    + injection H as <-. exists []. rewrite app_nil_r. split; [reflexivity|].
      split; [cbn; lia|]. split; [cbn; intros; lia|].
      intros _. exists off, eh. cbn. auto.
    + destruct (String.eqb_spec (h_name eh) "VOFF") as [Hn|Hn]; cbn [negb] in H;
        [|discriminate].
      destruct (ARDFHeader_validate mm eh) as [b| |] eqn:Hv; cbn [bind] in H;
        try discriminate.
      destruct (unpack_from 24 mm (off + 16)) as [bs| |] eqn:Hbs; cbn [bind] in H;
        try discriminate.
      apply IH in H as (new & -> & Hlen & Hnew & Hstop).
      eexists (_ :: new). split; [rewrite <- app_assoc; reflexivity|].
      split; [cbn; lia|]. split.
      * intros [|k] Hk.
        -- exists off, eh, bs. cbn. repeat split; try assumption.
           rewrite Hv. f_equal. exact (ARDFHeader_validate_Ok _ _ _ Hv).
        -- cbn in Hk. destruct (Hnew k) as (o & e & bs' & Ho & He); [lia|].
           exists o, e, bs'. cbn. split; [exact Ho|exact He].
      * intros Hlt. cbn in Hlt. destruct Hstop as (o & e & Ho & He); [lia|].
        exists o, e. cbn. split; [exact Ho|exact He].
Qed.

(** X2 (ARDFVolumeTableOfContents.unpack): the three columns of an unpacked
    volume table have one length, at most the declared number of entries.
    Row [k] comes from the record at [offset + 32 + 40 * k], a VOFF record
    with a non-zero, verified checksum: behind the 16 bytes of the record's
    header and 4 bytes that are not kept, [lines[k]] is the next 4 bytes,
    [points[k]] the next 8 and [pointers[k]] the last 8; the table is
    shorter than declared only where a record with a zero checksum stops it
    (a scan that was interrupted). *)
Theorem vtoc_unpack_columns (mm : list byte) (header : ARDFHeader)
    (vtoc : ARDFVolumeTableOfContents) :
  ARDFVolumeTableOfContents_unpack mm header = Ok vtoc ->
  let rows := length (vtoc_lines vtoc) in
  exists nentries,
    toc_prebody mm (h_offset header) = Ok (vtoc_size vtoc, nentries, 40)
    /\ length (vtoc_points vtoc) = rows
    /\ length (vtoc_pointers vtoc) = rows
    /\ Z.of_nat rows <= nentries
    /\ (forall k : nat, (k < rows)%nat ->
          let record := h_offset header + 32 + 40 * Z.of_nat k in
          exists e bs,
            unpack_from 24 mm (record + 16) = Ok bs
            /\ vtoc_lines vtoc !! k = Some (uint_at bs 4 4)
            /\ vtoc_points vtoc !! k = Some (uint_at bs 8 8)
            /\ vtoc_pointers vtoc !! k = Some (uint_at bs 16 8)
            /\ ARDFHeader_unpack mm record = Ok e
            /\ h_crc e <> 0
            /\ h_name e = "VOFF"%string
            /\ ARDFHeader_validate mm e = Ok true)
    /\ (Z.of_nat rows < nentries ->
          exists e,
            ARDFHeader_unpack mm (h_offset header + 32 + 40 * Z.of_nat rows) = Ok e
            /\ h_crc e = 0).
Proof.
  unfold ARDFVolumeTableOfContents_unpack. intros H.
  destruct (negb (h_size header =? 32) || negb (h_name header =? "VTOC")%string);
    [discriminate|].
  destruct (toc_prebody mm (h_offset header)) as [[[size n] stride]| |] eqn:Hpre;
    cbn [bind] in H; try discriminate.
  pose proof (toc_prebody_nonneg _ _ _ _ _ Hpre) as (_ & Hn & _).
  unfold assert in H.
  destruct (Z.eqb_spec stride 40) as [Hst|]; cbn [bind] in H; [subst stride|discriminate].
  destruct (Z.eqb_spec (size - 32) (n * 40)) as [Hs|]; cbn [bind] in H; [|discriminate].
  destruct (ARDFVolumeTableOfContents_entries mm _ []) as [arr| |] eqn:He;
    cbn [bind] in H; try discriminate.
  injection H as <-.
  cbn [vtoc_offset vtoc_size vtoc_lines vtoc_points vtoc_pointers]. cbv zeta.
  rewrite !length_map.
  apply ARDFVolumeTableOfContents_entries_spec in He as (new & -> & Hlen & Hnew & Hstop).
  cbn [app]. rewrite (py_range_length _ _ 40 n) in Hlen, Hstop by lia.
  exists n. split; [reflexivity|]. split; [reflexivity|]. split; [reflexivity|].
  split; [lia|]. split.
  - intros k Hk. destruct (Hnew k Hk) as (off & e & bs & Hoff & Hbs & Hrow & He).
    apply py_range_lookup in Hoff. exists e, bs.
    replace (h_offset header + 32 + 40 * Z.of_nat k) with off by lia.
    rewrite !list_lookup_fmap, Hrow. cbn [fmap option_fmap option_map].
    split; [exact Hbs|]. repeat (split; [reflexivity|]). exact He.
  - intros Hlt. destruct Hstop as (off & e & Hoff & He); [lia|].
    apply py_range_lookup in Hoff. exists e.
    replace (h_offset header + 32 + 40 * Z.of_nat (length new)) with off by lia. exact He.
Qed.

Lemma vtoc_unpack_columns_witness :
  exists vtoc,
    ARDFVolumeTableOfContents_unpack interrupted_vtoc_bytes interrupted_vtoc_header
    = Ok vtoc
    /\ vtoc_lines vtoc = [0; 1]
    /\ exists nentries,
         toc_prebody interrupted_vtoc_bytes (h_offset interrupted_vtoc_header)
         = Ok (vtoc_size vtoc, nentries, 40)
         /\ length (vtoc_points vtoc) = 2%nat
         /\ length (vtoc_pointers vtoc) = 2%nat
         /\ Z.of_nat 2 <= nentries
         /\ (forall k : nat, (k < 2)%nat ->
               let record := h_offset interrupted_vtoc_header + 32 + 40 * Z.of_nat k in
               exists e bs,
                 unpack_from 24 interrupted_vtoc_bytes (record + 16) = Ok bs
                 /\ vtoc_lines vtoc !! k = Some (uint_at bs 4 4)
                 /\ vtoc_points vtoc !! k = Some (uint_at bs 8 8)
                 /\ vtoc_pointers vtoc !! k = Some (uint_at bs 16 8)
                 /\ ARDFHeader_unpack interrupted_vtoc_bytes record = Ok e
                 /\ h_crc e <> 0
                 /\ h_name e = "VOFF"%string
                 /\ ARDFHeader_validate interrupted_vtoc_bytes e = Ok true)
         /\ (Z.of_nat 2 < nentries ->
               exists e,
                 ARDFHeader_unpack interrupted_vtoc_bytes
                   (h_offset interrupted_vtoc_header + 32 + 40 * Z.of_nat 2) = Ok e
                 /\ h_crc e = 0).
Proof.
  eexists. split; [vm_compute; reflexivity|]. split; [reflexivity|].
  apply (vtoc_unpack_columns interrupted_vtoc_bytes interrupted_vtoc_header).
  vm_compute; reflexivity.
Defined.

(** ** The traversal cache only grows *)

Lemma cache_grows_refl (mm : list byte) (seen : gmap (Z * Z * Z) ARDFVset) :
  cache_grows mm seen seen.
Proof. split; [reflexivity|]. intros k v H. left. exact H. Qed.

Lemma cache_grows_trans (mm : list byte) (s1 s2 s3 : gmap (Z * Z * Z) ARDFVset) :
  cache_grows mm s1 s2 -> cache_grows mm s2 s3 -> cache_grows mm s1 s3.
Proof.
  intros [H12 N12] [H23 N23]. split; [etrans; eassumption|].
  intros k v H. destruct (N23 k v H) as [H2|(H2 & Hk & Hv)].
  - exact (N12 k v H2).
  - right. split; [|split; assumption].
    destruct (s1 !! k) as [x|] eqn:H1; [|reflexivity].
    apply (lookup_weaken _ _ _ _ H1) in H12. congruence.
Qed.

Lemma cache_grows_see (mm : list byte) (seen : gmap (Z * Z * Z) ARDFVset)
    (p : Z) (v : ARDFVset) :
  vset_at mm p = Ok (Some v) -> cache_grows mm seen (see v seen).
Proof.
  intros Hv. pose proof (vset_at_offset _ _ _ Hv) as Ho. unfold see.
  destruct (seen !! vset_index v) eqn:Hs; [apply cache_grows_refl|]. split.
  - apply insert_subseteq. exact Hs.
  - intros k x Hx. destruct (decide (vset_index v = k)) as [<-|Hne].
    + rewrite lookup_insert_eq in Hx. injection Hx as <-. right.
      split; [exact Hs|]. split; [reflexivity|]. rewrite Ho. exact Hv.
    + rewrite lookup_insert_ne in Hx by exact Hne. left. exact Hx.
Qed.

Lemma cache_grows_traverse_vsets_next (mm : list byte)
    (seen : gmap (Z * Z * Z) ARDFVset) (p : Z) :
  cache_grows mm seen (snd (traverse_vsets_next mm seen p)).
Proof.
  rewrite traverse_vsets_next_at. cbn [snd].
  destruct (vset_at mm p) as [[v|]| |] eqn:Hv; try apply cache_grows_refl.
  exact (cache_grows_see _ _ _ _ Hv).
Qed.

Section CacheGrows.

Variable to_nanometers : Z -> Z.
Variable mm : list byte.
Variable rd : ARDFForceMapReader.

Lemma cache_grows_get_curve_read_line (fuel : nat) (r p : Z)
    (seen : gmap (Z * Z * Z) ARDFVset) :
  cache_grows mm seen (snd (get_curve_read_line fuel mm r p seen)).
Proof.
  revert p seen. induction fuel as [|fuel IH]; intros p seen;
    cbn [get_curve_read_line]; [apply cache_grows_refl|].
  pose proof (cache_grows_traverse_vsets_next mm seen p) as Ht.
  destruct (traverse_vsets_next mm seen p) as [[[v|]| |] seen']; cbn [snd] in *;
    try exact Ht.
  destruct (negb (vs_line v =? r)); [exact Ht|].
  eapply cache_grows_trans; [exact Ht|apply IH].
Qed.

Lemma cache_grows_get_curve (fuel : nat) (seen : gmap (Z * Z * Z) ARDFVset)
    (r c : Z) :
  cache_grows mm seen (snd (get_curve to_nanometers fuel mm rd seen r c)).
Proof.
  unfold get_curve.
  destruct (negb _); [apply cache_grows_refl|].
  destruct (seen !! (r, c, r_vtype rd)) as [v|] eqn:Hs.
  - rewrite Hs. apply cache_grows_refl.
  - destruct (get_curve_row_pointer (r_vtoc rd) r) as [[p|]| |];
      try apply cache_grows_refl.
    pose proof (cache_grows_get_curve_read_line fuel r p seen) as Hl.
    destruct (get_curve_read_line fuel mm r p seen) as [[u| |] seen'];
      cbn [snd] in *; try exact Hl.
    destruct (seen' !! (r, c, r_vtype rd)); exact Hl.
Qed.

Lemma cache_grows_iter_curves_from (n fuel : nat) (p : Z)
    (seen : gmap (Z * Z * Z) ARDFVset) (zxr dxr : option (list Z * list Z)) :
  cache_grows mm seen
    (snd (iter_curves_from to_nanometers n fuel mm rd p seen zxr dxr)).
Proof.
  revert p seen zxr dxr. induction fuel as [|fuel IH]; intros p seen zxr dxr;
    cbn [iter_curves_from]; [apply cache_grows_refl|].
  pose proof (cache_grows_traverse_vsets_next mm seen p) as Ht.
  destruct (traverse_vsets_next mm seen p) as [[[v|]| |] seen']; cbn [snd] in *;
    try exact Ht.
  destruct (negb (vs_vtype v =? r_vtype rd)).
  - eapply cache_grows_trans; [exact Ht|apply IH].
  - destruct (curve_vdats to_nanometers n mm rd v zxr dxr) as [[zxr' dxr']| |];
      try exact Ht.
    destruct (zxr_dxr (zxr', dxr')) as [zd| |]; try exact Ht.
    specialize (IH (vs_next_vset_offset v) seen' zxr' dxr').
    destruct (iter_curves_from to_nanometers n fuel mm rd _ seen' zxr' dxr')
      as [[items st] seen''].
    cbn [snd] in *. eapply cache_grows_trans; eassumption.
Qed.

Lemma cache_grows_get_all_curves_collect (n fuel : nat) (p : Z)
    (seen : gmap (Z * Z * Z) ARDFVset) (l : get_all_curves_locals) :
  cache_grows mm seen (snd (get_all_curves_collect n fuel mm rd p seen l)).
Proof.
  revert p seen l. induction fuel as [|fuel IH]; intros p seen l;
    cbn [get_all_curves_collect]; [apply cache_grows_refl|].
  pose proof (cache_grows_traverse_vsets_next mm seen p) as Ht.
  destruct (traverse_vsets_next mm seen p) as [[[v|]| |] seen']; cbn [snd] in *;
    try exact Ht.
  destruct (negb (vs_vtype v =? r_vtype rd)).
  - eapply cache_grows_trans; [exact Ht|apply IH].
  - match goal with
    | |- context [match ?m with Ok _ => _ | Raise _ => _ | OutOfFuel => _ end] =>
        destruct m as [l'| |]
    end; try exact Ht.
    eapply cache_grows_trans; [exact Ht|apply IH].
Qed.

End CacheGrows.

(** X3 (ARDFForceMapReader.get_curve, iter_curves, get_all_curves,
    traverse_vsets): whatever they return or raise, the three reader methods
    only add to [_seen_vsets].  An entry that is cached is never replaced or
    removed, and every entry added is a VSET read from the map, stored under
    its own (line, point, vtype). *)
Theorem reader_cache_only_grows (to_nanometers : Z -> Z) (fuel : nat)
    (mm : list byte) (rd : ARDFForceMapReader) (seen : gmap (Z * Z * Z) ARDFVset) :
  (forall r c, cache_grows mm seen (snd (get_curve to_nanometers fuel mm rd seen r c)))
  /\ cache_grows mm seen (snd (iter_curves to_nanometers fuel mm rd seen))
  /\ cache_grows mm seen (snd (get_all_curves to_nanometers fuel mm rd seen)).
Proof.
  split; [|split].
  - intros r c. apply cache_grows_get_curve.
  - unfold iter_curves. destruct (vtoc_pointers (r_vtoc rd)) as [|p ps];
      [apply cache_grows_refl|]. apply cache_grows_iter_curves_from.
  - unfold get_all_curves. destruct (vtoc_pointers (r_vtoc rd)) as [|p ps];
      [apply cache_grows_refl|].
    pose proof (cache_grows_get_all_curves_collect mm rd fuel fuel p seen
                  (mk_get_all_curves_locals 0xFFFFFFFF [] None None None None)) as Hc.
    destruct (get_all_curves_collect fuel fuel mm rd p seen _) as [[l| |] seen'];
      exact Hc.
Qed.

(** ** The reader that [parse_volm] builds *)

Lemma parse_volm_channels_spec (mm : list byte) (range : list Z) (offset : Z)
    (channels channels' : gmap string (Z * ARDFVchan)) (header : ARDFHeader) :
  parse_volm_channels mm range offset channels = Ok (header, channels') ->
  (size channels' + 1 <= size channels + length range)%nat
  /\ forall name i vchn, channels' !! name = Some (i, vchn) ->
       channels !! name = Some (i, vchn)
       \/ (In i (removelast range) /\ vc_name vchn = name /\ vc_unit vchn = "m"%string).
Proof.
  revert offset channels. induction range as [|i range IH]; intros offset channels H;
    cbn [parse_volm_channels] in H; [discriminate|].
  destruct (ARDFHeader_unpack mm offset) as [h| |]; cbn [bind] in H; try discriminate.
  destruct (negb (h_name h =? "VCHN")%string).
  - injection H as <- <-. split; [cbn; lia|]. intros name j vchn Hl. left. exact Hl.
  - destruct (ARDFVchan_unpack mm h) as [vchn| |]; cbn [bind] in H; try discriminate.
    unfold assert in H.
    destruct (String.eqb_spec (vc_unit vchn) "m") as [Hu|]; cbn [bind] in H;
      [|discriminate].
    assert (Hne : range <> []) by (intros ->; cbn in H; discriminate).
    apply IH in H as [Hsize Hin]. split.
    + pose proof (map_size_insert (vc_name vchn) (i, vchn) channels) as Hs.
      destruct (channels !! vc_name vchn); cbn in *; lia.
    + intros name j v Hl. destruct (Hin name j v Hl) as [Hl'|(Hj & Hn & Hm)].
      * destruct (decide (vc_name vchn = name)) as [<-|Hnn].
        -- rewrite lookup_insert_eq in Hl'. injection Hl' as <- <-. right.
           split; [|split; [reflexivity|exact Hu]].
           destruct range; [contradiction|]. left. reflexivity.
        -- rewrite lookup_insert_ne in Hl' by exact Hnn. left. exact Hl'.
      * right. split; [|split; assumption].
        destruct range; [contradiction|]. right. exact Hj.
Qed.

(** X4 (ARDFVolume.parse_volm): the reader of a volume that parses is well
    formed.  Its volume table has at least one row and as many pointers as
    lines, and the first pointer leads to a VSET with a verified checksum
    whose kind the reader takes, so [iter_curves] and [get_all_curves] find
    their starting pointer; it has at most four channels, numbered from 0 to
    3, each filed under its own name and with the unit [m]. *)
Theorem parse_volm_reader_well_formed (mm : list byte) (volm_header : ARDFHeader)
    (v : ARDFVolume) :
  ARDFVolume_parse_volm mm volm_header = Ok v ->
  let rd := vol_reader v in
  vol_volm_offset v = h_offset volm_header
  /\ vtoc_lines (r_vtoc rd) <> []
  /\ length (vtoc_pointers (r_vtoc rd)) = length (vtoc_lines (r_vtoc rd))
  /\ (exists first_vset,
        vset_at mm (hd 0 (vtoc_pointers (r_vtoc rd))) = Ok (Some first_vset)
        /\ r_vtype rd = vs_vtype first_vset)
  /\ (size (r_channels rd) <= 4)%nat
  /\ forall name i vchn, r_channels rd !! name = Some (i, vchn) ->
       0 <= i <= 3 /\ vc_name vchn = name /\ vc_unit vchn = "m"%string.
Proof.
  unfold ARDFVolume_parse_volm. intros H.
  repeat run_ok H.
  injection H as <-. cbn [vol_reader vol_volm_offset]. cbv zeta.
  cbn [r_vtoc r_vtype r_channels].
  match goal with
  | Hc : parse_volm_channels _ _ _ _ = Ok _ |- _ =>
      apply parse_volm_channels_spec in Hc as [Hsize Hchan]
  end.
  match goal with
  | Hv : ARDFVolumeTableOfContents_unpack _ _ = Ok _ |- _ =>
      apply vtoc_unpack_columns in Hv as (n & _ & _ & Hlen & _)
  end.
  split; [reflexivity|].
  match goal with
  | Hp0 : match vtoc_pointers ?vt with [] => _ | _ :: _ => _ end = Ok ?p |- _ =>
      destruct (vtoc_pointers vt) as [|p0 ps] eqn:Hp; [discriminate Hp0|];
      injection Hp0 as ->
  end.
  split; [intros Hl; rewrite Hl in Hlen; discriminate|].
  split; [exact Hlen|]. split.
  - cbn [hd].
    match goal with
    | Hh : ARDFHeader_unpack mm ?p = Ok ?h, Hs : ARDFVset_unpack mm ?h = Ok ?fv
      |- exists first_vset, vset_at mm ?p = _ /\ _ =>
        exists fv; split; [|reflexivity];
        unfold vset_at, traverse_vsets_next; rewrite Hh;
        assert (Hn : negb (h_name h =? "VSET")%string = false)
          by (unfold ARDFVset_unpack in Hs;
              destruct (negb (h_name h =? "VSET")%string); [discriminate|reflexivity]);
        rewrite Hn, Hs
    end.
    reflexivity.
  - rewrite map_size_empty in Hsize. cbn [length] in Hsize. split; [lia|].
    intros name i vchn Hl. destruct (Hchan name i vchn Hl) as [He|(Hi & Hn & Hu)].
    + rewrite lookup_empty in He. discriminate.
    + split; [|split; assumption]. cbn in Hi. lia.
Qed.

Lemma parse_volm_reader_well_formed_witness :
  exists v,
    ARDFVolume_parse_volm example_volume example_volm_header = Ok v
    /\ vtoc_lines (r_vtoc (vol_reader v)) <> []
    /\ (size (r_channels (vol_reader v)) <= 4)%nat.
Proof.
  eexists. split; [vm_compute; reflexivity|].
  destruct (parse_volm_reader_well_formed example_volume example_volm_header _
              ltac:(vm_compute; reflexivity)) as (_ & H1 & _ & _ & H2 & _).
  split; [exact H1|exact H2].
Defined.

(** ** The note of a file *)

(** A byte changed inside the range of a valid checksum is detected. *)
Lemma validate_changed_byte (mm : list byte) (h : ARDFHeader) (i : nat) (b : byte) :
  0 <= h_offset h ->
  ARDFHeader_validate mm h = Ok true ->
  h_offset h + 4 <= Z.of_nat i < h_offset h + h_size h ->
  (i < length mm)%nat ->
  mm !! i <> Some b ->
  exists got,
    ARDFHeader_validate (<[i := b]> mm) h = Raise (ValueError_section (h_crc h) got h).
Proof.
  intros Hoff Hok Hi Hlen Hb.
  pose proof (ARDFHeader_validate_cases mm h) as Hc. cbv zeta in Hc.
  destruct Hc as [[He _]|[_ Hv]]; [|rewrite Hv in Hok; discriminate].
  destruct (slice_insert mm i b (h_offset h + 4) (h_offset h + h_size h))
    as (pre & b0 & post & Hb0 & Hs & Hs'); [lia|lia|exact Hlen|].
  pose proof (ARDFHeader_validate_cases (<[i := b]> mm) h) as Hc'. cbv zeta in Hc'.
  destruct Hc' as [[He' _]|[Hne' Hv']].
  - exfalso. apply Hb. rewrite Hb0. f_equal.
    apply (zlib_crc32_one_byte pre post). rewrite <- Hs, <- Hs'. congruence.
  - eexists. exact Hv'.
Qed.

Lemma unpack_from_insert_behind (n : Z) (mm : list byte) (offset : Z) (i : nat)
    (b : byte) :
  0 <= n -> offset + n <= Z.of_nat i ->
  unpack_from n (<[i := b]> mm) offset = unpack_from n mm offset.
Proof.
  intros Hn Hi. apply unpack_from_same_prefix; [exact Hn|].
  unfold same_prefix. apply take_insert_ge. lia.
Qed.

Lemma unpack_from_Ok_bounds (n : Z) (mm : list byte) (offset : Z) (bs : list byte) :
  unpack_from n mm offset = Ok bs -> 0 <= offset /\ offset + n <= Z.of_nat (length mm).
Proof.
  unfold unpack_from.
  destruct (Z.leb_spec 0 offset); [|discriminate].
  destruct (Z.leb_spec (offset + n) (Z.of_nat (length mm))); [|discriminate].
  intros _. lia.
Qed.

Lemma length_string_of_list_byte (bs : list byte) :
  String.length (string_of_list_byte bs) = length bs.
Proof.
  unfold string_of_list_byte. induction bs as [|b bs IH]; cbn; [reflexivity|].
  f_equal. exact IH.
Qed.

Lemma decode_windows_1252_Ok (bs : list byte) (s : string) :
  decode_windows_1252 bs = Ok s -> s = string_of_list_byte bs.
Proof.
  unfold decode_windows_1252. destruct (existsb cp1252_undefined bs); [discriminate|].
  congruence.
Qed.

Lemma length_slice_nonneg {A} (l : list A) (a e : Z) :
  0 <= a -> a <= e ->
  Z.of_nat (length (slice l a e)) <= e - a
  /\ (length (slice l a e) = 0%nat \/ a + Z.of_nat (length (slice l a e)) <= Z.of_nat (length l)).
Proof.
  intros Ha He. rewrite slice_nonneg by lia.
  rewrite length_drop, length_take.
  destruct (Nat.min_spec (Z.to_nat e) (length l)) as [[? ->]|[? ->]]; lia.
Qed.

Lemma list_getitem_Ok {A} (l : list A) (i : Z) (a : A) :
  list_getitem l i = Ok a ->
  - Z.of_nat (length l) <= i < Z.of_nat (length l).
Proof.
  unfold list_getitem, np_index.
  destruct (Z.leb_spec (- Z.of_nat (length l)) i); cbn [andb bind]; [|discriminate].
  destruct (Z.ltb_spec i (Z.of_nat (length l))); cbn [bind]; [|discriminate].
  intros _. lia.
Qed.

(** X5 (ARDFTextTableOfContents.decode_entry): the text that [decode_entry]
    returns is covered by the checksum of its TEXT chunk.  The call
    succeeds only for an index from 0 to the number of entries less one;
    the characters of the text are the bytes from [pointer + 24] on, and a
    map in which one of these bytes is different makes the same call raise
    the ValueError of an invalid section. *)
Theorem decode_entry_text_checksummed (mm : list byte)
    (self : ARDFTextTableOfContents) (index : Z) (text : string) :
  ARDFTextTableOfContents_decode_entry mm self index = Ok text ->
  exists entry_header pointer,
    list_getitem (ttoc_entries self) index = Ok (entry_header, pointer)
    /\ 0 <= index < Z.of_nat (length (ttoc_entries self))
    /\ text
       = string_of_list_byte
           (replace_cr_lf
              (slice mm (pointer + 24) (pointer + 24 + Z.of_nat (String.length text))))
    /\ forall (j : nat) (b : byte),
         (j < String.length text)%nat ->
         mm !! (Z.to_nat pointer + 24 + j)%nat <> Some b ->
         exists expected got h,
           ARDFTextTableOfContents_decode_entry
             (<[(Z.to_nat pointer + 24 + j)%nat := b]> mm) self index
           = Raise (ValueError_section expected got h).
Proof.
  unfold ARDFTextTableOfContents_decode_entry. intros H.
  destruct (list_getitem (ttoc_entries self) index) as [[eh pointer]| |] eqn:Hg;
    cbn [bind] in H; try discriminate.
  destruct (unpack_from 24 mm pointer) as [bs| |] eqn:Hbs; cbn [bind] in H;
    try discriminate.
  cbv zeta in H. cbn [h_name h_offset h_size] in H.
  set (th := mkARDFHeader pointer (uint_at bs 0 4) (uint_at bs 4 4) (bytes_at bs 8 4)
               (uint_at bs 12 4)) in *.
  destruct (negb (bytes_at bs 8 4 =? "TEXT")%string) eqn:Hname; [discriminate|].
  destruct (ARDFHeader_validate mm th) as [ok| |] eqn:Hv; cbn [bind] in H;
    try discriminate.
  pose proof (ARDFHeader_validate_Ok _ _ _ Hv) as ->.
  unfold assert in H.
  destruct (Z.eqb_spec (uint_at bs 16 4) index) as [Hi|]; cbn [bind] in H;
    [|discriminate].
  destruct (Z.ltb_spec (uint_at bs 20 4) (uint_at bs 4 4 - 24)) as [Hlen|];
    cbn [bind] in H; [|discriminate].
  apply decode_windows_1252_Ok in H.
  pose proof (unpack_from_Ok_bounds _ _ _ _ Hbs) as [Hp0 Hp1].
  pose proof (uint_at_nonneg bs 16 4) as Hi0.
  pose proof (uint_at_nonneg bs 20 4) as Hl0.
  pose proof (list_getitem_Ok _ _ _ Hg) as Hrange.
  assert (Htl : String.length text
                = length (slice mm (pointer + 24) (pointer + 24 + uint_at bs 20 4))).
  { rewrite H, length_string_of_list_byte. unfold replace_cr_lf.
    rewrite length_map. reflexivity. }
  destruct (length_slice_nonneg mm (pointer + 24) (pointer + 24 + uint_at bs 20 4))
    as [Hsl1 Hsl2]; [lia|lia|].
  exists eh, pointer. split; [reflexivity|]. split; [lia|]. split.
  - rewrite H at 1. f_equal. f_equal. rewrite Htl.
    rewrite !slice_nonneg by lia.
    set (n := length (drop _ (take (Z.to_nat (pointer + 24 + uint_at bs 20 4)) mm))).
    assert (Hn : n = length (drop (Z.to_nat (pointer + 24))
                         (take (Z.to_nat (pointer + 24 + uint_at bs 20 4)) mm)))
      by reflexivity.
    rewrite length_drop, length_take in Hn.
    apply list_eq. intros k. rewrite !lookup_drop, !lookup_take.
    repeat case_decide; try reflexivity.
    + apply lookup_ge_None_2. lia.
    + symmetry. apply lookup_ge_None_2. lia.
  - intros j b Hj Hb. rewrite Htl in Hj.
    set (i := (Z.to_nat pointer + 24 + j)%nat) in *.
    assert (Hbehind : pointer + 24 <= Z.of_nat i) by (unfold i; lia).
    cbn [bind].
    rewrite (unpack_from_insert_behind 24) by lia. rewrite Hbs. cbn [bind].
    cbv zeta. cbn [h_name h_offset h_size]. fold th. rewrite Hname.
    destruct (validate_changed_byte mm th i b) as [got Hgot].
    + exact Hp0.
    + exact Hv.
    + cbn [h_offset h_size th]. unfold i. lia.
    + unfold i. lia.
    + exact Hb.
    + rewrite Hgot. cbn [bind]. eauto.
Qed.

Lemma decode_entry_text_checksummed_witness :
  exists text,
    ARDFTextTableOfContents_decode_entry example_ardf_file example_ardf_ttoc 0 = Ok text
    /\ exists expected got h,
         ARDFTextTableOfContents_decode_entry
           (<[190%nat := x00]> example_ardf_file) example_ardf_ttoc 0
         = Raise (ValueError_section expected got h).
Proof.
  eexists. split; [vm_compute; reflexivity|].
  destruct (decode_entry_text_checksummed example_ardf_file example_ardf_ttoc 0 _
              ltac:(vm_compute; reflexivity))
    as (eh & pointer & Hg & _ & _ & Hchanged).
  vm_compute in Hg. injection Hg as <- <-.
  apply (Hchanged 6%nat x00).
  - vm_compute. lia.
  - vm_compute. discriminate.
Defined.

(** ** [parse_AR_note] *)

Lemma str_contains_char_cons (c a : ascii) (s : string) :
  str_contains (String c EmptyString) (String a s)
  = Ascii.eqb a c || str_contains (String c EmptyString) s.
Proof.
  cbn [str_contains String.prefix].
  destruct (ascii_dec c a) as [->|Hne].
  - rewrite Ascii.eqb_refl. destruct s; reflexivity.
  - destruct (Ascii.eqb_spec a c) as [->|_]; [contradiction|]. reflexivity.
Qed.

Lemma str_contains_char_nil (c : ascii) :
  str_contains (String c EmptyString) EmptyString = false.
Proof. reflexivity. Qed.

Lemma str_split1_contains (c : ascii) (s : string) :
  str_contains (String c EmptyString) s = true ->
  exists k v,
    str_split1 c s = [k; v]
    /\ s = (k ++ String c v)%string
    /\ str_contains (String c EmptyString) k = false.
Proof.
  induction s as [|a s IH]; [discriminate|].
  rewrite str_contains_char_cons. cbn [str_split1].
  destruct (Ascii.eqb_spec a c) as [->|Hne]; cbn [orb].
  - intros _. exists EmptyString, s. repeat split.
  - intros H. destruct (IH H) as (k & v & Hs & -> & Hk). rewrite Hs.
    exists (String a k), v. split; [reflexivity|]. split; [reflexivity|].
    rewrite str_contains_char_cons, Hk.
    destruct (Ascii.eqb_spec a c); [contradiction|reflexivity].
Qed.

Lemma str_split1_append (c : ascii) (k v : string) :
  str_contains (String c EmptyString) k = false ->
  str_split1 c (k ++ String c v) = [k; v]
  /\ str_contains (String c EmptyString) (k ++ String c v) = true.
Proof.
  induction k as [|a k IH]; intros H.
  - change (EmptyString ++ String c v)%string with (String c v).
    cbn [str_split1]. rewrite str_contains_char_cons.
    rewrite Ascii.eqb_refl. split; reflexivity.
  - rewrite str_contains_char_cons in H. apply orb_false_iff in H as [Ha Hk].
    destruct (IH Hk) as [Hs Hc].
    change (String a k ++ String c v)%string with (String a (k ++ String c v))%string.
    cbn [str_split1].
    rewrite Ha, Hs, str_contains_char_cons, Hc, orb_true_r. split; reflexivity.
Qed.

Lemma parse_AR_note_lines (lines : list string) (d : gmap string string) :
  exists d',
    py_dict (map (str_split1 ":") (filter (fun line => note_line_kept line = true) lines)) d
    = Ok d'
    /\ (forall k v, d' !! k = Some v ->
          d !! k = Some v
          \/ (str_contains ":" k = false
              /\ In (k ++ ":" ++ v)%string lines
              /\ str_contains "@Line:" (k ++ ":" ++ v) = false))
    /\ (forall k,
          (forall l, In l lines -> note_line_kept l = true -> note_line_key l <> k) ->
          d' !! k = d !! k)
    /\ (forall before after k v,
          lines = before ++ (k ++ ":" ++ v)%string :: after ->
          str_contains ":" k = false ->
          str_contains "@Line:" (k ++ ":" ++ v) = false ->
          (forall l, In l after -> note_line_kept l = true -> note_line_key l <> k) ->
          d' !! k = Some v).
Proof.
  revert d. induction lines as [|line rest IH]; intros d.
  - exists d. split; [reflexivity|]. split; [intros k v H; left; exact H|].
    split; [reflexivity|]. intros [|b before] after k v H; discriminate.
  - destruct (note_line_kept line) eqn:Hkept.
    + rewrite filter_cons_True by exact Hkept. cbn [map].
      pose proof Hkept as Hk2. unfold note_line_kept in Hk2.
      apply andb_true_iff in Hk2 as [Hcolon Hline]. apply negb_true_iff in Hline.
      destruct (str_split1_contains ":" line Hcolon) as (k0 & v0 & Hs & Hl & Hk0).
      rewrite Hs. cbn [py_dict].
      destruct (IH (<[k0 := v0]> d)) as (d' & Hd' & Hsound & Hkeep & Hlast).
      exists d'. split; [exact Hd'|]. split; [|split].
      * intros k v H. destruct (Hsound k v H) as [H1|(Hk & Hin & Hno)].
        -- destruct (decide (k0 = k)) as [<-|Hne].
           ++ rewrite lookup_insert_eq in H1. injection H1 as <-. right.
              split; [exact Hk0|]. split; [left; exact Hl|]. rewrite Hl in Hline. exact Hline.
           ++ rewrite lookup_insert_ne in H1 by exact Hne. left. exact H1.
        -- right. split; [exact Hk|]. split; [right; exact Hin|exact Hno].
      * intros k Hnone. rewrite Hkeep.
        -- apply lookup_insert_ne.
           assert (Hkey : note_line_key line = k0)
             by (unfold note_line_key; rewrite Hs; reflexivity).
           rewrite <- Hkey. apply (Hnone line); [left; reflexivity|exact Hkept].
        -- intros l Hin. apply Hnone. right. exact Hin.
      * intros [|b before] after k v Heq Hk Hno Hafter.
        -- cbn [app] in Heq. injection Heq as Hline' ->.
           destruct (str_split1_append ":" k v Hk) as [Hs' _].
           change (k ++ ":" ++ v)%string with (k ++ String ":" v)%string in Hline'.
           rewrite Hline', Hs' in Hs. injection Hs as <- <-.
           rewrite (Hkeep k Hafter). apply lookup_insert_eq.
        -- cbn [app] in Heq. injection Heq as _ ->.
           apply (Hlast before after k v); auto.
    + rewrite filter_cons_False by (rewrite Hkept; discriminate).
      destruct (IH d) as (d' & Hd' & Hsound & Hkeep & Hlast).
      exists d'. split; [exact Hd'|]. split; [|split].
      * intros k v H. destruct (Hsound k v H) as [H1|(Hk & Hin & Hno)];
          [left; exact H1|right]. split; [exact Hk|]. split; [right; exact Hin|exact Hno].
      * intros k Hnone. apply Hkeep. intros l Hin. apply Hnone. right. exact Hin.
      * intros [|b before] after k v Heq Hk Hno Hafter.
        -- cbn [app] in Heq. injection Heq as Hline' ->. exfalso.
           destruct (str_split1_append ":" k v Hk) as [_ Hc].
           change (k ++ ":" ++ v)%string with (k ++ String ":" v)%string in Hline'.
           unfold note_line_kept in Hkept. rewrite Hline' in Hkept.
           change (k ++ String ":" v)%string with (k ++ ":" ++ v)%string in Hkept at 2.
           rewrite Hc, Hno in Hkept. discriminate.
        -- cbn [app] in Heq. injection Heq as _ ->.
           apply (Hlast before after k v); auto.
Qed.

(** X6 (parse_AR_note): the note parser never raises and returns, for every
    key, the value of the last line with that key.  A line counts when it
    has a colon and does not contain [@Line:]; its key is the text before
    the first colon and its value is all the text behind it, spaces
    included.  Every entry of the result comes from such a line. *)
Theorem parse_AR_note_last_line_wins (note : string) :
  exists d,
    parse_AR_note note = Ok d
    /\ (forall k v, d !! k = Some v ->
          str_contains ":" k = false
          /\ In (k ++ ":" ++ v)%string (str_split newline note)
          /\ str_contains "@Line:" (k ++ ":" ++ v) = false)
    /\ (forall before after k v,
          str_split newline note = before ++ (k ++ ":" ++ v)%string :: after ->
          str_contains ":" k = false ->
          str_contains "@Line:" (k ++ ":" ++ v) = false ->
          (forall l, In l after -> note_line_kept l = true -> note_line_key l <> k) ->
          d !! k = Some v).
Proof.
  unfold parse_AR_note. fold newline.
  destruct (parse_AR_note_lines (str_split newline note) ∅)
    as (d & Hd & Hsound & _ & Hlast).
  exists d. split; [exact Hd|]. split; [|exact Hlast].
  intros k v H. destruct (Hsound k v H) as [He|Hr]; [|exact Hr].
  rewrite lookup_empty in He. discriminate.
Qed.

Lemma parse_AR_note_last_line_wins_witness :
  exists d,
    parse_AR_note example_note_text = Ok d
    /\ d !! "SpringConstant"%string = Some " 0.11"%string
    /\ d !! "@Line"%string = None.
Proof.
  destruct (parse_AR_note_last_line_wins example_note_text) as (d & Hd & Hsound & Hlast).
  exists d. split; [exact Hd|]. split.
  - apply (Hlast (firstn 5 (str_split newline example_note_text)) [EmptyString]).
    + vm_compute. reflexivity.
    + vm_compute. reflexivity.
    + vm_compute. reflexivity.
    + intros l [<-|[]]. vm_compute. discriminate.
  - destruct (d !! "@Line"%string) as [v|] eqn:Hv; [|reflexivity].
    destruct (Hsound _ _ Hv) as (_ & _ & Hno). exfalso. revert Hno.
    change ("@Line" ++ ":" ++ v)%string with ("@Line:" ++ v)%string.
    destruct v; vm_compute; intros Hno; discriminate Hno.
Defined.

(** ** The file: [ARDFWorker.parse_ardf] *)

Lemma header_at_unpack (mm : list byte) (p : Z) (h : ARDFHeader) :
  ARDFHeader_unpack mm p = Ok h -> header_at mm p = h.
Proof. unfold header_at. intros ->. reflexivity. Qed.

Lemma parse_volm_offset (mm : list byte) (h : ARDFHeader) (v : ARDFVolume) :
  ARDFVolume_parse_volm mm h = Ok v -> vol_volm_offset v = h_offset h.
Proof.
  unfold ARDFVolume_parse_volm. intros H. repeat run_ok H. injection H as <-. reflexivity.
Qed.

Lemma parse_ardf_items_spec (mm : list byte) (entries : list (ARDFHeader * Z))
    (images images' : gmap string ARDFImage) (volumes volumes' : list ARDFVolume) :
  parse_ardf_items mm entries images volumes = Ok (images', volumes') ->
  let pointers := map snd entries in
  Forall (fun p => points_to mm "IMAG" p = true \/ points_to mm "VOLM" p = true) pointers
  /\ (exists new,
        volumes' = volumes ++ new
        /\ map vol_volm_offset new
           = filter (fun p => points_to mm "VOLM" p = true) pointers
        /\ Forall (fun v => ARDFVolume_parse_volm mm (header_at mm (vol_volm_offset v)) = Ok v)
             new)
  /\ (forall name im, images' !! name = Some im ->
        images !! name = Some im
        \/ (img_name im = name
            /\ exists p,
                 In p pointers
                 /\ points_to mm "IMAG" p = true
                 /\ ARDFImage_parse_imag mm (header_at mm p) = Ok im)).
Proof.
  revert images volumes. induction entries as [|[e p] entries IH]; intros images volumes H;
    cbn [parse_ardf_items] in H.
  - injection H as <- <-. cbn. split; [constructor|]. split.
    + exists []. rewrite app_nil_r. repeat split. constructor.
    + intros name im Hl. left. exact Hl.
  - destruct (ARDFHeader_validate mm e); cbn [bind] in H; try discriminate.
    destruct (ARDFHeader_unpack mm p) as [item| |] eqn:Hitem; cbn [bind] in H;
      try discriminate.
    pose proof (ARDFHeader_unpack_offset _ _ _ Hitem) as Hoff.
    pose proof (header_at_unpack _ _ _ Hitem) as Hat.
    cbn [map snd]. cbv zeta.
    destruct (String.eqb_spec (h_name item) "IMAG") as [Hn|Hn].
    + destruct (ARDFImage_parse_imag mm item) as [im0| |] eqn:Him; cbn [bind] in H;
        try discriminate.
      apply IH in H as (Hall & (new & -> & Hmap & Hnew) & Himg).
      assert (Hpi : points_to mm "IMAG" p = true)
        by (unfold points_to; rewrite Hitem, Hn; reflexivity).
      assert (Hpv : points_to mm "VOLM" p = false)
        by (unfold points_to; rewrite Hitem, Hn; reflexivity).
      split; [constructor; [left; exact Hpi|exact Hall]|]. split.
      * exists new. split; [reflexivity|]. split; [|exact Hnew].
        rewrite filter_cons_False by (rewrite Hpv; discriminate). exact Hmap.
      * intros name im Hl. destruct (Himg name im Hl) as [Hl'|(Hname & q & Hq & Hrest)].
        -- destruct (decide (img_name im0 = name)) as [<-|Hne].
           ++ rewrite lookup_insert_eq in Hl'. injection Hl' as <-. right.
              split; [reflexivity|]. exists p. split; [left; reflexivity|].
              split; [exact Hpi|]. rewrite Hat. exact Him.
           ++ rewrite lookup_insert_ne in Hl' by exact Hne. left. exact Hl'.
        -- right. split; [exact Hname|]. exists q. split; [right; exact Hq|exact Hrest].
    + destruct (String.eqb_spec (h_name item) "VOLM") as [Hv|Hv]; [|discriminate].
      destruct (ARDFVolume_parse_volm mm item) as [vol| |] eqn:Hvol; cbn [bind] in H;
        try discriminate.
      apply IH in H as (Hall & (new & -> & Hmap & Hnew) & Himg).
      assert (Hpv : points_to mm "VOLM" p = true)
        by (unfold points_to; rewrite Hitem, Hv; reflexivity).
      pose proof (parse_volm_offset _ _ _ Hvol) as Hvo. rewrite Hoff in Hvo.
      split; [constructor; [right; exact Hpv|exact Hall]|]. split.
      * exists (vol :: new). split; [rewrite <- app_assoc; reflexivity|]. split.
        -- rewrite filter_cons_True by exact Hpv. cbn [map]. rewrite Hvo, Hmap. reflexivity.
        -- constructor; [|exact Hnew]. rewrite Hvo, Hat. exact Hvol.
      * intros name im Hl. destruct (Himg name im Hl) as [Hl'|(Hname & q & Hq & Hrest)].
        -- left. exact Hl'.
        -- right. split; [exact Hname|]. exists q. split; [right; exact Hq|exact Hrest].
Qed.

(** X7 (ARDFWorker.parse_ardf): a file that parses is read along its file
    table.  The file starts with a valid ARDF chunk of size 16; the table
    is the chunk at offset 16, which carries the tag FTOC; the text table
    behind it has one entry; every pointer of the file table leads to an
    IMAG or a VOLM chunk; the volumes of the worker are
    the VOLM chunks of the table, parsed, in the order of the table (so
    [volumes[0]] is the first volume listed); every image is the parse of
    an IMAG chunk of the table and is filed under its own name; and the
    notes are the parse of the text of entry 0 of the text table. *)
Theorem parse_ardf_follows_file_table (mm : list byte) (w : ARDFWorker) :
  ARDFWorker_parse_ardf mm = Ok w ->
  exists file_header ftoc_header ftoc ttoc text,
    ARDFHeader_unpack mm 0 = Ok file_header
    /\ h_name file_header = "ARDF"%string
    /\ h_size file_header = 16
    /\ ARDFHeader_validate mm file_header = Ok true
    /\ ARDFHeader_unpack mm 16 = Ok ftoc_header
    /\ h_name ftoc_header = "FTOC"%string
    /\ ARDFTableOfContents_unpack mm ftoc_header = Ok ftoc
    /\ ARDFTextTableOfContents_unpack mm (header_at mm (toc_offset ftoc + toc_size ftoc))
       = Ok ttoc
    /\ length (ttoc_entries ttoc) = 1%nat
    /\ ARDFTextTableOfContents_decode_entry mm ttoc 0 = Ok text
    /\ parse_AR_note text = Ok (w_notes w)
    /\ let pointers := map snd (toc_entries ftoc) in
       Forall (fun p => points_to mm "IMAG" p = true \/ points_to mm "VOLM" p = true)
         pointers
       /\ map vol_volm_offset (w_volumes w)
          = filter (fun p => points_to mm "VOLM" p = true) pointers
       /\ Forall (fun v => ARDFVolume_parse_volm mm (header_at mm (vol_volm_offset v)) = Ok v)
            (w_volumes w)
       /\ forall name im, w_images w !! name = Some im ->
            img_name im = name
            /\ exists p,
                 In p pointers
                 /\ points_to mm "IMAG" p = true
                 /\ ARDFImage_parse_imag mm (header_at mm p) = Ok im.
Proof.
  unfold ARDFWorker_parse_ardf. intros H.
  destruct (ARDFHeader_unpack mm 0) as [fh| |] eqn:Hfile; cbn [bind] in H;
    try discriminate.
  destruct (Z.eqb_spec (h_size fh) 16) as [Hsz|]; cbn [negb orb] in H; [|discriminate].
  destruct (String.eqb_spec (h_name fh) "ARDF") as [Hname|]; cbn [negb] in H;
    [|discriminate].
  destruct (ARDFHeader_validate mm fh) as [b| |] eqn:Hval; cbn [bind] in H;
    try discriminate.
  rewrite Hsz in H.
  destruct (ARDFHeader_unpack mm 16) as [ftoc_header| |] eqn:Hfh; cbn [bind] in H;
    try discriminate.
  destruct (String.eqb_spec (h_name ftoc_header) "FTOC") as [Hfname|]; cbn [negb] in H;
    [|discriminate].
  destruct (ARDFTableOfContents_unpack mm ftoc_header) as [ftoc| |] eqn:Hftoc;
    cbn [bind] in H; try discriminate.
  destruct (ARDFHeader_unpack mm (toc_offset ftoc + toc_size ftoc)) as [th| |] eqn:Hth;
    cbn [bind] in H; try discriminate.
  destruct (ARDFTextTableOfContents_unpack mm th) as [ttoc| |] eqn:Httoc; cbn [bind] in H;
    try discriminate.
  unfold assert in H.
  destruct (Nat.eqb_spec (length (ttoc_entries ttoc)) 1) as [Hone|]; cbn [bind] in H;
    [|discriminate].
  destruct (ARDFTextTableOfContents_decode_entry mm ttoc 0) as [text| |] eqn:Htext;
    cbn [bind] in H; try discriminate.
  destruct (parse_AR_note text) as [notes| |] eqn:Hnotes; cbn [bind] in H;
    try discriminate.
  destruct (parse_ardf_items mm (toc_entries ftoc) ∅ []) as [[images volumes]| |] eqn:Hi;
    cbn [bind] in H; try discriminate.
  injection H as <-. cbn [w_notes w_volumes w_images].
  apply parse_ardf_items_spec in Hi as (Hall & (new & Hv & Hmap & Hnew) & Himg).
  cbn [app] in Hv. subst volumes.
  exists fh, ftoc_header, ftoc, ttoc, text.
  split; [reflexivity|]. split; [exact Hname|]. split; [exact Hsz|].
  split; [rewrite Hval; f_equal; exact (ARDFHeader_validate_Ok _ _ _ Hval)|].
  split; [reflexivity|]. split; [exact Hfname|]. split; [exact Hftoc|].
  split; [rewrite (header_at_unpack _ _ _ Hth); exact Httoc|]. split; [exact Hone|].
  split; [exact Htext|].
  split; [exact Hnotes|]. cbv zeta.
  split; [exact Hall|]. split; [exact Hmap|]. split; [exact Hnew|].
  intros name im Hl. destruct (Himg name im Hl) as [He|Hr]; [|exact Hr].
  rewrite lookup_empty in He. discriminate.
Qed.

Lemma parse_ardf_follows_file_table_witness :
  exists w,
    ARDFWorker_parse_ardf example_ardf_file = Ok w
    /\ map vol_volm_offset (w_volumes w) = [568]
    /\ Forall (fun v => ARDFVolume_parse_volm example_ardf_file
                          (header_at example_ardf_file (vol_volm_offset v)) = Ok v)
         (w_volumes w).
Proof.
  eexists. split; [vm_compute; reflexivity|].
  destruct (parse_ardf_follows_file_table example_ardf_file _
              ltac:(vm_compute; reflexivity))
    as (file & fh & ftoc & ttoc & text & _ & _ & _ & _ & Hfh & _ & Hftoc & _ & _ & _
        & _ & _ & Hmap & Hvols & _).
  split; [|exact Hvols]. vm_compute. reflexivity.
Defined.

(** ** Image names and units *)

Lemma append_cons (c : ascii) (s t : string) :
  (String c s ++ t)%string = String c (s ++ t).
Proof. reflexivity. Qed.

Lemma append_nil_l (t : string) : (EmptyString ++ t)%string = t.
Proof. reflexivity. Qed.

Lemma append_assoc (a b c : string) : ((a ++ b) ++ c)%string = (a ++ (b ++ c))%string.
Proof.
  induction a as [|x a IH]; [reflexivity|]. rewrite !append_cons, IH. reflexivity.
Qed.

Lemma length_append (a b : string) :
  String.length (a ++ b) = (String.length a + String.length b)%nat.
Proof.
  induction a as [|x a IH]; [reflexivity|]. rewrite append_cons. cbn [String.length].
  rewrite IH. reflexivity.
Qed.

Lemma endswith_cons (c : ascii) (s suffix : string) :
  endswith (String c s) suffix = String.eqb (String c s) suffix || endswith s suffix.
Proof. reflexivity. Qed.

Lemma endswith_length (s suffix : string) :
  endswith s suffix = true -> (String.length suffix <= String.length s)%nat.
Proof.
  induction s as [|c s IH].
  - cbn [endswith]. rewrite orb_false_r. intros H. apply String.eqb_eq in H. subst. lia.
  - rewrite endswith_cons. intros H. apply orb_true_iff in H as [H|H].
    + apply String.eqb_eq in H. subst. lia.
    + apply IH in H. cbn [String.length]. lia.
Qed.

Lemma endswith_same_length (s suffix : string) :
  endswith s suffix = true -> String.length s = String.length suffix -> s = suffix.
Proof.
  destruct s as [|c s].
  - cbn [endswith]. rewrite orb_false_r. intros H _. apply String.eqb_eq in H. exact H.
  - rewrite endswith_cons. intros H Hl. apply orb_true_iff in H as [H|H].
    + apply String.eqb_eq in H. exact H.
    + apply endswith_length in H. cbn [String.length] in Hl. lia.
Qed.

Lemma endswith_refl (s : string) : endswith s s = true.
Proof. destruct s; cbn [endswith]; rewrite String.eqb_refl; reflexivity. Qed.

Lemma endswith_app (a suffix : string) : endswith (a ++ suffix) suffix = true.
Proof.
  induction a as [|c a IH]; [apply endswith_refl|].
  rewrite append_cons, endswith_cons, IH. apply orb_true_r.
Qed.

(** A string that ends with [suffix] and with a text no longer than
    [suffix] shows that [suffix] ends with that text. *)
Lemma endswith_app_inv (s t suffix : string) :
  endswith (s ++ t) suffix = true ->
  (String.length t <= String.length suffix)%nat ->
  endswith suffix t = true.
Proof.
  induction s as [|c s IH]; intros H Hl.
  - rewrite append_nil_l in H. pose proof (endswith_length _ _ H) as Hl'.
    rewrite (endswith_same_length _ _ H) by lia. apply endswith_refl.
  - rewrite append_cons, endswith_cons in H. apply orb_true_iff in H as [H|H].
    + apply String.eqb_eq in H. subst suffix. rewrite <- append_cons. apply endswith_app.
    + exact (IH H Hl).
Qed.

Lemma substring_prefix (a b : string) :
  String.substring 0 (String.length a) (a ++ b) = a.
Proof.
  induction a as [|c a IH].
  - cbn [String.length]. destruct (EmptyString ++ b)%string; reflexivity.
  - rewrite append_cons. cbn [String.length String.substring]. rewrite IH. reflexivity.
Qed.

Lemma removesuffix_app (a suffix : string) :
  suffix <> EmptyString -> removesuffix (a ++ suffix) suffix = a.
Proof.
  intros Hne. unfold removesuffix. rewrite endswith_app.
  destruct (String.eqb_spec suffix EmptyString) as [->|_]; [contradiction|].
  cbn [negb andb]. rewrite length_append.
  replace (String.length a + String.length suffix - String.length suffix)%nat
    with (String.length a) by lia.
  apply substring_prefix.
Qed.

Lemma removesuffix_other (s suffix : string) :
  endswith s suffix = false -> removesuffix s suffix = s.
Proof. unfold removesuffix. intros ->. reflexivity. Qed.

(** After [trace] is gone from a name that ends in [retrace] or [Retrace],
    none of the other suffixes applies. *)
Lemma removesuffix_re (base re suffix : string) :
  (String.length re <= String.length suffix)%nat ->
  endswith suffix re = false ->
  removesuffix (base ++ re) suffix = (base ++ re)%string.
Proof.
  intros Hl Hs. apply removesuffix_other.
  destruct (endswith (base ++ re) suffix) eqn:He; [|reflexivity].
  apply endswith_app_inv in He; [congruence|exact Hl].
Qed.

(** X8 (BaseForceVolumeFile.strip_trace, get_image_units): [strip_trace]
    removes [trace] before it tries [retrace] and [Retrace], so a name that
    ends in [Retrace] or [retrace] only loses its last five letters, and
    the units of such an image are looked up under the name that ends in
    [Re].  A name that ends in [Trace] loses it and is then stripped of
    [retrace] and [Retrace].  With the units of an ARDF file the image
    ZSensorTrace is in metres and ZSensorRetrace in the default unit,
    volts. *)
Theorem strip_trace_retrace_keeps_re (base : string) :
  strip_trace (base ++ "Retrace") = (base ++ "Re")%string
  /\ strip_trace (base ++ "retrace") = (base ++ "re")%string
  /\ strip_trace (base ++ "Trace")
     = removesuffix (removesuffix base "retrace") "Retrace"
  /\ (forall (image : Type) (self : BaseForceVolumeFile image),
        get_image_units image self (base ++ "Retrace")
        = default "V"%string (_units_map image self !! (base ++ "Re")%string))
  /\ (forall (image : Type) (cache : gmap string image) (names : gset string),
        let self := mkBaseForceVolumeFile image ARDFFile_basic_units_map cache names in
        get_image_units image self "ZSensorTrace" = "m"%string
        /\ get_image_units image self "ZSensorRetrace" = "V"%string).
Proof.
  assert (H1 : strip_trace (base ++ "Retrace") = (base ++ "Re")%string).
  { unfold strip_trace. cbn [fold_left].
    change (base ++ "Retrace")%string with (base ++ ("Re" ++ "trace"))%string.
    rewrite <- append_assoc, removesuffix_app by discriminate.
    rewrite !removesuffix_re by (cbn; lia || reflexivity). reflexivity. }
  split; [exact H1|]. split; [|split; [|split]].
  - unfold strip_trace. cbn [fold_left].
    change (base ++ "retrace")%string with (base ++ ("re" ++ "trace"))%string.
    rewrite <- append_assoc, removesuffix_app by discriminate.
    rewrite !removesuffix_re by (cbn; lia || reflexivity). reflexivity.
  - unfold strip_trace. cbn [fold_left].
    change (base ++ "Trace")%string with (base ++ ("T" ++ "race"))%string.
    rewrite <- append_assoc.
    rewrite (removesuffix_other _ "trace").
    + rewrite append_assoc. change ("T" ++ "race")%string with "Trace"%string.
      rewrite removesuffix_app by discriminate. reflexivity.
    + destruct (endswith ((base ++ "T") ++ "race") "trace") eqn:He; [|reflexivity].
      rewrite append_assoc in He. change ("T" ++ "race")%string with "Trace"%string in He.
      apply endswith_app_inv in He; [discriminate He|cbn; lia].
  - intros image self. unfold get_image_units. rewrite H1. reflexivity.
  - intros image cache names. split; vm_compute; reflexivity.
Qed.

(** ** The image cache *)

(** X9 (BaseForceVolumeFile.add_image, get_image_units, get_image,
    image_names): an image that was added is served from the cache.  After
    [add_image(name, units, image)] the name is among [image_names], its
    units (and those of every name with the same stripped name) are
    [units], and [get_image(name)] returns [image] without a call of
    [get_image_sync]; an image that [get_image] has returned once is
    returned again by the next call, which leaves the file object as it
    is. *)
Theorem added_image_is_served (image : Type) (get_image_sync : string -> res image)
    (self : BaseForceVolumeFile image) (name units : string) (im : image) :
  let self' := add_image image self name units im in
  name ∈ image_names image self'
  /\ (forall name', strip_trace name' = strip_trace name ->
        get_image_units image self' name' = units)
  /\ get_image image get_image_sync self' name = (Ok im, self')
  /\ (forall name0 im0 self1,
        get_image image get_image_sync self name0 = (Ok im0, self1) ->
        get_image image get_image_sync self1 name0 = (Ok im0, self1)
        /\ _units_map image self1 = _units_map image self
        /\ name0 ∈ image_names image self1).
Proof.
  cbv zeta. split; [|split; [|split]].
  - unfold image_names, add_image. cbn [_image_cache]. rewrite dom_insert.
    set_solver.
  - intros name' Hs. unfold get_image_units, add_image. cbn [_units_map].
    rewrite Hs, lookup_insert_eq. reflexivity.
  - unfold get_image, add_image. cbn [_image_cache]. rewrite lookup_insert_eq.
    reflexivity.
  - intros name0 im0 self1. unfold get_image.
    destruct (_image_cache image self !! name0) as [im1|] eqn:Hc.
    + intros H. injection H as <- <-. rewrite Hc. split; [reflexivity|].
      split; [reflexivity|]. unfold image_names. apply elem_of_union_l.
      apply elem_of_dom. eauto.
    + destruct (get_image_sync name0) as [im1| |]; try discriminate.
      intros H. injection H as <- <-. cbn [_image_cache _units_map].
      rewrite lookup_insert_eq. split; [reflexivity|]. split; [reflexivity|].
      unfold image_names. cbn [_image_cache]. rewrite dom_insert. set_solver.
Qed.

Lemma added_image_is_served_witness :
  strip_trace "Height" = strip_trace "HeightTrace"
  /\ get_image_units Z
       (add_image Z (mkBaseForceVolumeFile Z ∅ ∅ ∅) "HeightTrace" "m" 7) "Height"
     = "m"%string.
Proof.
  split; [reflexivity|].
  pose proof (added_image_is_served Z (fun _ => Raise IndexError)
                (mkBaseForceVolumeFile Z ∅ ∅ ∅) "HeightTrace" "m" 7) as H.
  cbv zeta in H. destruct H as (_ & H & _). apply H. reflexivity.
Defined.

(** ** The version test of [bruker_bpp_fix] *)

Lemma hex_char_code_point (upper : bool) (d : Z) :
  0 <= d < 16 ->
  cp1252_code_point (hex_char upper d)
  = if d <? 10 then 48 + d else (if upper then 55 else 87) + d.
Proof.
  intros Hd.
  assert (Hc : d = 0 \/ d = 1 \/ d = 2 \/ d = 3 \/ d = 4 \/ d = 5 \/ d = 6 \/ d = 7
               \/ d = 8 \/ d = 9 \/ d = 10 \/ d = 11 \/ d = 12 \/ d = 13 \/ d = 14
               \/ d = 15) by lia.
  destruct upper;
    repeat (destruct Hc as [->|Hc]; [vm_compute; reflexivity|]); subst d;
    vm_compute; reflexivity.
Qed.

Lemma hex_char_monotone (upper : bool) (d e : Z) :
  0 <= d < 16 -> 0 <= e < 16 ->
  (cp1252_code_point (hex_char upper d) =? cp1252_code_point (hex_char upper e))
  = (d =? e)
  /\ (cp1252_code_point (hex_char upper e) <? cp1252_code_point (hex_char upper d))
     = (e <? d).
Proof.
  intros Hd He. rewrite !hex_char_code_point by assumption.
  destruct upper; destruct (Z.ltb_spec d 10); destruct (Z.ltb_spec e 10); split;
    repeat match goal with
           | |- context [?a =? ?b] => destruct (Z.eqb_spec a b)
           | |- context [?a <? ?b] => destruct (Z.ltb_spec a b)
           end; try reflexivity; lia.
Qed.

Lemma hex_value_bound (digits : list Z) :
  Forall (fun d => 0 <= d < 16) digits ->
  0 <= hex_value digits < 16 ^ Z.of_nat (length digits).
Proof.
  induction 1 as [|d ds Hd Hds IH]; [cbn; lia|].
  cbn [hex_value length]. rewrite Nat2Z.inj_succ, Z.pow_succ_r by lia. nia.
Qed.

Lemma str_gt_hex (upper : bool) (ds es : list Z) :
  length ds = length es ->
  Forall (fun d => 0 <= d < 16) ds -> Forall (fun d => 0 <= d < 16) es ->
  str_gt (hex_string upper ds) (hex_string upper es) = (hex_value es <? hex_value ds).
Proof.
  revert es. induction ds as [|d ds IH]; intros [|e es] Hl Hds Hes; try discriminate.
  - reflexivity.
  - cbn [length] in Hl. injection Hl as Hl.
    inversion Hds as [|? ? Hd Hds']; inversion Hes as [|? ? He Hes']; subst.
    cbn [hex_string str_gt hex_value].
    destruct (hex_char_monotone upper d e Hd He) as [-> ->].
    pose proof (hex_value_bound ds Hds') as Bd.
    pose proof (hex_value_bound es Hes') as Be.
    rewrite Hl in Bd. rewrite Hl. set (p := 16 ^ Z.of_nat (length es)) in *.
    destruct (Z.eqb_spec d e) as [->|Hne].
    + rewrite (IH es Hl Hds' Hes').
      destruct (Z.ltb_spec (hex_value es) (hex_value ds));
        destruct (Z.ltb_spec (e * p + hex_value es) (e * p + hex_value ds));
        try reflexivity; lia.
    + destruct (Z.ltb_spec e d);
        destruct (Z.ltb_spec (e * p + hex_value es) (d * p + hex_value ds));
        try reflexivity; nia.
Qed.

(** X10 (bruker_bpp_fix): the lexical test on the version is the numeric
    one for versions of the usual form.  For a version written as [0x] and
    eight hexadecimal digits, all capitals or all small letters, the result
    is 4 exactly when the number is above 0x09200000, and [int(bpp)]
    otherwise; for such a new version [bpp] is never converted.  A version
    with fewer digits is compared as text: 0x1000000 counts as new. *)
Theorem bruker_bpp_fix_hex_versions (py_int : string -> res Z) (upper : bool)
    (digits : list Z) (bpp : string) :
  length digits = 8%nat ->
  Forall (fun d => 0 <= d < 16) digits ->
  bruker_bpp_fix py_int bpp ("0x" ++ hex_string upper digits)
  = (if 0x09200000 <? hex_value digits then Ok 4 else py_int bpp)
  /\ bruker_bpp_fix py_int bpp "0x1000000" = Ok 4.
Proof.
  intros Hl Hd. split; [|reflexivity]. unfold bruker_bpp_fix.
  assert (Hv : "0x09200000"%string
               = ("0x" ++ hex_string upper [0; 9; 2; 0; 0; 0; 0; 0])%string)
    by (destruct upper; reflexivity).
  rewrite Hv.
  change (str_gt ("0x" ++ hex_string upper digits)
            ("0x" ++ hex_string upper [0; 9; 2; 0; 0; 0; 0; 0]))
    with (str_gt (hex_string upper digits) (hex_string upper [0; 9; 2; 0; 0; 0; 0; 0])).
  rewrite str_gt_hex.
  - reflexivity.
  - exact Hl.
  - exact Hd.
  - repeat constructor; lia.
Qed.

Lemma bruker_bpp_fix_hex_versions_witness :
  bruker_bpp_fix (fun _ => Ok 2) "2" "0x09300201" = Ok 4
  /\ bruker_bpp_fix (fun _ => Ok 2) "2" "0x08150304" = Ok 2.
Proof.
  split.
  - apply (bruker_bpp_fix_hex_versions (fun _ => Ok 2) true [0; 9; 3; 0; 0; 2; 0; 1] "2").
    + reflexivity.
    + repeat constructor; lia.
  - apply (bruker_bpp_fix_hex_versions (fun _ => Ok 2) true [0; 8; 1; 5; 0; 3; 0; 4] "2").
    + reflexivity.
    + repeat constructor; lia.
Defined.

(** ** The header of a Nanoscope file *)

Lemma startswith_tail (s : string) (c : ascii) (t : string) :
  startswith s (String c EmptyString) = true -> str_tail s = t -> s = String c t.
Proof.
  unfold startswith. destruct s as [|x s]; [discriminate|]. cbn [String.prefix str_tail].
  destruct (ascii_dec c x) as [->|]; [|discriminate]. intros _ ->. reflexivity.
Qed.

Lemma header_line_break (st : header_state) (line : string) :
  header_line st line = HOk None <-> is_end_marker line = true.
Proof.
  unfold header_line, is_end_marker.
  destruct (startswith line "\"); cbn [negb andb]; [|split; discriminate].
  set (l := str_strip (str_tail line)).
  destruct (startswith l "*") eqn:Hs.
  - destruct (String.eqb_spec (str_tail l) "File list end") as [Ht|Ht].
    + rewrite (startswith_tail _ _ _ Hs Ht). split; reflexivity.
    + split.
      * destruct (dict_get (str_tail l) (hs_header st)) as [item|]; [|discriminate].
        destruct item as [id|ids|names]; try discriminate;
          destruct (hs_current st) as [cur|]; try discriminate.
        destruct (Nat.eqb id cur); discriminate.
      * intros He. apply String.eqb_eq in He. rewrite He in Ht. contradiction.
  - split.
    + unfold split_key_value. destruct (str_split1 ":" l) as [|key [|value [|]]];
        cbn [hbind]; try discriminate.
      destruct (startswith key "@").
      * destruct key as [|c0 [|c key]]; cbn [hbind]; try discriminate.
        destruct (py_isdigit c && (String.length (String c0 (String c key)) =? 2)%nat).
        -- destruct (str_split1 ":" value) as [|key2 [|value2 [|]]]; cbn [hbind];
             try discriminate.
           destruct (hs_current st); discriminate.
        -- cbn [hbind]. destruct (hs_current st); discriminate.
      * cbn [hbind]. destruct (hs_current st); discriminate.
    + intros He. apply String.eqb_eq in He. rewrite He in Hs. discriminate.
Qed.

Lemma header_loop_marker (pre post post' : list string) (m : string)
    (st : header_state) :
  is_end_marker m = true ->
  header_loop (pre ++ m :: post) st = header_loop (pre ++ m :: post') st.
Proof.
  intros Hm. revert st. induction pre as [|line pre IH]; intros st; cbn [app header_loop].
  - apply (header_line_break st) in Hm. rewrite Hm. reflexivity.
  - destruct (header_line st line) as [[st'|]|e]; [apply IH|reflexivity|reflexivity].
Qed.

Lemma header_loop_Ok (lines : list string) (st st' : header_state) :
  header_loop lines st = HOk st' ->
  exists pre m post,
    lines = pre ++ m :: post
    /\ is_end_marker m = true
    /\ Forall (fun line => is_end_marker line = false) pre.
Proof.
  revert st. induction lines as [|line lines IH]; intros st; cbn [header_loop];
    [discriminate|].
  destruct (header_line st line) as [[st1|]|e] eqn:Hl; [| |discriminate].
  - intros H. destruct (IH _ H) as (pre & m & post & -> & Hm & Hpre).
    exists (line :: pre), m, post. split; [reflexivity|]. split; [exact Hm|].
    constructor; [|exact Hpre].
    destruct (is_end_marker line) eqn:He; [|reflexivity].
    apply (header_line_break st) in He. congruence.
  - intros _. exists [], line, lines. split; [reflexivity|].
    split; [apply (header_line_break st); exact Hl|constructor].
Qed.

(** X11 (parse_nanoscope_header): the header ends at the first line that
    reads [*File list end].  Whatever follows that line is never looked at,
    whether the parser returns or raises; and a header is returned only for
    lines that hold such a line. *)
Theorem nanoscope_header_ends_at_marker :
  (forall (pre post post' : list string) (m : string),
      is_end_marker m = true ->
      parse_nanoscope_header (pre ++ m :: post)
      = parse_nanoscope_header (pre ++ m :: post'))
  /\ (forall (lines : list string) h,
        parse_nanoscope_header lines = HOk h ->
        exists pre m post,
          lines = pre ++ m :: post
          /\ is_end_marker m = true
          /\ Forall (fun line => is_end_marker line = false) pre)
  /\ parse_nanoscope_header []
     = HRaise (Known (ValueError_msg "File ended too soon")).
Proof.
  split; [|split; [|reflexivity]].
  - intros pre post post' m Hm. unfold parse_nanoscope_header.
    rewrite (header_loop_marker pre post post' m _ Hm). reflexivity.
  - intros lines h. unfold parse_nanoscope_header.
    destruct (header_loop lines _) as [st|e] eqn:Hl; cbn [hbind]; [|discriminate].
    intros _. exact (header_loop_Ok _ _ _ Hl).
Qed.

Lemma nanoscope_header_ends_at_marker_witness :
  parse_nanoscope_header example_header_lines
  = parse_nanoscope_header (firstn 14 example_header_lines)
  /\ exists h, parse_nanoscope_header example_header_lines = HOk h.
Proof.
  destruct nanoscope_header_ends_at_marker as (Hcut & _ & _). split.
  - apply (Hcut (firstn 13 example_header_lines) ["this line is never read"%string] []
             (header_text_line "*File list end")).
    vm_compute. reflexivity.
  - eexists. vm_compute. reflexivity.
Defined.

Lemma dict_get_set_eq {K V} `{EqDecision K} (k : K) (v : V) (d : list (K * V)) :
  dict_get k (dict_set k v d) = Some v.
Proof.
  induction d as [|[k' v'] d IH]; cbn [dict_set dict_get].
  - destruct (decide (k = k)); [reflexivity|contradiction].
  - destruct (decide (k = k')) as [He|Hne]; cbn [dict_get].
    + destruct (decide (k = k)); [reflexivity|contradiction].
    + destruct (decide (k = k')); [contradiction|exact IH].
Qed.

Lemma dict_get_set_ne {K V} `{EqDecision K} (k k' : K) (v : V) (d : list (K * V)) :
  k <> k' -> dict_get k' (dict_set k v d) = dict_get k' d.
Proof.
  intros Hne. induction d as [|[k0 v0] d IH]; cbn [dict_set dict_get].
  - destruct (decide (k' = k)); [congruence|reflexivity].
  - destruct (decide (k = k0)) as [<-|Hne0]; cbn [dict_get].
    + destruct (decide (k' = k)); [congruence|reflexivity].
    + destruct (decide (k' = k0)); [reflexivity|exact IH].
Qed.

Lemma dict_set_set {K V} `{EqDecision K} (k : K) (v v' : V) (d : list (K * V)) :
  dict_set k v' (dict_set k v d) = dict_set k v' d.
Proof.
  induction d as [|[k0 v0] d IH]; cbn [dict_set].
  - destruct (decide (k = k)); [reflexivity|contradiction].
  - destruct (decide (k = k0)) as [<-|Hne]; cbn [dict_set].
    + destruct (decide (k = k)); [reflexivity|contradiction].
    + destruct (decide (k = k0)); [contradiction|]. rewrite IH. reflexivity.
Qed.

Lemma link_entries_spec (objects : list section) (data_key : string) (ids : list nat)
    (names0 names : list (string * nat)) :
  link_entries objects data_key ids names0 = HOk names ->
  forall name id, dict_get name names = Some id ->
    dict_get name names0 = Some id
    \/ (In id ids
        /\ exists value,
             section_get objects id data_key = HOk value
             /\ quoted_name value = HOk name).
Proof.
  revert names0. induction ids as [|i ids IH]; intros names0 H name id Hg;
    cbn [link_entries] in H.
  - injection H as <-. left. exact Hg.
  - destruct (section_get objects i data_key) as [value|] eqn:Hv; cbn [hbind] in H;
      [|discriminate].
    destruct (quoted_name value) as [n|] eqn:Hn; cbn [hbind] in H; [|discriminate].
    destruct (IH _ H name id Hg) as [H0|(Hin & Hrest)].
    + destruct (decide (n = name)) as [<-|Hne].
      * rewrite dict_get_set_eq in H0. injection H0 as <-. right.
        split; [left; reflexivity|]. exists value. split; assumption.
      * rewrite dict_get_set_ne in H0 by exact Hne. left. exact H0.
    + right. split; [right; exact Hin|exact Hrest].
Qed.

Lemma link_names_spec (list_name data_key target : string)
    (header header' : list (string * header_item)) (objects : list section) :
  target <> list_name ->
  link_names list_name data_key target header objects = HOk header' ->
  exists names,
    header' = dict_set target (item_names names) header
    /\ dict_get list_name header <> None
    /\ forall name id, dict_get name names = Some id ->
         In id (header_sections header list_name)
         /\ exists value,
              section_get objects id data_key = HOk value
              /\ quoted_name value = HOk name.
Proof.
  intros Hne. unfold link_names, header_sections.
  rewrite dict_get_set_ne by exact Hne.
  destruct (dict_get list_name header) as [[id|ids|[|p names]]|] eqn:Hg; try discriminate.
  - destruct (default [] (objects !! id)) as [|kv sec].
    + intros H. injection H as <-. exists []. split; [reflexivity|].
      split; [discriminate|]. intros name i Hn. discriminate.
    + destruct (section_get objects id data_key) as [value|] eqn:Hv; cbn [hbind];
        [|discriminate].
      destruct (quoted_name value) as [n|] eqn:Hn; cbn [hbind]; [|discriminate].
      intros H. injection H as <-. exists [(n, id)]. rewrite dict_set_set.
      split; [reflexivity|]. split; [discriminate|].
      intros name i Hl. cbn [dict_get] in Hl.
      destruct (decide (name = n)) as [->|]; [|discriminate]. injection Hl as <-.
      split; [left; reflexivity|]. exists value. split; assumption.
  - destruct (link_entries objects data_key ids []) as [names|] eqn:Hl; cbn [hbind];
      [|discriminate].
    intros H. injection H as <-. exists names. rewrite dict_set_set.
    split; [reflexivity|]. split; [discriminate|].
    intros name i Hn. destruct (link_entries_spec _ _ _ _ _ Hl name i Hn) as [H0|Hr];
      [discriminate|exact Hr].
  - intros H. injection H as <-. exists []. split; [reflexivity|].
    split; [discriminate|]. intros name i Hn. discriminate.
  - destruct (dict_get data_key _); discriminate.
Qed.

(** X12 (parse_nanoscope_header): what the returned header links.  A header
    that is returned has no section with an empty name, has the sections
    [Ciao image list] and [Ciao force image list], and has the dicts
    [Image] and [FV]; every entry of [Image] leads to a section of
    [Ciao image list] whose [@2:Image Data] value carries the entry's name
    between its first two double quotes, and every entry of [FV] to a
    section of [Ciao force image list] named by its [@4:Image Data]. *)
Theorem nanoscope_header_links (lines : list string)
    (header : list (string * header_item)) (objects : list section) :
  parse_nanoscope_header lines = HOk (header, objects) ->
  dict_get EmptyString header = None
  /\ dict_get "Ciao image list"%string header <> None
  /\ dict_get "Ciao force image list"%string header <> None
  /\ exists images fvs,
       header_names header "Image" = Some images
       /\ header_names header "FV" = Some fvs
       /\ (forall name id, dict_get name images = Some id ->
             In id (header_sections header "Ciao image list")
             /\ exists value,
                  section_get objects id "@2:Image Data" = HOk value
                  /\ quoted_name value = HOk name)
       /\ (forall name id, dict_get name fvs = Some id ->
             In id (header_sections header "Ciao force image list")
             /\ exists value,
                  section_get objects id "@4:Image Data" = HOk value
                  /\ quoted_name value = HOk name).
Proof.
  unfold parse_nanoscope_header.
  destruct (header_loop lines _) as [st|e]; cbn [hbind]; [|discriminate].
  destruct (hs_header st) as [|kv0 h0] eqn:Hh; [discriminate|]. rewrite <- Hh.
  cbn [orb].
  destruct (dict_get EmptyString (hs_header st)) eqn:Hempty; [discriminate|].
  destruct (link_names "Ciao image list" "@2:Image Data" "Image" (hs_header st)
              (hs_objects st)) as [h1|] eqn:H1; cbn [hbind]; [|discriminate].
  destruct (link_names "Ciao force image list" "@4:Image Data" "FV" h1 (hs_objects st))
    as [h2|] eqn:H2; cbn [hbind]; [|discriminate].
  intros H. injection H as <- <-.
  apply link_names_spec in H1 as (images & -> & Hi & Himg); [|discriminate].
  apply link_names_spec in H2 as (fvs & -> & Hf & Hfv); [|discriminate].
  unfold header_names, header_sections in *.
  repeat (rewrite dict_get_set_eq || rewrite dict_get_set_ne by discriminate).
  repeat (rewrite dict_get_set_ne in Hf by discriminate).
  repeat (rewrite dict_get_set_ne in Hfv by discriminate).
  split; [exact Hempty|]. split; [exact Hi|]. split; [exact Hf|].
  exists images, fvs. split; [reflexivity|]. split; [reflexivity|].
  split; [exact Himg|exact Hfv].
Qed.

Lemma nanoscope_header_links_witness :
  exists header objects images,
    parse_nanoscope_header example_header_lines = HOk (header, objects)
    /\ header_names header "Image" = Some images
    /\ dict_get "Adhesion"%string images = Some 3%nat
    /\ In 3%nat (header_sections header "Ciao image list").
Proof.
  eexists. eexists. eexists. split; [vm_compute; reflexivity|].
  split; [vm_compute; reflexivity|]. split; [vm_compute; reflexivity|].
  destruct (nanoscope_header_links example_header_lines _ _
              ltac:(vm_compute; reflexivity))
    as (_ & _ & _ & images & fvs & Hi & _ & Himg & _).
  vm_compute in Hi. injection Hi as <-.
  destruct (Himg "Adhesion"%string 3%nat ltac:(vm_compute; reflexivity)) as [Hin _].
  exact Hin.
Defined.

(** ** C strings *)

Lemma rstrip_nul_cons (b : byte) (bs : list byte) :
  rstrip_nul (b :: bs)
  = match rstrip_nul bs with
    | [] => if Byte.eqb b x00 then [] else [b]
    | r => b :: r
    end.
Proof. reflexivity. Qed.

Lemma rstrip_nul_nuls (n : nat) : rstrip_nul (repeat x00 n) = [].
Proof.
  induction n as [|n IH]; [reflexivity|]. cbn [repeat]. rewrite rstrip_nul_cons, IH.
  reflexivity.
Qed.

Lemma rstrip_nul_app_nuls (bs : list byte) (n : nat) :
  rstrip_nul (bs ++ repeat x00 n) = rstrip_nul bs.
Proof.
  induction bs as [|b bs IH]; [apply rstrip_nul_nuls|].
  rewrite <- app_comm_cons, !rstrip_nul_cons, IH. reflexivity.
Qed.

Lemma rstrip_nul_spec (bs : list byte) :
  exists n, bs = rstrip_nul bs ++ repeat x00 n /\ last (rstrip_nul bs) <> Some x00.
Proof.
  induction bs as [|b bs (n & Hbs & Hlast)].
  - exists 0%nat. split; [reflexivity|discriminate].
  - rewrite rstrip_nul_cons. destruct (rstrip_nul bs) as [|r rs] eqn:Hr.
    + destruct (Byte.eqb b x00) eqn:Hb.
      * apply Byte.byte_dec_bl in Hb. subst b. exists (S n). cbn [app repeat].
        split; [f_equal; exact Hbs|discriminate].
      * exists n. cbn [app]. split; [f_equal; exact Hbs|].
        cbn. intros H. injection H as ->. discriminate.
    + exists n. split; [cbn [app]; f_equal; exact Hbs|].
      rewrite last_cons. destruct (last (r :: rs)) eqn:Hl; [exact Hlast|].
      apply last_None in Hl. discriminate.
Qed.

Lemma rstrip_nul_id (bs : list byte) : last bs <> Some x00 -> rstrip_nul bs = bs.
Proof.
  intros Hl. destruct (rstrip_nul_spec bs) as (n & Hbs & _).
  destruct n as [|n]; [rewrite app_nil_r in Hbs; congruence|].
  exfalso. apply Hl. rewrite Hbs. replace (S n) with (n + 1)%nat by lia.
  rewrite repeat_app, app_assoc. cbn [repeat]. apply last_snoc.
Qed.

(** X13 (decode_cstring): a C string field is decoded up to its padding.
    NUL bytes at the end never change the result; the text returned does
    not end in NUL and is the field less its trailing NULs, byte by byte
    (NULs inside the text are kept); and a field without trailing NUL and
    without the five bytes that windows-1252 leaves undefined decodes to
    itself. *)
Theorem decode_cstring_drops_padding (cstring : list byte) :
  (forall n, decode_cstring (cstring ++ repeat x00 n) = decode_cstring cstring)
  /\ (forall text, decode_cstring cstring = Ok text ->
        exists n,
          cstring = list_byte_of_string text ++ repeat x00 n
          /\ last (list_byte_of_string text) <> Some x00)
  /\ (last cstring <> Some x00 ->
      existsb cp1252_undefined cstring = false ->
      decode_cstring cstring = Ok (string_of_list_byte cstring)).
Proof.
  split; [|split].
  - intros n. unfold decode_cstring. rewrite rstrip_nul_app_nuls. reflexivity.
  - intros text H. unfold decode_cstring in H. apply decode_windows_1252_Ok in H.
    subst text. rewrite list_byte_of_string_of_list_byte. apply rstrip_nul_spec.
  - intros Hl Hu. unfold decode_cstring, decode_windows_1252.
    rewrite (rstrip_nul_id _ Hl), Hu. reflexivity.
Qed.

Lemma decode_cstring_drops_padding_witness :
  last [x6d] <> Some x00
  /\ existsb cp1252_undefined [x6d] = false
  /\ decode_cstring [x6d] = Ok "m"%string.
Proof.
  split; [discriminate|]. split; [reflexivity|].
  destruct (decode_cstring_drops_padding [x6d]) as (_ & _ & H).
  apply H; [discriminate | reflexivity].
Defined.

(** ** Force curves of a Nanoscope force volume *)

Lemma slice_back_prefix {A} (a : list A) (s : Z) :
  1 <= s <= Z.of_nat (length a) -> slice_back a (s - 1) = rev (take (Z.to_nat s) a).
Proof.
  intros Hs. unfold slice_back.
  destruct (Z.ltb_spec (s - 1) 0); [lia|].
  destruct (Z.ltb_spec (s - 1) 0); [lia|].
  rewrite Z.min_l by lia. do 2 f_equal. lia.
Qed.

Lemma slice_prefix {A} (a : list A) (s : Z) :
  0 <= s -> slice a 0 s = take (Z.to_nat s) a.
Proof. intros Hs. rewrite slice_nonneg by lia. reflexivity. Qed.

Lemma slice_from_drop {A} (a : list A) (s : Z) :
  0 <= s -> slice_from a s = drop (Z.to_nat s) a.
Proof.
  intros Hs. unfold slice_from. rewrite slice_nonneg by lia.
  rewrite Nat2Z.id, firstn_all. reflexivity.
Qed.

Lemma np_roll_0 {A} (a : list A) : np_roll a (- 0) = a.
Proof.
  unfold np_roll. destruct a as [|x a]; [reflexivity|].
  set (l := x :: a). cbn [Z.opp]. rewrite Z.mod_0_l by (unfold l; cbn [length]; lia).
  rewrite Z.sub_0_r, Nat2Z.id, drop_all, firstn_all. reflexivity.
Qed.

Lemma length_np_roll {A} (a : list A) (shift : Z) : length (np_roll a shift) = length a.
Proof.
  unfold np_roll. destruct a as [|x a]; [reflexivity|].
  rewrite length_app, length_drop, length_take. lia.
Qed.

(** X14 (FFVWorker.get_force_curve): for a split [s] from 1 to the number
    of points, height and deflection are cut alike.  The extend part is the
    first [s] samples in reverse and the retract part is the rest, and that
    for both arrays when [sync_dist] is 0, so that sample [i] of both
    extend parts comes from point [s - 1 - i]; for another [sync_dist] the
    deflection array is first rotated to the left by [sync_dist] and then
    cut at [s], with parts of the same lengths. *)
Theorem ffv_curve_cut_alike (sample sensitivity : Type)
    (times_defl_scale : sensitivity -> Z -> sample) (times_z_scale : Z -> sample)
    (self : FFVWorker) (r c : Z) (defl_sens : sensitivity) (sync_dist : Z)
    (d_ints z_ints : list Z) :
  np_getitem2 (ffv_d_ints self) r c = Ok d_ints ->
  np_getitem2 (ffv_z_ints self) r c = Ok z_ints ->
  1 <= ffv_split self <= Z.of_nat (length d_ints) ->
  ffv_split self <= Z.of_nat (length z_ints) ->
  let s := Z.to_nat (ffv_split self) in
  let d := map (times_defl_scale defl_sens) d_ints in
  let z := map times_z_scale z_ints in
  let turned := rev (take s d) ++ drop s d in
  let rolled := np_roll turned (- sync_dist) in
  FFVWorker_get_force_curve sample sensitivity times_defl_scale times_z_scale
    self r c defl_sens sync_dist
  = Ok ((rev (take s z), drop s z), (take s rolled, drop s rolled))
  /\ length (take s rolled) = s
  /\ length (drop s rolled) = (length d_ints - s)%nat
  /\ (sync_dist = 0 -> take s rolled = rev (take s d) /\ drop s rolled = drop s d).
Proof.
  intros Hd Hz Hs Hsz s d z turned rolled.
  assert (Hld : length d = length d_ints) by (unfold d; apply length_map).
  assert (Hlz : length z = length z_ints) by (unfold z; apply length_map).
  assert (Hlt : length turned = length d_ints).
  { unfold turned. rewrite length_app, length_rev, length_take, length_drop. lia. }
  assert (Hlr : length rolled = length d_ints).
  { unfold rolled. rewrite length_np_roll. exact Hlt. }
  split; [|split; [|split]].
  - unfold FFVWorker_get_force_curve. rewrite Hd. cbn [bind]. fold d.
    rewrite slice_back_prefix by lia. fold s.
    unfold np_setitem_prefix. rewrite slice_prefix by lia. fold s.
    rewrite length_rev.
    rewrite Nat.eqb_refl. cbn [bind].
    assert (Hm : length (take s d) = s) by (rewrite length_take; lia).
    rewrite Hm. fold turned.
    rewrite Hz. cbn [bind]. fold z.
    rewrite slice_back_prefix by lia. rewrite !slice_from_drop, !slice_prefix by lia.
    fold s. destruct (Z.eqb_spec sync_dist 0) as [->|Hne].
    + unfold rolled. rewrite np_roll_0. reflexivity.
    + reflexivity.
  - rewrite length_take. lia.
  - rewrite length_drop. lia.
  - intros ->. unfold rolled. rewrite np_roll_0. unfold turned.
    assert (Hl : length (rev (take s d)) = s) by (rewrite length_rev, length_take; lia).
    split.
    + rewrite take_app_length' by (symmetry; exact Hl). reflexivity.
    + rewrite drop_app_length' by (symmetry; exact Hl). reflexivity.
Qed.

Lemma ffv_curve_cut_alike_witness :
  FFVWorker_get_force_curve Z unit (fun _ x => 10 * x) (fun x => x)
    (mkFFVWorker 2 [[[1; 2; 3; 4; 5]]] [[[11; 12; 13; 14; 15]]]) 0 0 tt 0
  = Ok (([12; 11], [13; 14; 15]), ([20; 10], [30; 40; 50])).
Proof.
  destruct (ffv_curve_cut_alike Z unit (fun _ x => 10 * x) (fun x => x)
              (mkFFVWorker 2 [[[1; 2; 3; 4; 5]]] [[[11; 12; 13; 14; 15]]]) 0 0 tt 0
              [1; 2; 3; 4; 5] [11; 12; 13; 14; 15])
    as [H _].
  - reflexivity.
  - reflexivity.
  - simpl. lia.
  - simpl. lia.
  - exact H.
Defined.

(** ** The pixels of an image *)






(** ** Where the samples of a curve come from *)

Section CurveData.

Variable to_nanometers : Z -> Z.
Variable mm : list byte.
Variable rd : ARDFForceMapReader.

Lemma bound_by_skip (branch : ARDFVdata -> bool) (vdat : ARDFVdata)
    (vdats : list ARDFVdata) (before after : option (list Z * list Z)) :
  branch vdat = false ->
  bound_by to_nanometers mm branch vdats before after -> bound_by to_nanometers mm branch (vdat :: vdats) before after.
Proof. unfold bound_by. cbn [List.filter]. intros ->. auto. Qed.

Lemma bound_by_take (branch : ARDFVdata -> bool) (vdat : ARDFVdata)
    (vdats : list ARDFVdata) (a : list Z) (before after : option (list Z * list Z)) :
  branch vdat = true ->
  ARDFVdata_get_ndarray to_nanometers mm vdat = Ok a ->
  bound_by to_nanometers mm branch vdats (Some (extend_retract a vdat)) after ->
  bound_by to_nanometers mm branch (vdat :: vdats) before after.
Proof.
  unfold bound_by. cbn [List.filter]. intros -> Ha. rewrite last_cons.
  destruct (last (List.filter branch vdats)); [auto|].
  intros ->. exists a. split; [exact Ha|reflexivity].
Qed.

Lemma curve_vdats_loop_spec (fuel : nat) (p : Z)
    (zxr dxr zxr' dxr' : option (list Z * list Z)) :
  curve_vdats_loop to_nanometers fuel mm rd p zxr dxr = Ok (zxr', dxr') ->
  exists vdats,
    traverse_vdats_from fuel mm p = Ok vdats
    /\ bound_by to_nanometers mm (carries_height rd) vdats zxr zxr'
    /\ bound_by to_nanometers mm (carries_deflection rd) vdats dxr dxr'.
Proof.
  revert p zxr dxr. induction fuel as [|fuel IH]; intros p zxr dxr;
    cbn [curve_vdats_loop traverse_vdats_from]; [discriminate|].
  destruct (traverse_vdats_next mm p) as [[[vdat p']|]|e|]; cbn [bind];
    try discriminate.
  - unfold curve_vdat_body.
    destruct (channel_index (r_channels rd) (zname rd)) as [zi|e|] eqn:Hzi;
      cbn [bind]; try discriminate.
    destruct (vd_channel vdat =? zi) eqn:Hz.
    + destruct (ARDFVdata_get_ndarray to_nanometers mm vdat) as [z|e|] eqn:Hg;
        cbn [bind]; try discriminate.
      intros H. apply IH in H as (vdats & Hrun & Hzs & Hds). rewrite Hrun. cbn [bind].
      exists (vdat :: vdats). split; [reflexivity|].
      assert (Hh : carries_height rd vdat = true)
        by (unfold carries_height; rewrite Hzi; exact Hz).
      split.
      * exact (bound_by_take _ _ _ _ _ _ Hh Hg Hzs).
      * apply bound_by_skip; [|exact Hds]. unfold carries_deflection. rewrite Hh.
        reflexivity.
    + assert (Hh : carries_height rd vdat = false)
        by (unfold carries_height; rewrite Hzi; exact Hz).
      destruct (channel_index (r_channels rd) "Defl") as [di|e|] eqn:Hdi;
        cbn [bind]; try discriminate.
      destruct (vd_channel vdat =? di) eqn:Hd.
      * destruct (ARDFVdata_get_ndarray to_nanometers mm vdat) as [d|e|] eqn:Hg;
          cbn [bind]; try discriminate.
        intros H. apply IH in H as (vdats & Hrun & Hzs & Hds). rewrite Hrun. cbn [bind].
        exists (vdat :: vdats). split; [reflexivity|]. split.
        -- apply bound_by_skip; assumption.
        -- apply (bound_by_take _ _ _ d); [|exact Hg|exact Hds].
           unfold carries_deflection. rewrite Hh, Hdi, Hd. reflexivity.
      * cbn [bind]. intros H. apply IH in H as (vdats & Hrun & Hzs & Hds).
        rewrite Hrun. cbn [bind].
        exists (vdat :: vdats). split; [reflexivity|]. split.
        -- apply bound_by_skip; assumption.
        -- apply bound_by_skip; [|exact Hds].
           unfold carries_deflection. rewrite Hh, Hdi, Hd. reflexivity.
  - intros H. injection H as <- <-. exists []. split; [reflexivity|].
    split; reflexivity.
Qed.

End CurveData.

(** X16 (ARDFForceMapReader.get_curve, traverse_vdats): where the samples
    of a curve come from.  When [get_curve(r, c)] returns a pair of curves,
    the VSET cached under (r, c, vtype) is followed by a valid VNAM chunk
    and by VDAT chunks with valid checksums; the height curve holds the
    samples of the last of these chunks whose channel is the height
    channel, and the deflection curve those of the last chunk whose channel
    is the deflection channel and not the height channel, each cut into
    [a[:s[1]]] and [a[s[1]:s[2]]] by the chunk's own segment offsets. *)
Theorem get_curve_reads_last_vdat (to_nanometers : Z -> Z) (fuel : nat)
    (mm : list byte) (rd : ARDFForceMapReader) (seen seen' : gmap (Z * Z * Z) ARDFVset)
    (r c : Z) (zxr dxr : list Z * list Z) :
  get_curve to_nanometers fuel mm rd seen r c = (Ok (zd_tuple zxr dxr), seen') ->
  exists vset pointer vdats zvdat dvdat z d,
    seen' !! (r, c, r_vtype rd) = Some vset
    /\ traverse_vdats_start mm (vs_offset vset + vs_size vset) = Ok pointer
    /\ traverse_vdats_from fuel mm pointer = Ok vdats
    /\ last (List.filter (carries_height rd) vdats) = Some zvdat
    /\ last (List.filter (carries_deflection rd) vdats) = Some dvdat
    /\ ARDFVdata_get_ndarray to_nanometers mm zvdat = Ok z
    /\ zxr = extend_retract z zvdat
    /\ ARDFVdata_get_ndarray to_nanometers mm dvdat = Ok d
    /\ dxr = extend_retract d dvdat.
Proof.
  unfold get_curve. destruct (negb _); [discriminate|].
  set (curve := (r, c, r_vtype rd)).
  set (filled := match seen !! curve with Some _ => _ | None => _ end).
  assert (Hf : forall early s, filled = (Ok (Some early), s) -> early = nan_placeholder).
  { unfold filled. intros early s. destruct (seen !! curve); [discriminate|].
    destruct (get_curve_row_pointer (r_vtoc rd) r) as [[p|]| |]; try discriminate.
    - destruct (get_curve_read_line fuel mm r p seen) as [[u| |] s']; discriminate.
    - intros H. injection H as <- _. reflexivity. }
  destruct filled as [[[early|]| |] s] eqn:Hfilled; try discriminate.
  - intros H. injection H as He _. rewrite (Hf early s eq_refl) in He. discriminate.
  - destruct (s !! curve) as [vset|] eqn:Hv; [|discriminate].
    intros H. injection H as Hzd <-.
    unfold curve_vdats in Hzd.
    destruct (traverse_vdats_start mm (vs_offset vset + vs_size vset)) as [p| |] eqn:Hp;
      cbn [bind] in Hzd; try discriminate.
    destruct (curve_vdats_loop to_nanometers fuel mm rd p None None)
      as [[zo do]| |] eqn:Hloop; cbn [bind] in Hzd; try discriminate.
    destruct zo as [zx|]; [|discriminate]. destruct do as [dx|]; [|discriminate].
    cbn [zxr_dxr] in Hzd. injection Hzd as -> ->.
    apply curve_vdats_loop_spec in Hloop as (vdats & Hrun & Hz & Hd).
    unfold bound_by in Hz, Hd.
    destruct (last (List.filter (carries_height rd) vdats)) as [zvdat|] eqn:Hlz;
      [|discriminate].
    destruct (last (List.filter (carries_deflection rd) vdats)) as [dvdat|] eqn:Hld;
      [|discriminate].
    destruct Hz as (z & Hgz & Hez). destruct Hd as (d & Hgd & Hed).
    injection Hez as ->. injection Hed as ->.
    exists vset, p, vdats, zvdat, dvdat, z, d. repeat split; assumption.
Qed.

Lemma get_curve_reads_last_vdat_witness :
  exists zxr dxr seen' vset pointer vdats,
    get_curve float32_times_1e9 10 example_volume example_reader ∅ 0 1
    = (Ok (zd_tuple zxr dxr), seen')
    /\ seen' !! (0, 1, r_vtype example_reader) = Some vset
    /\ traverse_vdats_start example_volume (vs_offset vset + vs_size vset) = Ok pointer
    /\ traverse_vdats_from 10 example_volume pointer = Ok vdats.
Proof.
  destruct (get_curve float32_times_1e9 10 example_volume example_reader ∅ 0 1)
    as [[[zxr dxr|a]| |] seen'] eqn:Hg;
    try (vm_compute in Hg; discriminate Hg).
  exists zxr, dxr, seen'.
  apply get_curve_reads_last_vdat in Hg
    as (vset & pointer & vdats & _ & _ & _ & _ & Hs & Hp & Hrun & _).
  exists vset, pointer, vdats. split; [reflexivity|]. split; [exact Hs|].
  split; [exact Hp|exact Hrun].
Defined.

(** ** A pixel without data *)

Lemma curve_vdats_loop_skips (to_nanometers : Z -> Z) (mm : list byte)
    (rd : ARDFForceMapReader) (n : nat) (p : Z) (vdats : list ARDFVdata)
    (zxr dxr : option (list Z * list Z)) :
  traverse_vdats_from n mm p = Ok vdats ->
  (vdats <> [] ->
   exists zi di,
     channel_index (r_channels rd) (zname rd) = Ok zi
     /\ channel_index (r_channels rd) "Defl" = Ok di) ->
  Forall (fun vdat => carries_height rd vdat = false
                      /\ carries_deflection rd vdat = false) vdats ->
  curve_vdats_loop to_nanometers n mm rd p zxr dxr = Ok (zxr, dxr).
Proof.
  revert p vdats. induction n as [|n IH]; intros p vdats;
    cbn [traverse_vdats_from curve_vdats_loop]; [discriminate|].
  destruct (traverse_vdats_next mm p) as [[[vdat p']|]|e|]; cbn [bind];
    try discriminate; [|reflexivity].
  destruct (traverse_vdats_from n mm p') as [rest| |] eqn:Hrest; cbn [bind];
    try discriminate.
  intros H Hch Hall. injection H as <-.
  destruct Hch as (zi & di & Hzi & Hdi); [discriminate|].
  inversion Hall as [|? ? [Hh Hd] Hall']; subst.
  unfold curve_vdat_body. rewrite Hzi. cbn [bind].
  unfold carries_deflection in Hd. rewrite Hh in Hd. unfold carries_height in Hh.
  rewrite Hzi in Hh. rewrite Hdi in Hd. cbn [negb andb] in Hd.
  rewrite Hh, Hdi. cbn [bind]. rewrite Hd. cbn [bind].
  apply (IH p' rest); [exact Hrest| |exact Hall'].
  intros _. exists zi, di. split; assumption.
Qed.

(** X17 (ARDFForceMapReader.iter_curves, get_curve): a pixel without data
    of its own.  [iter_curves] keeps [zxr] and [dxr] from one pixel to the
    next, so for a VSET of the reader's kind whose VDAT chunks carry
    neither the height nor the deflection channel (or that has none) it
    yields the curves of the pixel before it; [get_curve], whose variables
    are fresh, raises UnboundLocalError for the same pixel. *)
Theorem iter_curves_repeats_curve_for_empty_pixel (to_nanometers : Z -> Z)
    (n fuel : nat) (mm : list byte) (rd : ARDFForceMapReader) (p p0 : Z)
    (seen : gmap (Z * Z * Z) ARDFVset) (zxr dxr : list Z * list Z) (v : ARDFVset)
    (vdats : list ARDFVdata) :
  vset_at mm p = Ok (Some v) ->
  vs_vtype v = r_vtype rd ->
  traverse_vdats_start mm (vs_offset v + vs_size v) = Ok p0 ->
  traverse_vdats_from n mm p0 = Ok vdats ->
  (vdats <> [] ->
   exists zi di,
     channel_index (r_channels rd) (zname rd) = Ok zi
     /\ channel_index (r_channels rd) "Defl" = Ok di) ->
  Forall (fun vdat => carries_height rd vdat = false
                      /\ carries_deflection rd vdat = false) vdats ->
  iter_curves_from to_nanometers n (S fuel) mm rd p seen (Some zxr) (Some dxr)
  = (let '(items, st, seen') :=
       iter_curves_from to_nanometers n fuel mm rd (vs_next_vset_offset v)
         (see v seen) (Some zxr) (Some dxr) in
     (((vs_line v, vs_point v), zd_tuple zxr dxr) :: items, st, seen'))
  /\ forall cache,
       cache !! (vs_line v, vs_point v, r_vtype rd) = Some v ->
       0 <= vs_line v < r_lines rd ->
       0 <= vs_point v < r_points rd ->
       get_curve to_nanometers n mm rd cache (vs_line v) (vs_point v)
       = (Raise (UnboundLocalError "zxr"), cache).
Proof.
  intros Hv Ht Hp Hrun Hch Hall. split.
  - cbn [iter_curves_from]. rewrite traverse_vsets_next_at, Hv.
    rewrite Ht, Z.eqb_refl. cbn [negb]. unfold curve_vdats. rewrite Hp. cbn [bind].
    rewrite (curve_vdats_loop_skips _ _ _ _ _ _ _ _ Hrun Hch Hall). cbn [zxr_dxr].
    reflexivity.
  - intros cache Hc Hl Hpt. unfold get_curve.
    replace (negb _) with false.
    2:{ symmetry. apply negb_false_iff. rewrite !andb_true_iff.
        repeat split; (apply Z.leb_le || apply Z.ltb_lt); lia. }
    rewrite Hc. rewrite Hc. unfold curve_vdats. rewrite Hp. cbn [bind].
    rewrite (curve_vdats_loop_skips _ _ _ _ _ _ _ _ Hrun Hch Hall). reflexivity.
Qed.

Lemma iter_curves_repeats_curve_for_empty_pixel_witness :
  exists first,
    fst (fst (iter_curves float32_times_1e9 10 empty_pixel_volume empty_pixel_reader ∅))
    = [((0, 0), first); ((0, 1), first)]
    /\ exists v,
         vset_at empty_pixel_volume 1000 = Ok (Some v)
         /\ get_curve float32_times_1e9 10 empty_pixel_volume empty_pixel_reader
              (<[(0, 1, 2) := v]> ∅) 0 1
            = (Raise (UnboundLocalError "zxr"), <[(0, 1, 2) := v]> ∅).
Proof.
  eexists. split; [vm_compute; reflexivity|].
  eexists. split; [vm_compute; reflexivity|].
  match goal with
  | |- get_curve _ _ _ _ (<[_ := ?v]> ∅) _ _ = _ =>
      destruct (iter_curves_repeats_curve_for_empty_pixel float32_times_1e9 10 0
                  empty_pixel_volume empty_pixel_reader 1000 1064 ∅ ([], []) ([], [])
                  v [])
        as [_ H]
  end.
  - vm_compute. reflexivity.
  - reflexivity.
  - vm_compute. reflexivity.
  - vm_compute. reflexivity.
  - intros H. contradiction.
  - constructor.
  - refine (H (<[(0, 1, 2) := _]> ∅) _ _ _).
    + apply lookup_insert_eq.
    + cbn. lia.
    + cbn. lia.
Defined.
